(** * The game-tree search of gtp_connection.py

    A shallow embedding of the solver part of [gtp_connection.py]: the
    module-level undo stack ([stack], [save_board], [undo]), the time budget
    ([TIME_LIMIT], [setGlobalTime]), the top-level driver [Minimax], the two
    prover nodes [MinimaxBooleanOR] and [MinimaxBooleanAND], and the entry
    point [minimax_solve] up to the value it obtains from [Minimax].

    Python objects are mutable and are passed by reference, so the embedding
    keeps a store of board objects addressed by identity; [board.copy()]
    allocates a new identity, [board.play_move_gomoku] updates an object in
    place, and the stack holds identities.  The board class itself
    ([GoBoard], [GoBoardUtil]) is not part of this file of the repository and
    is an interface here. *)

From Stdlib Require Import String Ascii ZArith QArith List Bool Lia.
From Stdlib Require Import DecimalString DecimalZ.
Import ListNotations.

Local Open Scope Z_scope.

(** ** Values *)

(** The colour codes imported from [board_util]. *)
Inductive color := EMPTY | BLACK | WHITE | BORDER.

Definition color_eqb (a b : color) : bool :=
  match a, b with
  | EMPTY, EMPTY | BLACK, BLACK | WHITE, WHITE | BORDER, BORDER => true
  | _, _ => false
  end.

(** A variable holding a colour may also hold Python's [None]
    ([opposite_color] falls off its [if]/[elif] for any other value). *)
Definition pycolor := option color.

Definition pycolor_eqb (a b : pycolor) : bool :=
  match a, b with
  | Some x, Some y => color_eqb x y
  | None, None => true
  | _, _ => false
  end.

(** [def opposite_color(color)] *)
Definition opposite_color (c : pycolor) : pycolor :=
  match c with
  | Some BLACK => Some WHITE
  | Some WHITE => Some BLACK
  | _ => None
  end.

(** A point of the board array; [best_move] is a point or [None]. *)
Definition point := Z.

(** What the prover nodes and [StatisticallyEvaluate] return:
    [(win, col, points)]. *)
Definition verdict := (bool * pycolor * Z)%type.

(** The interface of the board class, as this file uses it.  The four
    queries do not change the board; [play_move_gomoku] is the in-place
    update, given here by the contents of the board after the call.
    [StatisticallyEvaluate] is called either with [False] or with no
    argument: [Some false] and [None]. *)
Class GoBoard (board : Type) := {
  generate_legal_moves_gomoku : board -> list point;
  check_game_end_gomoku : board -> bool * pycolor;
  play_move_gomoku : board -> point -> pycolor -> board;
  StatisticallyEvaluate : board -> option bool -> verdict;
  current_player : board -> pycolor
}.

(** ** The process state *)

(** Object identities. *)
Definition ref := nat.
Bind Scope nat_scope with ref.

(** What [print] is given in the search: a float, an int or a string. *)
Inductive printed :=
| PFloat (q : Q)
| PInt (z : Z)
| PStr (s : string).

(** [IndexError] is what [list.pop] raises on an empty list. *)
Inductive exn := IndexError.

Section Search.

Context {board : Type} {GB : GoBoard board}.

(** Successive readings of [time.time()], as rationals in seconds.  The
    elapsed time is their exact difference; the source subtracts them as
    floats, which rounds the difference to the nearest float.  Rounding
    keeps the order and leaves the integers up to 2^53 where they are. *)
Variable time_time : nat -> Q.

(** The board objects alive and the module's globals.  Python lists grow at
    the end: the top of [stack] is its last element. *)
Record world := mkWorld {
  objects : ref -> board;
  fresh : ref;
  stack : list ref;
  debug : list string;
  TIME_LIMIT : Z;
  clock_reads : nat;
  stdout : list printed
}.

Definition set_objects (f : ref -> board) (w : world) : world :=
  mkWorld f (fresh w) (stack w) (debug w) (TIME_LIMIT w) (clock_reads w) (stdout w).
Definition set_fresh (n : ref) (w : world) : world :=
  mkWorld (objects w) n (stack w) (debug w) (TIME_LIMIT w) (clock_reads w) (stdout w).
Definition set_stack (s : list ref) (w : world) : world :=
  mkWorld (objects w) (fresh w) s (debug w) (TIME_LIMIT w) (clock_reads w) (stdout w).
Definition set_debug (d : list string) (w : world) : world :=
  mkWorld (objects w) (fresh w) (stack w) d (TIME_LIMIT w) (clock_reads w) (stdout w).
Definition set_TIME_LIMIT (t : Z) (w : world) : world :=
  mkWorld (objects w) (fresh w) (stack w) (debug w) t (clock_reads w) (stdout w).
Definition set_clock_reads (n : nat) (w : world) : world :=
  mkWorld (objects w) (fresh w) (stack w) (debug w) (TIME_LIMIT w) n (stdout w).
Definition set_stdout (o : list printed) (w : world) : world :=
  mkWorld (objects w) (fresh w) (stack w) (debug w) (TIME_LIMIT w) (clock_reads w) o.

Definition update (f : ref -> board) (r : ref) (b : board) : ref -> board :=
  fun r' => if Nat.eqb r' r then b else f r'.

(** ** Computations

    A call either returns a value, raises, or has not returned when the
    recursion budget of the embedding ran out. *)
Inductive run (A : Type) :=
| Returns (a : A) (w : world)
| Raises (e : exn) (w : world)
| OutOfFuel.
Arguments Returns {A} a w.
Arguments Raises {A} e w.
Arguments OutOfFuel {A}.

Definition M (A : Type) := world -> run A.

Definition ret {A} (a : A) : M A := fun w => Returns a w.

Definition bind {A B} (m : M A) (k : A -> M B) : M B :=
  fun w =>
    match m w with
    | Returns a w' => k a w'
    | Raises e w' => Raises e w'
    | OutOfFuel => OutOfFuel
    end.

Notation "x <- m ;; k" := (bind m (fun x => k))
  (at level 100, m at next level, right associativity).
Notation "' p <- m ;; k" := (bind m (fun x => match x with p => k end))
  (at level 100, p pattern, m at next level, right associativity).
Notation "m ;;; k" := (bind m (fun _ => k))
  (at level 100, right associativity).

(** *** Primitive effects *)

(** [board.copy()]: a new object with the same contents. *)
Definition board_copy (b : ref) : M ref :=
  fun w => Returns (fresh w)
             (set_fresh (S (fresh w))
                (set_objects (update (objects w) (fresh w) (objects w b)) w)).

(** [board.play_move_gomoku(move, color)]; its result is not used. *)
Definition board_play (b : ref) (move : point) (c : pycolor) : M unit :=
  fun w => Returns tt
             (set_objects (update (objects w) b
                             (play_move_gomoku (objects w b) move c)) w).

(** Reading the contents of an object, for the queries. *)
Definition board_read (b : ref) : M board :=
  fun w => Returns (objects w b) w.

Definition stack_append (r : ref) : M unit :=
  fun w => Returns tt (set_stack (stack w ++ [r]) w).

Definition stack_len : M nat :=
  fun w => Returns (List.length (stack w)) w.

(** [stack.pop()]: removes and returns the last element, or raises. *)
Definition stack_pop : M ref :=
  fun w =>
    match rev (stack w) with
    | [] => Raises IndexError w
    | top :: below => Returns top (set_stack (rev below) w)
    end.

Definition debug_append (s : string) : M unit :=
  fun w => Returns tt (set_debug (debug w ++ [s]) w).

Definition print (p : printed) : M unit :=
  fun w => Returns tt (set_stdout (stdout w ++ [p]) w).

(** [time.time()] *)
Definition time_now : M Q :=
  fun w => Returns (time_time (clock_reads w))
             (set_clock_reads (S (clock_reads w)) w).

Definition get_TIME_LIMIT : M Z :=
  fun w => Returns (TIME_LIMIT w) w.

(** ** The functions of the module *)

(** [def setGlobalTime(time)] *)
Definition setGlobalTime (time : Z) : M unit :=
  fun w => Returns tt (set_TIME_LIMIT time w).

(** [def save_board(board)] *)
Definition save_board (b : ref) : M unit :=
  c <- board_copy b ;;
  stack_append c ;;;
  debug_append "Stored board"%string.

(** [def undo()] *)
Definition undo : M ref :=
  debug_append "Undid board"%string ;;;
  n <- stack_len ;;
  (if Nat.eqb n 0 then print (PStr "Stack is empty!"%string) else ret tt) ;;;
  stack_pop.

(** The type of a prover node:
    [board, depth, color, alpha, beta -> (win, col, points)]. *)
Definition node := ref -> Z -> pycolor -> Z -> Z -> M verdict.

(** The [for move in moves] loop of [MinimaxBooleanOR], from a given
    iteration on; [AND] is the call it makes.  The loop variables are the
    locals the body assigns. *)
Fixpoint OR_for (AND : node) (depth : Z) (c : pycolor) (moves : list point)
    (b : ref) (is_win : bool) (best_points alpha beta : Z) : M verdict :=
  match moves with
  | [] => ret (is_win, c, best_points)
  | move :: rest =>
      save_board b ;;;
      board_play b move c ;;;
      ' (win, col, points) <- AND b (depth - 1) (opposite_color c) alpha beta ;;
      let flip := negb (pycolor_eqb col c) in
      let win := if flip then false else win in
      let points := if flip then - points else points in
      let is_win := if win then true else is_win in
      let best_points := if best_points <? points then points else best_points in
      b <- undo ;;
      let alpha := if alpha <=? best_points then best_points else alpha in
      OR_for AND depth c rest b is_win best_points alpha beta
  end.

(** The loop of [MinimaxBooleanAND]. *)
Fixpoint AND_for (OR : node) (depth : Z) (c : pycolor) (moves : list point)
    (b : ref) (worst_points alpha beta : Z) : M verdict :=
  match moves with
  | [] => ret (true, opposite_color c, worst_points)
  | move :: rest =>
      save_board b ;;;
      board_play b move c ;;;
      ' (win, col, points) <- OR b (depth - 1) (opposite_color c) alpha beta ;;
      let flip := negb (pycolor_eqb col (opposite_color c)) in
      let win := if flip then false else win in
      let points := if flip then - points else points in
      if negb win then
        _ <- undo ;;
        ret (false, opposite_color c, points)
      else
        let worst_points := if points <? worst_points then points else worst_points in
        b <- undo ;;
        let beta := if worst_points <=? beta then points else beta in
        AND_for OR depth c rest b worst_points alpha beta
  end.

(** The base case shared by the two nodes. *)
Definition base_case (b : ref) (moves : list point) : M verdict :=
  bd <- board_read b ;;
  match moves with
  | [] => ret (StatisticallyEvaluate bd (Some false))
  | _ :: _ => ret (StatisticallyEvaluate bd None)
  end.

Definition is_base (depth : Z) (moves : list point) : bool :=
  (depth =? 0) || Nat.eqb (List.length moves) 0.

(** [def MinimaxBooleanOR(board, depth, color, alpha, beta)] and
    [def MinimaxBooleanAND(board, depth, color, alpha, beta)].  The first
    argument bounds the nesting of calls. *)
Fixpoint MinimaxBooleanOR (fuel : nat) (b : ref) (depth : Z) (c : pycolor)
    (alpha beta : Z) {struct fuel} : M verdict :=
  match fuel with
  | O => fun _ => OutOfFuel
  | S fuel' =>
      bd <- board_read b ;;
      let moves := generate_legal_moves_gomoku bd in
      limit <- get_TIME_LIMIT ;;
      print (PInt limit) ;;;
      if is_base depth moves then base_case b moves
      else OR_for (MinimaxBooleanAND fuel') depth c moves b false 0 alpha beta
  end

with MinimaxBooleanAND (fuel : nat) (b : ref) (depth : Z) (c : pycolor)
    (alpha beta : Z) {struct fuel} : M verdict :=
  match fuel with
  | O => fun _ => OutOfFuel
  | S fuel' =>
      bd <- board_read b ;;
      let moves := generate_legal_moves_gomoku bd in
      if is_base depth moves then base_case b moves
      else AND_for (MinimaxBooleanOR fuel') depth c moves b 10000 alpha beta
  end.

Definition INFINITY : Z := 9223372036854775807.
Definition NINFINITY : Z := -9223372036854775807.

(** The loop of [Minimax]; the result is [(is_win, best_move)]. *)
Fixpoint Minimax_for (AND : node) (start_time : Q) (depth : Z) (c : pycolor)
    (moves : list point) (b : ref) (best_points : Z) (best_move : option point)
    (is_win : Z) (alpha beta : Z) : M (Z * option point) :=
  match moves with
  | [] => ret (is_win, best_move)
  | move :: rest =>
      now <- time_now ;;
      let time_elapsed := (now - start_time)%Q in
      limit <- get_TIME_LIMIT ;;
      if Qle_bool (inject_Z limit) time_elapsed then ret (4, None)
      else
        print (PFloat time_elapsed) ;;;
        save_board b ;;;
        board_play b move c ;;;
        ' (win, col, points) <- AND b (depth - 1) (opposite_color c) alpha beta ;;
        let better := win && (best_points <? points) in
        let is_win := if better then 2 else is_win in
        let best_move := if better then Some move else best_move in
        let best_points := if better then points else best_points in
        let alpha := if better then best_points else alpha in
        let draw := negb (is_win =? 2) && (points =? 0) in
        let is_win := if draw then 1 else is_win in
        let best_move := if draw then Some move else best_move in
        b <- undo ;;
        Minimax_for AND start_time depth c rest b best_points best_move
          is_win alpha beta
  end.

(** [def Minimax(board, depth, color)] *)
Definition Minimax (fuel : nat) (b : ref) (depth : Z) (c : pycolor)
  : M (Z * option point) :=
  start_time <- time_now ;;
  bd <- board_read b ;;
  let moves := generate_legal_moves_gomoku bd in
  let '(win, col) := check_game_end_gomoku bd in
  if win && pycolor_eqb col (opposite_color c) then ret (0, None)
  else
    Minimax_for (MinimaxBooleanAND fuel) start_time depth c moves b
      0 None 0 NINFINITY INFINITY.

(** [def minimax_solve(self, args)], up to the pair it gets from [Minimax];
    [self_board] is the object [self.board] refers to.  What follows in the
    source only renders the pair as a string. *)
Definition minimax_solve (fuel : nat) (self_board : ref) : M (Z * option point) :=
  let depth := 2 in
  arg <- board_copy self_board ;;
  bd <- board_read self_board ;;
  Minimax fuel arg depth (current_player bd).

End Search.

Arguments Returns {board A} a w.
Arguments Raises {board A} e w.
Arguments OutOfFuel {board A}.

(** ** Observations on a call *)

(** The value a call returned, if it returned. *)
Definition returned {board A} (r : @run board A) : option A :=
  match r with
  | Returns a _ => Some a
  | _ => None
  end.

(** [save_board] and [undo] each leave one entry in [debug]; the entries
    count the pushes and the pops on [stack]. *)
Definition pushes (d : list string) : nat :=
  count_occ string_dec d "Stored board"%string.
Definition pops (d : list string) : nat :=
  count_occ string_dec d "Undid board"%string.

(** [w'] is reached from [w] by as many pops as pushes, and with the stack
    as it was. *)
Definition balanced {board} (w w' : @world board) : Prop :=
  stack w' = stack w /\
  exists d, debug w' = debug w ++ d /\ pushes d = pops d.

(** A call that, if it returns, returns balanced, and that does not raise. *)
Definition keeps_balance {board A} (w : @world board) (r : @run board A) : Prop :=
  match r with
  | Returns _ w' => balanced w w'
  | Raises _ _ => False
  | OutOfFuel => True
  end.

(** ** The search as a function of the contents of the board

    What the calls compute when the stack discipline holds: every iteration
    of a loop starts from the contents the board had when the loop was
    entered, because [undo] hands back the copy [save_board] made.  These
    functions take the contents of a board, not an object; that the calls on
    objects compute them is proved below ([nodes_refine],
    [Minimax_refines]). *)

Section Values.

Context {board : Type} {GB : GoBoard board}.

(** A child's verdict as the parent reads it: unless the child reports the
    colour [expected], the win is dropped and the points change sign. *)
Definition seen_from (expected : pycolor) (v : verdict) : bool * Z :=
  let '(win, col, points) := v in
  if pycolor_eqb col expected then (win, points) else (false, - points).

Definition base_value (bd : board) (moves : list point) : verdict :=
  match moves with
  | [] => StatisticallyEvaluate bd (Some false)
  | _ :: _ => StatisticallyEvaluate bd None
  end.

Fixpoint OR_fold (child : point -> option verdict) (c : pycolor)
    (moves : list point) (is_win : bool) (best_points : Z) : option verdict :=
  match moves with
  | [] => Some (is_win, c, best_points)
  | move :: rest =>
      match child move with
      | None => None
      | Some v =>
          let '(win, points) := seen_from c v in
          OR_fold child c rest (if win then true else is_win)
            (if best_points <? points then points else best_points)
      end
  end.

Fixpoint AND_fold (child : point -> option verdict) (c : pycolor)
    (moves : list point) (worst_points : Z) : option verdict :=
  match moves with
  | [] => Some (true, opposite_color c, worst_points)
  | move :: rest =>
      match child move with
      | None => None
      | Some v =>
          let '(win, points) := seen_from (opposite_color c) v in
          if negb win then Some (false, opposite_color c, points)
          else AND_fold child c rest
                 (if points <? worst_points then points else worst_points)
      end
  end.

Fixpoint OR_value (fuel : nat) (bd : board) (depth : Z) (c : pycolor)
    {struct fuel} : option verdict :=
  match fuel with
  | O => None
  | S fuel' =>
      let moves := generate_legal_moves_gomoku bd in
      if is_base depth moves then Some (base_value bd moves)
      else OR_fold
             (fun move => AND_value fuel' (play_move_gomoku bd move c)
                            (depth - 1) (opposite_color c))
             c moves false 0
  end

with AND_value (fuel : nat) (bd : board) (depth : Z) (c : pycolor)
    {struct fuel} : option verdict :=
  match fuel with
  | O => None
  | S fuel' =>
      let moves := generate_legal_moves_gomoku bd in
      if is_base depth moves then Some (base_value bd moves)
      else AND_fold
             (fun move => OR_value fuel' (play_move_gomoku bd move c)
                            (depth - 1) (opposite_color c))
             c moves 10000
  end.

(** What the OR node at [bd] makes of the child reached by [move], and what
    the AND node does: the child's verdict after the test on its colour. *)
Definition OR_child (fuel : nat) (bd : board) (depth : Z) (c : pycolor)
    (move : point) : option (bool * Z) :=
  option_map (seen_from c)
    (AND_value fuel (play_move_gomoku bd move c) (depth - 1) (opposite_color c)).

Definition AND_child (fuel : nat) (bd : board) (depth : Z) (c : pycolor)
    (move : point) : option (bool * Z) :=
  option_map (seen_from (opposite_color c))
    (OR_value fuel (play_move_gomoku bd move c) (depth - 1) (opposite_color c)).

(** The loop of [Minimax] when no time check stops it. *)
Fixpoint Minimax_fold (child : point -> option verdict) (moves : list point)
    (best_points : Z) (best_move : option point) (is_win : Z)
  : option (Z * option point) :=
  match moves with
  | [] => Some (is_win, best_move)
  | move :: rest =>
      match child move with
      | None => None
      | Some (win, _, points) =>
          let better := win && (best_points <? points) in
          let is_win := if better then 2 else is_win in
          let best_move := if better then Some move else best_move in
          let best_points := if better then points else best_points in
          let draw := negb (is_win =? 2) && (points =? 0) in
          Minimax_fold child rest best_points
            (if draw then Some move else best_move)
            (if draw then 1 else is_win)
      end
  end.

(** The verdict of the candidate [move] of the driver. *)
Definition candidate (fuel : nat) (bd : board) (depth : Z) (c : pycolor)
    (move : point) : option verdict :=
  AND_value fuel (play_move_gomoku bd move c) (depth - 1) (opposite_color c).

(** The special case at the head of [Minimax]: the game has ended and the
    winner is the opposite colour. *)
Definition decided_for_opponent (bd : board) (c : pycolor) : bool :=
  let '(win, col) := check_game_end_gomoku bd in
  win && pycolor_eqb col (opposite_color c).

Definition Minimax_value (fuel : nat) (bd : board) (depth : Z) (c : pycolor)
  : option (Z * option point) :=
  let moves := generate_legal_moves_gomoku bd in
  if decided_for_opponent bd c then Some (0, None)
  else Minimax_fold (candidate fuel bd depth c) moves 0 None 0.

(** What a call on the object [b] may change: objects that existed before
    the call, other than [b], keep their contents, and the stack is as it
    was. *)
Definition frame (b : ref) (w w' : @world board) : Prop :=
  stack w' = stack w /\
  (fresh w <= fresh w')%nat /\
  (forall r, (r < fresh w)%nat -> r <> b -> objects w' r = objects w r) /\
  TIME_LIMIT w' = TIME_LIMIT w.

(** A node on objects computes [fv] on contents. *)
Definition refines (f : node) (fv : board -> Z -> pycolor -> option verdict)
  : Prop :=
  forall b depth c alpha beta (w : @world board), (b < fresh w)%nat ->
    match fv (objects w b) depth c with
    | Some v => exists w', f b depth c alpha beta w = Returns v w' /\ frame b w w'
    | None => f b depth c alpha beta w = OutOfFuel
    end.

End Values.

(** ** A scripted board

    A stand-in for the board class in examples: a position is given with
    what the queries answer on it and with the position each legal move
    leads to.  A move that is not legal leaves the position as it is. *)

#[local] Set Warnings "-register-all".
Inductive script :=
| Position (ended : bool * pycolor) (to_move : pycolor)
           (no_moves_verdict default_verdict : verdict)
           (replies : list (point * script)).

Fixpoint reply_to (move : point) (replies : list (point * script))
    (otherwise : script) : script :=
  match replies with
  | [] => otherwise
  | (m, s) :: rest => if move =? m then s else reply_to move rest otherwise
  end.

#[export] Instance script_board : GoBoard script := {
  generate_legal_moves_gomoku s :=
    match s with Position _ _ _ _ replies => map fst replies end;
  check_game_end_gomoku s :=
    match s with Position ended _ _ _ _ => ended end;
  play_move_gomoku s move _ :=
    match s with Position _ _ _ _ replies => reply_to move replies s end;
  StatisticallyEvaluate s arg :=
    match s, arg with
    | Position _ _ v _ _, Some false => v
    | Position _ _ _ v _, _ => v
    end;
  current_player s :=
    match s with Position _ p _ _ _ => p end
}.

(** A process in which [self.board] is object [0], nothing has been pushed,
    printed or timed yet, and the time limit is [limit]. *)
Definition started (bd : script) (limit : Z) : @world script :=
  mkWorld (fun _ => bd) 1%nat [] [] limit 0%nat [].

(** A full board, scored as a draw. *)
Definition full_board : script :=
  Position (false, None) (Some BLACK)
    (false, Some BLACK, 0) (false, Some BLACK, 0) [].

(** Two empty points, 11 and 12, are left; filling both gives the full
    board. *)
Definition two_left : script :=
  Position (false, None) (Some BLACK)
    (false, Some BLACK, 3) (false, Some BLACK, 3)
    [ (11, Position (false, None) (Some WHITE)
             (false, Some BLACK, 2) (false, Some BLACK, 2) [(12, full_board)]);
      (12, Position (false, None) (Some WHITE)
             (false, Some BLACK, 2) (false, Some BLACK, 2) [(11, full_board)]) ].

(** One empty point, 5, is left, and the side that fills it is scored as
    the winner with 20000 points. *)
Definition last_point_wins : script :=
  Position (false, None) (Some WHITE)
    (false, Some BLACK, 0) (false, Some BLACK, 0)
    [ (5, Position (true, Some BLACK) (Some BLACK)
            (true, Some BLACK, 20000) (true, Some BLACK, 20000) []) ].

(** A position in which WHITE has already won. *)
Definition white_has_won : script :=
  Position (true, Some WHITE) (Some BLACK)
    (false, Some WHITE, 0) (false, Some WHITE, 0) [(7, full_board)].

(** A clock that stands still, and one that jumps by five seconds after
    its fourth reading. *)
Definition still_clock : nat -> Q := fun _ => 0%Q.
Definition late_clock : nat -> Q := fun n => if (n <=? 3)%nat then 0%Q else 5%Q.

(** Two moves, 3 and 4, each answered by a position that is scored 5 for
    WHITE. *)
Definition scored_for_white : script :=
  Position (false, None) (Some WHITE)
    (false, Some WHITE, 5) (false, Some WHITE, 5) [(9, full_board)].

Definition threatened : script :=
  Position (false, None) (Some BLACK)
    (false, Some BLACK, 0) (false, Some BLACK, 0)
    [(3, scored_for_white); (4, scored_for_white)].

(** BLACK's only move, 1, is answered by WHITE's only move, 2, which
    leads to [threatened]. *)
Definition two_moves_before : script :=
  Position (false, None) (Some BLACK)
    (false, Some BLACK, 0) (false, Some BLACK, 0)
    [(1, Position (false, None) (Some WHITE)
           (false, Some BLACK, 0) (false, Some BLACK, 0) [(2, threatened)])].

(** BLACK's move 1 ends the game with a win scored 7; its move 2 is
    answered by WHITE's only move, 3, which leads to [threatened]. *)
Definition win_before_threat : script :=
  Position (false, None) (Some BLACK)
    (false, Some BLACK, 0) (false, Some BLACK, 0)
    [(1, Position (true, Some BLACK) (Some WHITE)
           (true, Some BLACK, 7) (true, Some BLACK, 7) []);
     (2, Position (false, None) (Some WHITE)
           (false, Some BLACK, 0) (false, Some BLACK, 0) [(3, threatened)])].

(** Two moves, 3 and 4, each answered by a position that is scored as a win
    for BLACK with -5 points; and a position without moves scored as a win
    for BLACK with -7 points. *)
Definition hollow_win : script :=
  Position (false, None) (Some WHITE)
    (true, Some BLACK, -5) (true, Some BLACK, -5) [(9, full_board)].

Definition hollow_threat : script :=
  Position (false, None) (Some BLACK)
    (false, Some BLACK, 0) (false, Some BLACK, 0)
    [(3, hollow_win); (4, hollow_win)].

Definition hollow_end : script :=
  Position (false, None) (Some BLACK)
    (true, Some BLACK, -7) (true, Some BLACK, -7) [].

(** BLACK's only move, 1, is answered by WHITE's moves 2, which leads to
    [hollow_threat], and 3, which leads to [hollow_end]. *)
Definition before_hollow_threat : script :=
  Position (false, None) (Some BLACK)
    (false, Some BLACK, 0) (false, Some BLACK, 0)
    [(1, Position (false, None) (Some WHITE)
           (false, Some BLACK, 0) (false, Some BLACK, 0)
           [(2, hollow_threat); (3, hollow_end)])].

(** The state a call left, or [w] if it left none. *)
Definition state_after {board A} (r : @run board A) (w : @world board)
  : @world board :=
  match r with
  | Returns _ w' => w'
  | Raises _ w' => w'
  | OutOfFuel => w
  end.

(** Whether a call raised, and what. *)
Definition raised {board A} (r : @run board A) : option exn :=
  match r with
  | Raises e _ => Some e
  | _ => None
  end.

(** ** The steps of an iteration and the properties of a node *)

Section Steps.

Context {board : Type} {GB : GoBoard board}.

Local Abbreviation world := (@world board).

(** The state after [save_board(board)]. *)
Definition saved (b : ref) (w : world) : world :=
  mkWorld (update (objects w) (fresh w) (objects w b)) (S (fresh w))
    (stack w ++ [fresh w]) (debug w ++ ["Stored board"%string])
    (TIME_LIMIT w) (clock_reads w) (stdout w).

(** The state after [board.play_move_gomoku(move, color)]. *)
Definition played (b : ref) (move : point) (c : pycolor) (w : world) : world :=
  set_objects (update (objects w) b (play_move_gomoku (objects w b) move c)) w.

(** The state after an [undo()] that found [s ++ [r]] on the stack. *)
Definition undone (s : list ref) (w : world) : world :=
  mkWorld (objects w) (fresh w) s (debug w ++ ["Undid board"%string])
    (TIME_LIMIT w) (clock_reads w) (stdout w).

(** A node that keeps the balance wherever it is called. *)
Definition balanced_node (f : node) : Prop :=
  forall b depth c alpha beta (w : world),
    keeps_balance w (f b depth c alpha beta w).

(** A node that returns wherever it is called with the depth [depth]. *)
Definition returns_at (f : node) (depth : Z) : Prop :=
  forall b c alpha beta (w : world),
    exists v w', f b depth c alpha beta w = Returns v w'.

End Steps.

(** ** Further notions for the search *)

Section Notions.

Context {board : Type} {GB : GoBoard board}.

Local Abbreviation world := (@world board).

(** What [Minimax] has recorded, or returns short of a time-out: either
    nothing, code [0] and no move; or a draw or a win, code [1] or [2], with
    one of the moves [moves]. *)
Definition recorded (moves : list point) (is_win : Z)
    (best_move : option point) : Prop :=
  (is_win = 0 /\ best_move = None) \/
  ((is_win = 1 \/ is_win = 2) /\ exists m, best_move = Some m /\ In m moves).

(** The clock has not been read and the time limit not changed. *)
Definition untimed (w w' : world) : Prop :=
  clock_reads w' = clock_reads w /\ TIME_LIMIT w' = TIME_LIMIT w.

(** A node that, when it returns, has not read the clock nor changed the
    time limit. *)
Definition untimed_node (f : node) : Prop :=
  forall b depth c alpha beta (w w' : world) v,
    f b depth c alpha beta w = Returns v w' -> untimed w w'.

(** The contents a node leaves in the object it was called on: the first
    legal move is played on the object itself, and so on down the first
    line of play; the later moves are played on copies. *)
Fixpoint OR_line (fuel : nat) (bd : board) (depth : Z) (c : pycolor)
    {struct fuel} : board :=
  match fuel with
  | O => bd
  | S fuel' =>
      let moves := generate_legal_moves_gomoku bd in
      if is_base depth moves then bd
      else match moves with
           | [] => bd
           | move :: _ =>
               AND_line fuel' (play_move_gomoku bd move c) (depth - 1)
                 (opposite_color c)
           end
  end

with AND_line (fuel : nat) (bd : board) (depth : Z) (c : pycolor)
    {struct fuel} : board :=
  match fuel with
  | O => bd
  | S fuel' =>
      let moves := generate_legal_moves_gomoku bd in
      if is_base depth moves then bd
      else match moves with
           | [] => bd
           | move :: _ =>
               OR_line fuel' (play_move_gomoku bd move c) (depth - 1)
                 (opposite_color c)
           end
  end.

End Notions.

(** ** Points, coordinates and colours of the text protocol

    The functions [point_to_coord], [format_point], [move_to_coord],
    [color_to_int] and [int_to_color], and the part of [minimax_solve] that
    words the answer.  Text is taken to be ASCII.  [MAXSIZE] and [PASS] come
    from [board_util] and are parameters here. *)

(** A value that is an [int] or [None]. *)
Inductive pyvalue := PyNone | PyInt (z : Z).

Definition pyvalue_eqb (a b : pyvalue) : bool :=
  match a, b with
  | PyNone, PyNone => true
  | PyInt x, PyInt y => x =? y
  | _, _ => false
  end.

(** The value a function returns for a coordinate: [PASS] or a pair
    [(row, col)]. *)
Inductive coord := Pass | RowCol (row col : Z).

Module Py.

(** The exceptions these functions end with. *)
Inductive error :=
| ValueError (message : string)
| KeyError
| IndexError
| ZeroDivisionError
| TypeError
| NameError.

Inductive result (A : Type) :=
| Ok (a : A)
| Raise (e : error).
Arguments Ok {A} a.
Arguments Raise {A} e.

Definition and_then {A B} (r : result A) (k : A -> result B) : result B :=
  match r with
  | Ok a => k a
  | Raise e => Raise e
  end.

End Py.

(** [ord(c)] *)
Definition ord (c : ascii) : Z := Z.of_N (N_of_ascii c).

(** [str(n)] for an [int]. *)
Definition str (n : Z) : string := NilZero.string_of_int (Z.to_int n).

(** [s.lower()] *)
Definition lower_char (c : ascii) : ascii :=
  if (("A" <=? c) && (c <=? "Z"))%char
  then ascii_of_N (N_of_ascii c + 32)
  else c.

Fixpoint lower (s : string) : string :=
  match s with
  | EmptyString => EmptyString
  | String c rest => String (lower_char c) (lower rest)
  end.

(** [s[i]], with Python's negative indices. *)
Definition index (s : string) (i : Z) : option ascii :=
  let n := Z.of_nat (String.length s) in
  if (0 <=? i) && (i <? n) then String.get (Z.to_nat i) s
  else if (- n <=? i) && (i <? 0) then String.get (Z.to_nat (i + n)) s
  else None.

(** [int(s)]: blanks around the number are dropped, a sign may come first,
    and single underscores may stand between digits. *)
Definition is_space (c : ascii) : bool :=
  let n := N_of_ascii c in
  (((9 <=? n) && (n <=? 13)) || ((28 <=? n) && (n <=? 32)))%N.

Definition is_digit (c : ascii) : bool := (("0" <=? c) && (c <=? "9"))%char.

Fixpoint lstrip (s : string) : string :=
  match s with
  | EmptyString => EmptyString
  | String c rest => if is_space c then lstrip rest else s
  end.

Fixpoint rstrip (s : string) : string :=
  match s with
  | EmptyString => EmptyString
  | String c rest =>
      match rstrip rest with
      | EmptyString => if is_space c then EmptyString else String c EmptyString
      | kept => String c kept
      end
  end.

(** Digits, with an underscore only between two digits; [after_digit] says
    whether the character before was a digit. *)
Fixpoint grouped_digits (s : string) (after_digit : bool) : bool :=
  match s with
  | EmptyString => after_digit
  | String c rest =>
      if is_digit c then grouped_digits rest true
      else if (c =? "_")%char then after_digit && grouped_digits rest false
      else false
  end.

Fixpoint without_underscores (s : string) : string :=
  match s with
  | EmptyString => EmptyString
  | String c rest =>
      if (c =? "_")%char then without_underscores rest
      else String c (without_underscores rest)
  end.

Definition int_of_digits (s : string) : option Z :=
  if grouped_digits s false
  then option_map Z.of_uint (NilEmpty.uint_of_string (without_underscores s))
  else None.

Definition int (s : string) : option Z :=
  match rstrip (lstrip s) with
  | EmptyString => None
  | String c digits =>
      if (c =? "+")%char then int_of_digits digits
      else if (c =? "-")%char then option_map Z.opp (int_of_digits digits)
      else int_of_digits (String c digits)
  end.

(** A string of decimal digits. *)
Fixpoint digits_only (s : string) : bool :=
  match s with
  | EmptyString => true
  | String c rest => is_digit c && digits_only rest
  end.

(** The letter of a column: A to H for 1 to 8, J to Z for 9 to 25, and Z
    for 0. *)
Definition column_letter (col : Z) : ascii :=
  if col =? 0 then "Z"%char
  else if col <=? 8 then ascii_of_N (Z.to_N (64 + col))
  else ascii_of_N (Z.to_N (65 + col)).

(** [def color_to_int(c)] and [def int_to_color(n)]: a key that is not in
    the dictionary is a [KeyError]. *)
Definition color_to_int (c : string) : Py.result color :=
  if (c =? "b")%string then Py.Ok BLACK
  else if (c =? "w")%string then Py.Ok WHITE
  else if (c =? "e")%string then Py.Ok EMPTY
  else if (c =? "BORDER")%string then Py.Ok BORDER
  else Py.Raise Py.KeyError.

Definition int_to_color (n : pycolor) : Py.result string :=
  match n with
  | Some BLACK => Py.Ok "b"%string
  | Some WHITE => Py.Ok "w"%string
  | Some EMPTY => Py.Ok "e"%string
  | Some BORDER => Py.Ok "BORDER"%string
  | None => Py.Raise Py.KeyError
  end.

Definition column_letters : string := "ABCDEFGHJKLMNOPQRSTUVWXYZ".

(** The double quote, as a string. *)
Definition quote : string := String (ascii_of_nat 34) EmptyString.

Section Protocol.

Variable MAXSIZE : Z.
Variable PASS : pyvalue.

(** [def point_to_coord(point, boardsize)] *)
Definition point_to_coord (point : pyvalue) (boardsize : Z) : Py.result coord :=
  if pyvalue_eqb point PASS then Py.Ok Pass
  else
    let NS := boardsize + 1 in
    match point with
    | PyNone => Py.Raise Py.TypeError
    | PyInt p =>
        if NS =? 0 then Py.Raise Py.ZeroDivisionError
        else Py.Ok (RowCol (p / NS) (p mod NS))
    end.

(** [def format_point(move)] *)
Definition format_point (move : coord) : Py.result string :=
  match move with
  | Pass => Py.Ok "pass"%string
  | RowCol row col =>
      if negb ((0 <=? row) && (row <? MAXSIZE))
         || negb ((0 <=? col) && (col <? MAXSIZE))
      then Py.Raise (Py.ValueError "")
      else match index column_letters (col - 1) with
           | None => Py.Raise Py.IndexError
           | Some letter => Py.Ok (String letter (str row))
           end
  end.

(** [def move_to_coord(point_str, board_size)].  Whatever goes wrong in
    the [try] block ends in the same [ValueError]. *)
Definition move_to_coord (point_str : string) (board_size : Z)
  : Py.result coord :=
  if negb ((2 <=? board_size) && (board_size <=? MAXSIZE))
  then Py.Raise (Py.ValueError "board_size out of range")
  else
    let s := lower point_str in
    if (s =? "pass")%string then Py.Ok Pass
    else
      let wrong :=
        Py.Raise (Py.ValueError
                    ("illegal move: " ++ quote ++ s ++ quote
                     ++ " wrong coordinate")%string) in
      match s with
      | EmptyString => wrong
      | String col_c digits =>
          if (negb (("a" <=? col_c) && (col_c <=? "z")) || (col_c =? "i"))%char
          then wrong
          else
            let col := ord col_c - ord "a" in
            let col := if (col_c <? "i")%char then col + 1 else col in
            match int digits with
            | None => wrong
            | Some row =>
                if row <? 1 then wrong
                else if negb ((col <=? board_size) && (row <=? board_size))
                     then wrong
                     else Py.Ok (RowCol row col)
            end
      end.

(** The answer of [minimax_solve], from the pair [(win, move)] it got from
    [Minimax], [self.board.current_player] and [self.board.size]. *)
Definition solve_answer (current_player : pycolor) (size : Z)
    (r : Z * option point) : Py.result string :=
  let '(win, move) := r in
  let move_value := match move with Some m => PyInt m | None => PyNone end in
  if win =? 4 then Py.Ok "unknown"%string
  else if win =? 2 then
    match move with
    | None => Py.Raise Py.NameError
    | Some _ =>
        Py.and_then (point_to_coord move_value size) (fun move_coord =>
        Py.and_then (format_point move_coord) (fun move_as_string =>
        Py.and_then (int_to_color current_player) (fun letter =>
        Py.Ok (letter ++ " " ++ move_as_string)%string)))
    end
  else if win =? 1 then
    Py.and_then (point_to_coord move_value size) (fun move_coord =>
    Py.and_then (format_point move_coord) (fun move_as_string =>
    Py.Ok ("draw " ++ move_as_string)%string))
  else int_to_color (opposite_color current_player).

(** The points of a board of the given size that are not [PASS]: row and
    column, by the row length [size + 1], are between 1 and the size. *)
Definition on_board (size : Z) (m : point) : Prop :=
  PyInt m <> PASS /\
  1 <= m / (size + 1) <= size /\ 1 <= m mod (size + 1) <= size.

(** What the answer to [(code, move)] can be: the word unknown for the
    time-out code, the letter of the other colour for code 0, and for the
    codes 2 and 1 the letter of the colour or the word draw, followed by a
    text that [move_to_coord] reads as the coordinate of the move. *)
Definition answers (cp : pycolor) (size : Z) (moves : list point)
    (answer : string) : Prop :=
  answer = "unknown"%string \/
  int_to_color (opposite_color cp) = Py.Ok answer \/
  exists m text letter,
    In m moves /\ int_to_color cp = Py.Ok letter /\
    (answer = (letter ++ " " ++ text)%string \/
     answer = ("draw " ++ text)%string) /\
    move_to_coord text size = point_to_coord (PyInt m) size.

End Protocol.

(** [minimax_solve] with its answer; [board_size] reads [self.board.size]. *)
Definition minimax_solve_answer {board : Type} {GB : GoBoard board}
    (time_time : nat -> Q) (MAXSIZE : Z) (PASS : pyvalue)
    (board_size : board -> Z) (fuel : nat) (self_board : ref)
  : M (Py.result string) :=
  bind (minimax_solve time_time fuel self_board) (fun r =>
  bind (board_read self_board) (fun bd =>
  ret (solve_answer MAXSIZE PASS (current_player bd) (board_size bd) r))).

(** ** The move generation command *)

Section Commands.

Context {board : Type} {GB : GoBoard board}.

Variable time_time : nat -> Q.
Variable MAXSIZE : Z.
Variable PASS : pyvalue.

(** [self.board.size] and [self.board.is_legal_gomoku(move, color)], which
    the board class gives. *)
Variable board_size : board -> Z.
Variable is_legal_gomoku : board -> point -> color -> bool.

(** [def genmove_cmd(self, args)], by what it answers with [respond] or the
    exception it ends with.  [letter] is [args[0]], and [engine_move] is
    what [self.go_engine.get_move(self.board, color)] returns if it is
    called. *)
Definition genmove_cmd (letter : string) (engine_move : pyvalue) (fuel : nat)
    (self_board : ref) : M (Py.result string) :=
  let board_color := lower letter in
  match color_to_int board_color with
  | Py.Raise e => ret (Py.Raise e)
  | Py.Ok color =>
      bind (board_read self_board) (fun bd =>
      let '(game_end, winner) := check_game_end_gomoku bd in
      if game_end then
        if pycolor_eqb winner (Some color) then ret (Py.Ok "pass"%string)
        else ret (Py.Ok "resign"%string)
      else
        bind (board_copy self_board) (fun copy =>
        bind (Minimax time_time fuel copy 2 (Some color)) (fun r =>
        let '(is_win, found) := r in
        let move :=
          if is_win =? 0 then engine_move
          else match found with Some m => PyInt m | None => PyNone end in
        if pyvalue_eqb move PASS then ret (Py.Ok "pass"%string)
        else
          bind (board_read self_board) (fun bd =>
          match point_to_coord PASS move (board_size bd) with
          | Py.Raise e => ret (Py.Raise e)
          | Py.Ok move_coord =>
              match format_point MAXSIZE move_coord with
              | Py.Raise e => ret (Py.Raise e)
              | Py.Ok move_as_string =>
                  match move with
                  | PyNone =>
                      (* not reached: for [None] that is not [PASS],
                         [point_to_coord] has raised *)
                      ret (Py.Raise Py.TypeError)
                  | PyInt m =>
                      if is_legal_gomoku bd m color then
                        bind (board_play self_board m (Some color)) (fun _ =>
                        ret (Py.Ok move_as_string))
                      else
                        ret (Py.Ok ("illegal move: " ++ move_as_string)%string)
                  end
              end
          end))))
  end.

End Commands.

(** * Proofs *)

(** Closed facts are settled by evaluation. *)
Ltac evaluate :=
  repeat lazymatch goal with
         | |- _ /\ _ => split
         end;
  vm_compute; reflexivity.


Section Balance.

Context {board : Type} {GB : GoBoard board}.
Variable time_time : nat -> Q.

Local Abbreviation world := (@world board).

Lemma balanced_refl (w : world) : balanced w w.
Proof.
  split; [reflexivity|]. exists []. rewrite app_nil_r. now split.
Qed.

Lemma pushes_app d1 d2 : pushes (d1 ++ d2) = (pushes d1 + pushes d2)%nat.
Proof. apply count_occ_app. Qed.

Lemma pops_app d1 d2 : pops (d1 ++ d2) = (pops d1 + pops d2)%nat.
Proof. apply count_occ_app. Qed.

Lemma balanced_trans (w1 w2 w3 : world) :
  balanced w1 w2 -> balanced w2 w3 -> balanced w1 w3.
Proof.
  intros [S12 [d [D12 C12]]] [S23 [e [D23 C23]]]. split.
  - congruence.
  - exists (d ++ e). split.
    + rewrite D23, D12. now rewrite app_assoc.
    + rewrite pushes_app, pops_app. lia.
Qed.

Lemma save_board_run b (w : world) : save_board b w = Returns tt (saved b w).
Proof. reflexivity. Qed.

Lemma board_play_run b m c (w : world) :
  board_play b m c w = Returns tt (played b m c w).
Proof. reflexivity. Qed.

Lemma board_read_run b (w : world) : board_read b w = Returns (objects w b) w.
Proof. reflexivity. Qed.

Lemma get_TIME_LIMIT_run (w : world) : get_TIME_LIMIT w = Returns (TIME_LIMIT w) w.
Proof. reflexivity. Qed.

Lemma print_run p (w : world) :
  print p w = Returns tt (set_stdout (stdout w ++ [p]) w).
Proof. reflexivity. Qed.

Lemma undo_run (w : world) s r :
  stack w = s ++ [r] -> undo w = Returns r (undone s w).
Proof.
  intros E. unfold undo, bind, debug_append, stack_len, stack_pop. simpl.
  rewrite E, length_app. simpl.
  replace (Nat.eqb (List.length s + 1) 0) with false
    by (symmetry; apply Nat.eqb_neq; lia).
  simpl. rewrite E, rev_app_distr. simpl. now rewrite rev_involutive.
Qed.

Lemma undo_run_empty (w : world) :
  stack w = [] ->
  undo w = Raises IndexError
             (set_stdout (stdout w ++ [PStr "Stack is empty!"%string])
                (set_debug (debug w ++ ["Undid board"%string]) w)).
Proof.
  intros E. unfold undo, bind, debug_append, stack_len, stack_pop. simpl.
  rewrite E. simpl. rewrite E. reflexivity.
Qed.

(** One iteration, seen from the stack: what [undo] finds after a balanced
    call made on the saved and played board. *)
Lemma undo_after_call b m c (w w3 : world) :
  balanced (played b m c (saved b w)) w3 ->
  undo w3 = Returns (fresh w) (undone (stack w) w3) /\
  balanced w (undone (stack w) w3).
Proof.
  intros [S3 [d [D3 C3]]]. simpl in S3, D3. split.
  - now apply undo_run.
  - split; [reflexivity|]. simpl.
    exists (["Stored board"%string] ++ d ++ ["Undid board"%string]). split.
    + rewrite D3. now rewrite <- !app_assoc.
    + rewrite !pushes_app, !pops_app. cbn. lia.
Qed.

(** Sequencing, one step at a time. *)
Lemma bind_run {A B} (m : M A) (k : A -> M B) (w w' : world) a :
  m w = Returns a w' -> bind m k w = k a w'.
Proof. intros E. unfold bind. now rewrite E. Qed.

Lemma bind_fuel {A B} (m : M A) (k : A -> M B) (w : world) :
  m w = OutOfFuel -> bind m k w = OutOfFuel.
Proof. intros E. unfold bind. now rewrite E. Qed.

Lemma balanced_same (w w' : world) :
  stack w' = stack w -> debug w' = debug w -> balanced w w'.
Proof.
  intros Hs Hd. split; [assumption|]. exists []. rewrite app_nil_r. now split.
Qed.

Lemma keeps_balance_from {A} (w w1 : world) (r : run A) :
  balanced w w1 -> keeps_balance w1 r -> keeps_balance w r.
Proof.
  intros B. destruct r; simpl; trivial. intros B1.
  eapply balanced_trans; eassumption.
Qed.

Lemma OR_for_balanced (AND : node) :
  balanced_node AND ->
  forall moves depth c b is_win best_points alpha beta (w : world),
    keeps_balance w (OR_for AND depth c moves b is_win best_points alpha beta w).
Proof.
  intros HA. induction moves as [|move rest IH]; intros; cbn [OR_for].
  - apply balanced_refl.
  - rewrite (bind_run _ _ _ _ _ (save_board_run b w)).
    rewrite (bind_run _ _ _ _ _ (board_play_run b move c _)).
    pose proof (HA b (depth - 1) (opposite_color c) alpha beta
                  (played b move c (saved b w))) as HB.
    destruct (AND b (depth - 1) (opposite_color c) alpha beta
                (played b move c (saved b w))) as [[[win col] points] w3| |] eqn:E;
      simpl in HB.
    + rewrite (bind_run _ _ _ _ _ E).
      destruct (undo_after_call _ _ _ _ _ HB) as [U B].
      rewrite (bind_run _ _ _ _ _ U).
      eapply keeps_balance_from; [exact B|]. apply IH.
    + contradiction.
    + now rewrite (bind_fuel _ _ _ E).
Qed.

Lemma AND_for_balanced (OR : node) :
  balanced_node OR ->
  forall moves depth c b worst_points alpha beta (w : world),
    keeps_balance w (AND_for OR depth c moves b worst_points alpha beta w).
Proof.
  intros HO. induction moves as [|move rest IH]; intros; cbn [AND_for].
  - apply balanced_refl.
  - rewrite (bind_run _ _ _ _ _ (save_board_run b w)).
    rewrite (bind_run _ _ _ _ _ (board_play_run b move c _)).
    pose proof (HO b (depth - 1) (opposite_color c) alpha beta
                  (played b move c (saved b w))) as HB.
    destruct (OR b (depth - 1) (opposite_color c) alpha beta
                (played b move c (saved b w))) as [[[win col] points] w3| |] eqn:E;
      simpl in HB.
    + rewrite (bind_run _ _ _ _ _ E).
      destruct (undo_after_call _ _ _ _ _ HB) as [U B].
      match goal with |- context [if ?t then _ else _] => destruct t end.
      * rewrite (bind_run _ _ _ _ _ U). exact B.
      * rewrite (bind_run _ _ _ _ _ U).
        eapply keeps_balance_from; [exact B|]. apply IH.
    + contradiction.
    + now rewrite (bind_fuel _ _ _ E).
Qed.

Lemma base_case_balanced b moves (w w0 : world) :
  balanced w0 w -> keeps_balance w0 (base_case b moves w).
Proof. intros B. destruct moves; exact B. Qed.

Lemma nodes_balanced fuel :
  balanced_node (MinimaxBooleanOR fuel) /\ balanced_node (MinimaxBooleanAND fuel).
Proof.
  induction fuel as [|fuel [IHO IHA]].
  - split; intros b depth c alpha beta w; exact I.
  - split; intros b depth c alpha beta w.
    + cbn [MinimaxBooleanOR]. unfold bind at 1 2 3. cbn [board_read get_TIME_LIMIT print].
      destruct (is_base depth _).
      * apply base_case_balanced. now apply balanced_same.
      * eapply keeps_balance_from; [|apply OR_for_balanced, IHA].
        now apply balanced_same.
    + cbn [MinimaxBooleanAND]. unfold bind at 1. cbn [board_read].
      destruct (is_base depth _).
      * apply base_case_balanced, balanced_refl.
      * apply AND_for_balanced, IHO.
Qed.

Lemma time_now_run (w : world) :
  time_now time_time w
  = Returns (time_time (clock_reads w)) (set_clock_reads (S (clock_reads w)) w).
Proof. reflexivity. Qed.

Lemma Minimax_for_balanced (AND : node) :
  balanced_node AND ->
  forall moves start_time depth c b best_points best_move is_win alpha beta
         (w : world),
    keeps_balance w
      (Minimax_for time_time AND start_time depth c moves b best_points
         best_move is_win alpha beta w).
Proof.
  intros HA. induction moves as [|move rest IH]; intros; cbn [Minimax_for].
  - apply balanced_refl.
  - unfold bind at 1 2. cbn [time_now get_TIME_LIMIT TIME_LIMIT set_clock_reads].
    set (w1 := set_clock_reads _ w).
    assert (B1 : balanced w w1) by now apply balanced_same.
    destruct (Qle_bool _ _).
    + exact B1.
    + unfold bind at 1. cbn [print]. set (w2 := set_stdout _ w1).
      assert (B2 : balanced w w2) by now apply balanced_same.
      eapply keeps_balance_from; [exact B2|]. clearbody w2. clear B1 B2 w1.
      rewrite (bind_run _ _ _ _ _ (save_board_run b w2)).
      rewrite (bind_run _ _ _ _ _ (board_play_run b move c _)).
      pose proof (HA b (depth - 1) (opposite_color c) alpha beta
                    (played b move c (saved b w2))) as HB.
      destruct (AND b (depth - 1) (opposite_color c) alpha beta
                  (played b move c (saved b w2))) as [[[win col] points] w3| |] eqn:E;
        simpl in HB.
      * rewrite (bind_run _ _ _ _ _ E).
        destruct (undo_after_call _ _ _ _ _ HB) as [U B].
        rewrite (bind_run _ _ _ _ _ U).
        eapply keeps_balance_from; [exact B|]. apply IH.
      * contradiction.
      * now rewrite (bind_fuel _ _ _ E).
Qed.

Lemma Minimax_balanced fuel b depth c (w : world) :
  keeps_balance w (Minimax time_time fuel b depth c w).
Proof.
  unfold Minimax. unfold bind at 1 2. cbn [time_now board_read].
  set (w1 := set_clock_reads _ w).
  assert (B1 : balanced w w1) by now apply balanced_same.
  cbn [objects set_clock_reads].
  destruct (check_game_end_gomoku _) as [win col].
  destruct (win && _).
  - exact B1.
  - eapply keeps_balance_from; [exact B1|].
    apply Minimax_for_balanced, nodes_balanced.
Qed.

(** *** The calls return

    With a depth that is not negative the nesting of calls is bounded by the
    depth, whatever the board does. *)

Lemma OR_for_returns (AND : node) depth :
  balanced_node AND -> returns_at AND (depth - 1) ->
  forall moves c b is_win best_points alpha beta (w : world),
    exists v w',
      OR_for AND depth c moves b is_win best_points alpha beta w = Returns v w'.
Proof.
  intros HA HR. induction moves as [|move rest IH]; intros; cbn [OR_for].
  - now eexists _, _.
  - rewrite (bind_run _ _ _ _ _ (save_board_run b w)).
    rewrite (bind_run _ _ _ _ _ (board_play_run b move c _)).
    destruct (HR b (opposite_color c) alpha beta (played b move c (saved b w)))
      as [[[win col] points] [w3 E]].
    pose proof (HA b (depth - 1) (opposite_color c) alpha beta
                  (played b move c (saved b w))) as HB.
    rewrite E in HB. simpl in HB.
    rewrite (bind_run _ _ _ _ _ E).
    destruct (undo_after_call _ _ _ _ _ HB) as [U _].
    rewrite (bind_run _ _ _ _ _ U). apply IH.
Qed.

Lemma AND_for_returns (OR : node) depth :
  balanced_node OR -> returns_at OR (depth - 1) ->
  forall moves c b worst_points alpha beta (w : world),
    exists v w',
      AND_for OR depth c moves b worst_points alpha beta w = Returns v w'.
Proof.
  intros HO HR. induction moves as [|move rest IH]; intros; cbn [AND_for].
  - now eexists _, _.
  - rewrite (bind_run _ _ _ _ _ (save_board_run b w)).
    rewrite (bind_run _ _ _ _ _ (board_play_run b move c _)).
    destruct (HR b (opposite_color c) alpha beta (played b move c (saved b w)))
      as [[[win col] points] [w3 E]].
    pose proof (HO b (depth - 1) (opposite_color c) alpha beta
                  (played b move c (saved b w))) as HB.
    rewrite E in HB. simpl in HB.
    rewrite (bind_run _ _ _ _ _ E).
    destruct (undo_after_call _ _ _ _ _ HB) as [U _].
    match goal with |- context [if ?t then _ else _] => destruct t end.
    + rewrite (bind_run _ _ _ _ _ U). now eexists _, _.
    + rewrite (bind_run _ _ _ _ _ U). apply IH.
Qed.

Lemma is_base_false depth (moves : list point) :
  is_base depth moves = false -> depth <> 0 /\ moves <> [].
Proof.
  unfold is_base. intros E. apply orb_false_elim in E as [E1 E2]. split.
  - now apply Z.eqb_neq.
  - intros ->. discriminate.
Qed.

Lemma nodes_return fuel :
  forall depth, 0 <= depth -> (Z.to_nat depth < fuel)%nat ->
    returns_at (MinimaxBooleanOR fuel) depth /\
    returns_at (MinimaxBooleanAND fuel) depth.
Proof.
  induction fuel as [|fuel IH]; intros depth Hd Hf; [lia|].
  assert (Sub : depth <> 0 ->
                returns_at (MinimaxBooleanOR fuel) (depth - 1) /\
                returns_at (MinimaxBooleanAND fuel) (depth - 1))
    by (intros; apply IH; lia).
  split; intros b c alpha beta w.
  - cbn [MinimaxBooleanOR]. unfold bind at 1 2 3.
    cbn [board_read get_TIME_LIMIT print].
    destruct (is_base depth _) eqn:Eb.
    + destruct (generate_legal_moves_gomoku _); now eexists _, _.
    + apply is_base_false in Eb as [Hd0 _].
      apply OR_for_returns; [apply nodes_balanced | now apply Sub].
  - cbn [MinimaxBooleanAND]. unfold bind at 1. cbn [board_read].
    destruct (is_base depth _) eqn:Eb.
    + destruct (generate_legal_moves_gomoku _); now eexists _, _.
    + apply is_base_false in Eb as [Hd0 _].
      apply AND_for_returns; [apply nodes_balanced | now apply Sub].
Qed.

Lemma Minimax_for_returns (AND : node) depth :
  balanced_node AND -> returns_at AND (depth - 1) ->
  forall moves start_time c b best_points best_move is_win alpha beta
         (w : world),
    exists v w',
      Minimax_for time_time AND start_time depth c moves b best_points
        best_move is_win alpha beta w = Returns v w'.
Proof.
  intros HA HR. induction moves as [|move rest IH]; intros; cbn [Minimax_for].
  - now eexists _, _.
  - unfold bind at 1 2. cbn [time_now get_TIME_LIMIT TIME_LIMIT set_clock_reads].
    destruct (Qle_bool _ _); [now eexists _, _|].
    unfold bind at 1. cbn [print].
    set (w2 := set_stdout _ _). clearbody w2.
    rewrite (bind_run _ _ _ _ _ (save_board_run b w2)).
    rewrite (bind_run _ _ _ _ _ (board_play_run b move c _)).
    destruct (HR b (opposite_color c) alpha beta (played b move c (saved b w2)))
      as [[[win col] points] [w3 E]].
    pose proof (HA b (depth - 1) (opposite_color c) alpha beta
                  (played b move c (saved b w2))) as HB.
    rewrite E in HB. simpl in HB.
    rewrite (bind_run _ _ _ _ _ E).
    destruct (undo_after_call _ _ _ _ _ HB) as [U _].
    rewrite (bind_run _ _ _ _ _ U). apply IH.
Qed.

Lemma Minimax_returns fuel b depth c (w : world) :
  1 <= depth -> (Z.to_nat depth <= fuel)%nat ->
  exists v w', Minimax time_time fuel b depth c w = Returns v w'.
Proof.
  intros Hd Hf. unfold Minimax. unfold bind at 1 2. cbn [time_now board_read].
  cbn [objects set_clock_reads].
  destruct (check_game_end_gomoku _) as [win col].
  destruct (win && _); [now eexists _, _|].
  apply Minimax_for_returns; [apply nodes_balanced|].
  apply nodes_return; lia.
Qed.

End Balance.

Section Refinement.

Context {board : Type} {GB : GoBoard board}.
Variable time_time : nat -> Q.

Local Abbreviation world := (@world board).

Lemma update_same (f : ref -> board) r x : update f r x r = x.
Proof. unfold update. now rewrite Nat.eqb_refl. Qed.

Lemma update_other (f : ref -> board) r r' x : r' <> r -> update f r x r' = f r'.
Proof.
  intros N. unfold update. destruct (Nat.eqb r' r) eqn:E; [|reflexivity].
  apply Nat.eqb_eq in E. contradiction.
Qed.

(** The three facts about the objects after [save_board] and the move. *)
Lemma played_saved_board b m c (w : world) :
  (b < fresh w)%nat ->
  objects (played b m c (saved b w)) b = play_move_gomoku (objects w b) m c.
Proof.
  intros L. cbn. rewrite update_same, update_other by lia. reflexivity.
Qed.

Lemma played_saved_copy b m c (w : world) :
  (b < fresh w)%nat ->
  objects (played b m c (saved b w)) (fresh w) = objects w b.
Proof.
  intros L. cbn. rewrite update_other by lia. apply update_same.
Qed.

Lemma played_saved_other b m c (w : world) r :
  (r < fresh w)%nat -> r <> b ->
  objects (played b m c (saved b w)) r = objects w r.
Proof.
  intros L N. cbn. rewrite !update_other by lia. reflexivity.
Qed.

Lemma frame_refl b (w : world) : frame b w w.
Proof. repeat split; auto. Qed.

Lemma undo_after_frame b m c (w w3 : world) :
  frame b (played b m c (saved b w)) w3 ->
  undo w3 = Returns (fresh w) (undone (stack w) w3).
Proof. intros [S3 _]. now apply undo_run. Qed.

Lemma frame_stop b m c (w w3 : world) :
  (b < fresh w)%nat ->
  frame b (played b m c (saved b w)) w3 ->
  frame b w (undone (stack w) w3).
Proof.
  intros L (S3 & F3 & O3 & T3). cbn in F3, T3. repeat split; cbn.
  - lia.
  - intros r Lr Nr. rewrite O3 by (cbn; lia || assumption).
    now apply played_saved_other.
  - assumption.
Qed.

Lemma frame_next b m c (w w3 w5 : world) :
  (b < fresh w)%nat ->
  frame b (played b m c (saved b w)) w3 ->
  frame (fresh w) (undone (stack w) w3) w5 ->
  frame b w w5.
Proof.
  intros L F3 (S5 & F5 & O5 & T5).
  destruct (frame_stop _ _ _ _ _ L F3) as (S4 & F4 & O4 & T4).
  cbn in S5, F5, T5. repeat split.
  - assumption.
  - cbn in F4. lia.
  - intros r Lr Nr. rewrite O5 by (cbn in *; lia). now apply O4.
  - cbn in T4. congruence.
Qed.

(** The board the next iteration works on: the copy, with the contents the
    loop started from. *)
Lemma next_board b m c (w w3 : world) :
  (b < fresh w)%nat ->
  frame b (played b m c (saved b w)) w3 ->
  (fresh w < fresh (undone (stack w) w3))%nat /\
  objects (undone (stack w) w3) (fresh w) = objects w b.
Proof.
  intros L (S3 & F3 & O3 & T3). cbn in F3. cbn. split; [lia|].
  rewrite O3 by (cbn; lia). now apply played_saved_copy.
Qed.

Lemma OR_for_refines (AND : node) ANDv :
  refines AND ANDv ->
  forall moves depth c b is_win best_points alpha beta (w : world) bd,
    (b < fresh w)%nat -> objects w b = bd ->
    match OR_fold (fun move => ANDv (play_move_gomoku bd move c) (depth - 1)
                                 (opposite_color c))
            c moves is_win best_points with
    | Some v =>
        exists w',
          OR_for AND depth c moves b is_win best_points alpha beta w
          = Returns v w' /\ frame b w w'
    | None =>
        OR_for AND depth c moves b is_win best_points alpha beta w = OutOfFuel
    end.
Proof.
  intros HA. induction moves as [|move rest IH]; intros * L Eb;
    cbn [OR_for OR_fold].
  - exists w. split; [reflexivity | apply frame_refl].
  - rewrite (bind_run _ _ _ _ _ (save_board_run b w)).
    rewrite (bind_run _ _ _ _ _ (board_play_run b move c _)).
    assert (L2 : (b < fresh (played b move c (saved b w)))%nat) by (cbn; lia).
    pose proof (HA b (depth - 1) (opposite_color c) alpha beta _ L2) as HC.
    rewrite played_saved_board, Eb in HC by assumption.
    destruct (ANDv _ _ _) as [[[win col] points]|].
    + destruct HC as [w3 [E F3]].
      rewrite (bind_run _ _ _ _ _ E).
      rewrite (bind_run _ _ _ _ _ (undo_after_frame _ _ _ _ _ F3)).
      destruct (next_board _ _ _ _ _ L F3) as [L4 E4]. rewrite Eb in E4.
      unfold seen_from.
      destruct (pycolor_eqb col c); cbn [negb];
        match goal with
        | |- context [OR_fold _ _ _ ?iw ?bp] =>
            match goal with
            | |- context [OR_for _ _ _ _ _ _ _ ?al ?be _] =>
                specialize (IH depth c (fresh w) iw bp al be _ bd L4 E4)
            end
        end;
        destruct (OR_fold _ _ _ _ _);
        [ destruct IH as [w5 [E5 F5]]; exists w5; split;
          [exact E5 | eapply frame_next; eassumption]
        | exact IH
        | destruct IH as [w5 [E5 F5]]; exists w5; split;
          [exact E5 | eapply frame_next; eassumption]
        | exact IH ].
    + now rewrite (bind_fuel _ _ _ HC).
Qed.

Lemma AND_for_refines (OR : node) ORv :
  refines OR ORv ->
  forall moves depth c b worst_points alpha beta (w : world) bd,
    (b < fresh w)%nat -> objects w b = bd ->
    match AND_fold (fun move => ORv (play_move_gomoku bd move c) (depth - 1)
                                  (opposite_color c))
            c moves worst_points with
    | Some v =>
        exists w',
          AND_for OR depth c moves b worst_points alpha beta w
          = Returns v w' /\ frame b w w'
    | None =>
        AND_for OR depth c moves b worst_points alpha beta w = OutOfFuel
    end.
Proof.
  intros HO. induction moves as [|move rest IH]; intros * L Eb;
    cbn [AND_for AND_fold].
  - exists w. split; [reflexivity | apply frame_refl].
  - rewrite (bind_run _ _ _ _ _ (save_board_run b w)).
    rewrite (bind_run _ _ _ _ _ (board_play_run b move c _)).
    assert (L2 : (b < fresh (played b move c (saved b w)))%nat) by (cbn; lia).
    pose proof (HO b (depth - 1) (opposite_color c) alpha beta _ L2) as HC.
    rewrite played_saved_board, Eb in HC by assumption.
    destruct (ORv _ _ _) as [[[win col] points]|].
    + destruct HC as [w3 [E F3]].
      rewrite (bind_run _ _ _ _ _ E).
      destruct (next_board _ _ _ _ _ L F3) as [L4 E4]. rewrite Eb in E4.
      pose proof (undo_after_frame _ _ _ _ _ F3) as U.
      pose proof (frame_stop _ _ _ _ _ L F3) as F4.
      unfold seen_from.
      destruct (pycolor_eqb col (opposite_color c)); cbn [negb];
        [destruct win; cbn [negb]|];
        rewrite (bind_run _ _ _ _ _ U);
        try (eexists; split; [reflexivity | exact F4]).
      match goal with
      | |- context [AND_fold _ _ _ ?wp] =>
          match goal with
          | |- context [AND_for _ _ _ _ _ _ ?al ?be _] =>
              specialize (IH depth c (fresh w) wp al be _ bd L4 E4)
          end
      end.
      destruct (AND_fold _ _ _ _).
      * destruct IH as [w5 [E5 F5]]. exists w5. split;
          [exact E5 | eapply frame_next; eassumption].
      * exact IH.
    + now rewrite (bind_fuel _ _ _ HC).
Qed.

Lemma frame_pre b (w w1 w' : world) :
  stack w1 = stack w -> fresh w1 = fresh w -> objects w1 = objects w ->
  TIME_LIMIT w1 = TIME_LIMIT w ->
  frame b w1 w' -> frame b w w'.
Proof.
  intros Es Ef Eo Et (S' & F' & O' & T'). split; [|split; [|split]].
  - congruence.
  - rewrite <- Ef. exact F'.
  - intros r Lr Nr. rewrite O' by (rewrite ?Ef; assumption). now rewrite Eo.
  - congruence.
Qed.

(** The nodes compute [OR_value] and [AND_value], and run out of budget
    exactly when these do. *)
Lemma nodes_refine fuel :
  refines (MinimaxBooleanOR fuel) (OR_value fuel) /\
  refines (MinimaxBooleanAND fuel) (AND_value fuel).
Proof.
  induction fuel as [|fuel [IHO IHA]].
  - split; intros b depth c alpha beta w L; reflexivity.
  - split; intros b depth c alpha beta w L.
    + cbn [MinimaxBooleanOR OR_value].
      rewrite (bind_run _ _ _ _ _ (board_read_run b w)).
      rewrite (bind_run _ _ _ _ _ (get_TIME_LIMIT_run w)).
      rewrite (bind_run _ _ _ _ _ (print_run _ w)).
      set (w1 := set_stdout _ w).
      destruct (is_base depth _); cbv iota.
      * exists w1. split; [|now apply (frame_pre b w w1 w1), frame_refl].
        unfold base_case, bind, board_read, base_value. cbn [objects w1 set_stdout].
        now destruct (generate_legal_moves_gomoku _).
      * pose proof (OR_for_refines _ _ IHA
                      (generate_legal_moves_gomoku (objects w b)) depth c b
                      false 0 alpha beta w1 (objects w b) L eq_refl) as HL.
        destruct (OR_fold _ _ _ _ _); [|exact HL].
        destruct HL as [w' [E F]]. exists w'. split; [exact E|].
        now apply (frame_pre b w w1 w').
    + cbn [MinimaxBooleanAND AND_value].
      rewrite (bind_run _ _ _ _ _ (board_read_run b w)).
      destruct (is_base depth _); cbv iota.
      * exists w. split; [|apply frame_refl].
        unfold base_case, bind, board_read, base_value.
        now destruct (generate_legal_moves_gomoku _).
      * exact (AND_for_refines _ _ IHO
                 (generate_legal_moves_gomoku (objects w b)) depth c b
                 10000 alpha beta w (objects w b) L eq_refl).
Qed.

(** The loop of the driver either stops on a time check or computes
    [Minimax_fold]. *)
Lemma Minimax_for_refines (AND : node) ANDv :
  refines AND ANDv ->
  forall moves start_time depth c b best_points best_move is_win alpha beta
         (w : world) bd,
    (b < fresh w)%nat -> objects w b = bd ->
    (exists w',
        Minimax_for time_time AND start_time depth c moves b best_points
          best_move is_win alpha beta w = Returns (4, None) w' /\
        frame b w w') \/
    match Minimax_fold (fun move => ANDv (play_move_gomoku bd move c)
                                      (depth - 1) (opposite_color c))
            moves best_points best_move is_win with
    | Some v =>
        exists w',
          Minimax_for time_time AND start_time depth c moves b best_points
            best_move is_win alpha beta w = Returns v w' /\
          frame b w w'
    | None =>
        Minimax_for time_time AND start_time depth c moves b best_points
          best_move is_win alpha beta w = OutOfFuel
    end.
Proof.
  intros HA. induction moves as [|move rest IH]; intros * L Eb;
    cbn [Minimax_for Minimax_fold].
  - right. exists w. split; [reflexivity | apply frame_refl].
  - rewrite (bind_run _ _ _ _ _ (time_now_run time_time w)).
    set (w1 := set_clock_reads _ w).
    rewrite (bind_run _ _ _ _ _ (get_TIME_LIMIT_run w1)).
    destruct (Qle_bool _ _); cbv iota.
    { left. exists w1. split; [reflexivity|].
      now apply (frame_pre b w w1 w1), frame_refl. }
    rewrite (bind_run _ _ _ _ _ (print_run _ w1)). set (w2 := set_stdout _ w1).
    assert (P2 : forall w', frame b w2 w' -> frame b w w')
      by (intros w'; now apply frame_pre).
    assert (Lw : (b < fresh w2)%nat) by exact L.
    assert (Ew : objects w2 b = bd) by exact Eb.
    clearbody w2. clear w1.
    rewrite (bind_run _ _ _ _ _ (save_board_run b w2)).
    rewrite (bind_run _ _ _ _ _ (board_play_run b move c _)).
    assert (L2 : (b < fresh (played b move c (saved b w2)))%nat) by (cbn; lia).
    pose proof (HA b (depth - 1) (opposite_color c) alpha beta _ L2) as HC.
    rewrite played_saved_board, Ew in HC by assumption.
    destruct (ANDv _ _ _) as [[[win col] points]|].
    + destruct HC as [w3 [E F3]].
      rewrite (bind_run _ _ _ _ _ E).
      rewrite (bind_run _ _ _ _ _ (undo_after_frame _ _ _ _ _ F3)).
      destruct (next_board _ _ _ _ _ Lw F3) as [L4 E4]. rewrite Ew in E4.
      match goal with
      | |- context [Minimax_fold _ _ ?bp ?bm ?iw] =>
          match goal with
          | |- context [Minimax_for _ _ _ _ _ _ _ _ _ _ ?al ?be _] =>
              specialize (IH start_time depth c (fresh w2) bp bm iw al be _ bd
                            L4 E4)
          end
      end.
      destruct IH as [[w5 [E5 F5]]|IH].
      * left. exists w5. split; [exact E5|].
        apply P2. eapply frame_next; eassumption.
      * right. destruct (Minimax_fold _ _ _ _ _); [|exact IH].
        destruct IH as [w5 [E5 F5]]. exists w5. split; [exact E5|].
        apply P2. eapply frame_next; eassumption.
    + right. now rewrite (bind_fuel _ _ _ HC).
Qed.

Lemma Minimax_refines fuel b depth c (w : world) :
  (b < fresh w)%nat ->
  (exists w',
      Minimax time_time fuel b depth c w = Returns (4, None) w' /\
      frame b w w') \/
  match Minimax_value fuel (objects w b) depth c with
  | Some v =>
      exists w',
        Minimax time_time fuel b depth c w = Returns v w' /\ frame b w w'
  | None => Minimax time_time fuel b depth c w = OutOfFuel
  end.
Proof.
  intros L. unfold Minimax, Minimax_value, decided_for_opponent.
  rewrite (bind_run _ _ _ _ _ (time_now_run time_time w)).
  set (w1 := set_clock_reads _ w).
  rewrite (bind_run _ _ _ _ _ (board_read_run b w1)).
  cbn [objects w1 set_clock_reads].
  assert (P1 : forall w', frame b w1 w' -> frame b w w')
    by (intros w'; now apply frame_pre).
  destruct (check_game_end_gomoku _) as [win col].
  destruct (win && _); cbv iota.
  - right. exists w1. split; [reflexivity | apply P1, frame_refl].
  - destruct (Minimax_for_refines _ _ (proj2 (nodes_refine fuel))
                (generate_legal_moves_gomoku (objects w b))
                (time_time (clock_reads w)) depth c b 0 None 0
                NINFINITY INFINITY w1 (objects w b) L eq_refl)
      as [[w5 [E5 F5]]|H].
    + left. exists w5. split; [exact E5 | now apply P1].
    + right. unfold candidate. destruct (Minimax_fold _ _ _ _ _); [|exact H].
      destruct H as [w5 [E5 F5]]. exists w5. split; [exact E5 | now apply P1].
Qed.

(** A call of the driver that returns anything but the time-out code has
    computed [Minimax_value]. *)
Lemma Minimax_not_timeout fuel b depth c (w w' : world) code best_move :
  (b < fresh w)%nat ->
  Minimax time_time fuel b depth c w = Returns (code, best_move) w' ->
  code <> 4 ->
  Minimax_value fuel (objects w b) depth c = Some (code, best_move) /\
  frame b w w'.
Proof.
  intros L E N. destruct (Minimax_refines fuel b depth c w L) as [[w1 [E1 F1]]|H].
  - rewrite E in E1. injection E1 as -> _ _. contradiction.
  - destruct (Minimax_value _ _ _ _).
    + destruct H as [w1 [E1 F1]]. rewrite E in E1. injection E1 as <- <-.
      now split.
    + rewrite E in H. discriminate.
Qed.

(** The time check that stops the loop. *)
Lemma Minimax_for_stops (AND : node) start_time depth c move rest b
    best_points best_move is_win alpha beta (w : world) :
  Qle_bool (inject_Z (TIME_LIMIT w)) (time_time (clock_reads w) - start_time)
  = true ->
  Minimax_for time_time AND start_time depth c (move :: rest) b best_points
    best_move is_win alpha beta w
  = Returns (4, None) (set_clock_reads (S (clock_reads w)) w).
Proof.
  intros H. cbn [Minimax_for].
  rewrite (bind_run _ _ _ _ _ (time_now_run time_time w)).
  rewrite (bind_run _ _ _ _ _ (get_TIME_LIMIT_run _)).
  cbn [TIME_LIMIT set_clock_reads]. now rewrite H.
Qed.

(** What a node returned is what the function of the contents gives. *)
Lemma OR_returned fuel b depth c alpha beta (w w' : world) v :
  (b < fresh w)%nat ->
  MinimaxBooleanOR fuel b depth c alpha beta w = Returns v w' ->
  OR_value fuel (objects w b) depth c = Some v /\ frame b w w'.
Proof.
  intros L E.
  pose proof (proj1 (nodes_refine fuel) b depth c alpha beta w L) as H.
  destruct (OR_value _ _ _ _).
  - destruct H as [w1 [E1 F1]]. rewrite E in E1. injection E1 as <- <-.
    now split.
  - rewrite E in H. discriminate.
Qed.

Lemma AND_returned fuel b depth c alpha beta (w w' : world) v :
  (b < fresh w)%nat ->
  MinimaxBooleanAND fuel b depth c alpha beta w = Returns v w' ->
  AND_value fuel (objects w b) depth c = Some v /\ frame b w w'.
Proof.
  intros L E.
  pose proof (proj2 (nodes_refine fuel) b depth c alpha beta w L) as H.
  destruct (AND_value _ _ _ _).
  - destruct H as [w1 [E1 F1]]. rewrite E in E1. injection E1 as <- <-.
    now split.
  - rewrite E in H. discriminate.
Qed.

Lemma AND_computed fuel b depth c alpha beta (w : world) v :
  (b < fresh w)%nat ->
  AND_value fuel (objects w b) depth c = Some v ->
  exists w', MinimaxBooleanAND fuel b depth c alpha beta w = Returns v w' /\
             frame b w w'.
Proof.
  intros L E.
  pose proof (proj2 (nodes_refine fuel) b depth c alpha beta w L) as H.
  now rewrite E in H.
Qed.

End Refinement.

(** ** The loops as folds *)

Section Folds.

Variable child : point -> option verdict.

Lemma OR_fold_score c moves :
  forall is_win best_points win col points,
    OR_fold child c moves is_win best_points = Some (win, col, points) ->
    best_points <= points /\ col = c.
Proof.
  induction moves as [|move rest IH]; intros * E; cbn [OR_fold] in E.
  - injection E as _ <- <-. split; [lia | reflexivity].
  - destruct (child move) as [v|]; [|discriminate].
    destruct (seen_from c v) as [win1 p1].
    apply IH in E as [Hle Hc]. split; [|exact Hc].
    destruct (best_points <? p1) eqn:Lt; [apply Z.ltb_lt in Lt|]; lia.
Qed.

Lemma OR_fold_negative c moves :
  (forall move win p,
      In move moves ->
      option_map (seen_from c) (child move) = Some (win, p) -> p < 0) ->
  forall is_win win col points,
    OR_fold child c moves is_win 0 = Some (win, col, points) -> points = 0.
Proof.
  induction moves as [|move rest IH]; intros Neg * E; cbn [OR_fold] in E.
  - now injection E as _ _ <-.
  - pose proof (fun win p => Neg move win p (or_introl eq_refl)) as N.
    destruct (child move) as [v|]; [|discriminate]. cbn [option_map] in N.
    destruct (seen_from c v) as [win1 p1]. specialize (N win1 p1 eq_refl).
    replace (0 <? p1) with false in E by (symmetry; apply Z.ltb_ge; lia).
    eapply IH; [|exact E]. intros m w1 p Hin. apply Neg. now right.
Qed.

(** Children that all read as no win with a negative score leave the OR
    loop at what it started with: no win, 0 points. *)
Lemma OR_fold_no_win c moves :
  (forall move, In move moves ->
     exists p, option_map (seen_from c) (child move) = Some (false, p) /\
               p < 0) ->
  OR_fold child c moves false 0 = Some (false, c, 0).
Proof.
  induction moves as [|move rest IH]; intros H; cbn [OR_fold].
  - reflexivity.
  - destruct (H move (or_introl eq_refl)) as [p [Hm Hp]].
    destruct (child move) as [v|]; [|discriminate]. cbn [option_map] in Hm.
    injection Hm as Hm. rewrite Hm.
    replace (0 <? p) with false by (symmetry; apply Z.ltb_ge; lia).
    apply IH. intros m Hin. apply H. now right.
Qed.

Lemma AND_fold_refuted c pre move post p :
  (forall m, In m pre ->
     exists p', option_map (seen_from (opposite_color c)) (child m)
                = Some (true, p')) ->
  option_map (seen_from (opposite_color c)) (child move) = Some (false, p) ->
  forall worst_points,
    AND_fold child c (pre ++ move :: post) worst_points
    = Some (false, opposite_color c, p).
Proof.
  intros Hpre Hm. induction pre as [|m0 pre IH]; intros wp; cbn [app AND_fold].
  - destruct (child move) as [v|]; [|discriminate]. cbn [option_map] in Hm.
    injection Hm as Hm. now rewrite Hm.
  - destruct (Hpre m0 (or_introl eq_refl)) as [p0 H0].
    destruct (child m0) as [v|]; [|discriminate]. cbn [option_map] in H0.
    injection H0 as H0. rewrite H0. cbn [negb]. apply IH.
    intros m Hin. apply Hpre. now right.
Qed.

Lemma AND_fold_all_win c moves scores :
  Forall2 (fun m p => option_map (seen_from (opposite_color c)) (child m)
                      = Some (true, p)) moves scores ->
  forall worst_points,
    AND_fold child c moves worst_points
    = Some (true, opposite_color c, fold_left Z.min scores worst_points).
Proof.
  induction 1 as [|m p moves scores Hm _ IH]; intros wp; cbn [AND_fold fold_left].
  - reflexivity.
  - destruct (child m) as [v|]; [|discriminate]. cbn [option_map] in Hm.
    injection Hm as Hm. rewrite Hm. cbn [negb]. rewrite IH. do 3 f_equal.
    destruct (p <? wp) eqn:Lt; [apply Z.ltb_lt in Lt | apply Z.ltb_ge in Lt]; lia.
Qed.

Lemma fold_left_min_right (l : list Z) a :
  fold_left Z.min l a = fold_right Z.min a l.
Proof.
  revert a. induction l as [|x l IH]; intros a; cbn; [reflexivity|].
  rewrite IH. clear IH. revert a x.
  induction l as [|y l IH]; intros a x; cbn; [lia|].
  rewrite IH. lia.
Qed.

(** After a win has been recorded with [best_points], moves that prove no
    more than that change nothing. *)
Lemma Minimax_fold_won post :
  forall best_points best_move r,
    (forall m col p, In m post -> child m = Some (true, col, p) ->
                     p <= best_points) ->
    Minimax_fold child post best_points best_move 2 = Some r ->
    r = (2, best_move).
Proof.
  induction post as [|m0 post IH]; intros * Hle E; cbn [Minimax_fold] in E.
  - now injection E as <-.
  - destruct (child m0) as [[[win col] p]|] eqn:Em; [|discriminate].
    assert (B : win && (best_points <? p) = false).
    { destruct win; [|reflexivity]. cbn. apply Z.ltb_ge.
      eapply Hle; [now left | exact Em]. }
    rewrite B in E. cbn in E. apply IH in E; [exact E|].
    intros m col' p' Hin. apply Hle. now right.
Qed.

Lemma Minimax_fold_win pre move post col p :
  child move = Some (true, col, p) ->
  (forall m col' p', In m pre -> child m = Some (true, col', p') -> p' < p) ->
  (forall m col' p', In m post -> child m = Some (true, col', p') -> p' <= p) ->
  forall best_points best_move is_win r,
    best_points < p ->
    Minimax_fold child (pre ++ move :: post) best_points best_move is_win
    = Some r ->
    r = (2, Some move).
Proof.
  intros Em Hpre Hpost. induction pre as [|m0 pre IH]; intros * Lt E;
    cbn [app Minimax_fold] in E.
  - rewrite Em in E. apply Z.ltb_lt in Lt. rewrite Lt in E. cbn in E.
    eapply Minimax_fold_won; [|exact E]. exact Hpost.
  - destruct (child m0) as [[[win0 col0] p0]|] eqn:E0; [|discriminate].
    eapply IH; [| |exact E].
    + intros m col' p' Hin. apply Hpre. now right.
    + destruct win0; cbn; [|exact Lt].
      destruct (best_points <? p0); [|exact Lt].
      eapply Hpre; [now left | exact E0].
Qed.

(** While no move proves a win with points above 0, [best_points] stays 0
    and no win is recorded. *)
Lemma Minimax_fold_undecided post :
  (forall m col p, In m post -> child m = Some (true, col, p) -> p <= 0) ->
  (forall m win col p, In m post -> child m = Some (win, col, p) -> p <> 0) ->
  forall best_move is_win r,
    is_win <> 2 ->
    Minimax_fold child post 0 best_move is_win = Some r ->
    r = (is_win, best_move).
Proof.
  induction post as [|m0 post IH]; intros Hw Hz * N E; cbn [Minimax_fold] in E.
  - now injection E as <-.
  - destruct (child m0) as [[[win col] p]|] eqn:Em; [|discriminate].
    assert (B : win && (0 <? p) = false).
    { destruct win; [|reflexivity]. cbn. apply Z.ltb_ge.
      eapply Hw; [now left | exact Em]. }
    rewrite B in E. cbv zeta in E.
    assert (Z0 : (p =? 0) = false)
      by (apply Z.eqb_neq; eapply Hz; [now left | exact Em]).
    rewrite Z0, andb_false_r in E.
    apply IH in E; try assumption.
    + intros m col' p' Hin. apply Hw. now right.
    + intros m win' col' p' Hin. apply Hz. now right.
Qed.

Lemma Minimax_fold_draw pre move post win col :
  child move = Some (win, col, 0) ->
  (forall m col' p', In m (pre ++ move :: post) ->
                     child m = Some (true, col', p') -> p' <= 0) ->
  (forall m win' col' p', In m post -> child m = Some (win', col', p') ->
                          p' <> 0) ->
  forall best_move is_win r,
    is_win <> 2 ->
    Minimax_fold child (pre ++ move :: post) 0 best_move is_win = Some r ->
    r = (1, Some move).
Proof.
  intros Em Hw Hz. induction pre as [|m0 pre IH]; intros * N E;
    cbn [app Minimax_fold] in E.
  - rewrite Em in E. rewrite andb_false_r in E. cbv zeta in E.
    apply Z.eqb_neq in N. rewrite N in E. cbn in E.
    eapply Minimax_fold_undecided in E; try assumption; try discriminate.
    intros m col' p' Hin. apply Hw. cbn. now right.
  - destruct (child m0) as [[[win0 col0] p0]|] eqn:E0; [|discriminate].
    assert (B : win0 && (0 <? p0) = false).
    { destruct win0; [|reflexivity]. cbn. apply Z.ltb_ge.
      eapply Hw; [now left | exact E0]. }
    rewrite B in E. cbv zeta in E.
    eapply IH; [| |exact E].
    + intros m col' p' Hin. apply Hw. cbn. now right.
    + destruct (negb (is_win =? 2) && (p0 =? 0)); [discriminate | exact N].
Qed.

(** A move with 0 points, when no move proves a win with points above 0,
    makes the result a draw. *)
Lemma Minimax_fold_draw_code moves :
  (forall m col p, In m moves -> child m = Some (true, col, p) -> p <= 0) ->
  forall best_move is_win code move,
    is_win <> 2 ->
    is_win = 1 \/
    (exists m win col, In m moves /\ child m = Some (win, col, 0)) ->
    Minimax_fold child moves 0 best_move is_win = Some (code, move) ->
    code = 1.
Proof.
  induction moves as [|m0 moves IH]; intros Hw * N D E; cbn [Minimax_fold] in E.
  - injection E as <- _. destruct D as [D|(m & _ & _ & [] & _)]. exact D.
  - destruct (child m0) as [[[win0 col0] p0]|] eqn:E0; [|discriminate].
    assert (B : win0 && (0 <? p0) = false).
    { destruct win0; [|reflexivity]. cbn. apply Z.ltb_ge.
      eapply Hw; [now left | exact E0]. }
    rewrite B in E. cbv zeta in E.
    apply Z.eqb_neq in N. rewrite N in E. cbn [negb andb] in E.
    eapply IH; [| | |exact E].
    + intros m col' p' Hin. apply Hw. now right.
    + destruct (p0 =? 0); [discriminate | now apply Z.eqb_neq].
    + destruct (p0 =? 0) eqn:P0; [now left|].
      destruct D as [D|(m & win & col & [<-|Hin] & Hm)].
      * now left.
      * rewrite E0 in Hm. injection Hm as _ _ ->. discriminate.
      * right. now exists m, win, col.
Qed.

End Folds.

(** * The clock

    Only [Minimax] reads the clock; the nodes below it neither read it nor
    change the time limit. *)

Section Clock.

Context {board : Type} {GB : GoBoard board}.
Variable time_time : nat -> Q.

Local Abbreviation world := (@world board).

(** What an [undo] that returned has done. *)
Lemma undo_returned (w w' : world) r :
  undo w = Returns r w' ->
  exists s, stack w = s ++ [r] /\ w' = undone s w.
Proof.
  intros E. destruct (rev (stack w)) as [|top below] eqn:Er.
  - assert (Es : stack w = []).
    { rewrite <- (rev_involutive (stack w)), Er. reflexivity. }
    rewrite (undo_run_empty w Es) in E. discriminate.
  - assert (Es : stack w = rev below ++ [top]).
    { rewrite <- (rev_involutive (stack w)), Er. reflexivity. }
    rewrite (undo_run w _ _ Es) in E. injection E as <- <-.
    now exists (rev below).
Qed.

Lemma bind_returned {A B} (m : M A) (k : A -> M B) (w w' : world) v :
  bind m k w = Returns v w' ->
  exists a w1, m w = Returns a w1 /\ k a w1 = Returns v w'.
Proof.
  unfold bind. destruct (m w) as [a w1| |]; try discriminate.
  intros E. now exists a, w1.
Qed.

Lemma untimed_refl (w : world) : untimed w w.
Proof. now split. Qed.

Lemma untimed_trans (w1 w2 w3 : world) :
  untimed w1 w2 -> untimed w2 w3 -> untimed w1 w3.
Proof. intros [A B] [C D]. split; congruence. Qed.

Lemma untimed_iteration b move c (w w3 w4 : world) r :
  untimed (played b move c (saved b w)) w3 ->
  undo w3 = Returns r w4 ->
  untimed w w4.
Proof.
  intros [A B] U. apply undo_returned in U as [s [_ ->]].
  split; cbn; [exact A | exact B].
Qed.

Lemma OR_for_untimed (AND : node) :
  untimed_node AND ->
  forall moves depth c b is_win best_points alpha beta (w w' : world) v,
    OR_for AND depth c moves b is_win best_points alpha beta w = Returns v w' ->
    untimed w w'.
Proof.
  intros HA. induction moves as [|move rest IH]; intros * E; cbn [OR_for] in E.
  - injection E as _ <-. apply untimed_refl.
  - rewrite (bind_run _ _ _ _ _ (save_board_run b w)) in E.
    rewrite (bind_run _ _ _ _ _ (board_play_run b move c _)) in E.
    apply bind_returned in E as ([[win col] points] & w3 & EA & E).
    apply bind_returned in E as (r & w4 & U & E).
    apply HA in EA. apply IH in E.
    eapply untimed_trans; [|exact E]. eapply untimed_iteration; eassumption.
Qed.

Lemma AND_for_untimed (OR : node) :
  untimed_node OR ->
  forall moves depth c b worst_points alpha beta (w w' : world) v,
    AND_for OR depth c moves b worst_points alpha beta w = Returns v w' ->
    untimed w w'.
Proof.
  intros HO. induction moves as [|move rest IH]; intros * E; cbn [AND_for] in E.
  - injection E as _ <-. apply untimed_refl.
  - rewrite (bind_run _ _ _ _ _ (save_board_run b w)) in E.
    rewrite (bind_run _ _ _ _ _ (board_play_run b move c _)) in E.
    apply bind_returned in E as ([[win col] points] & w3 & EO & E).
    apply HO in EO. cbv zeta in E.
    match type of E with context [if ?t then _ else _] => destruct t end.
    + apply bind_returned in E as (r & w4 & U & E). injection E as _ <-.
      eapply untimed_iteration; eassumption.
    + apply bind_returned in E as (r & w4 & U & E). apply IH in E.
      eapply untimed_trans; [|exact E]. eapply untimed_iteration; eassumption.
Qed.

Lemma nodes_untimed fuel :
  untimed_node (MinimaxBooleanOR fuel) /\ untimed_node (MinimaxBooleanAND fuel).
Proof.
  induction fuel as [|fuel [IHO IHA]].
  - split; intros b depth c alpha beta w w' v E; discriminate.
  - split; intros b depth c alpha beta w w' v E.
    + cbn [MinimaxBooleanOR] in E.
      rewrite (bind_run _ _ _ _ _ (board_read_run b w)) in E.
      rewrite (bind_run _ _ _ _ _ (get_TIME_LIMIT_run w)) in E.
      rewrite (bind_run _ _ _ _ _ (print_run _ w)) in E.
      destruct (is_base depth _).
      * assert (w' = set_stdout (stdout w ++ [PInt (TIME_LIMIT w)]) w) as ->.
        { destruct (generate_legal_moves_gomoku _); now injection E as _ <-. }
        now split.
      * apply (OR_for_untimed _ IHA) in E. destruct E as [A B]. now split.
    + cbn [MinimaxBooleanAND] in E.
      rewrite (bind_run _ _ _ _ _ (board_read_run b w)) in E.
      destruct (is_base depth _).
      * assert (w' = w) as ->
            by (destruct (generate_legal_moves_gomoku _); now injection E as _ <-).
        apply untimed_refl.
      * now apply (AND_for_untimed _ IHO) in E.
Qed.


End Clock.

(** * The properties of the search *)

Section Claims.

Context {board : Type} {GB : GoBoard board}.
Variable time_time : nat -> Q.

Local Abbreviation world := (@world board).

Lemma pycolor_eqb_eq a b : pycolor_eqb a b = true <-> a = b.
Proof.
  split.
  - destruct a as [[]|], b as [[]|]; simpl; congruence.
  - intros ->. destruct b as [[]|]; reflexivity.
Qed.


(** C3.  A call of [Minimax] never raises; when it returns, the stack is
    the one it found and the pushes and pops it logged are equal in number;
    and with a depth of at least 1 it does return. *)
Theorem Minimax_stack_balance fuel b depth c (w : world) :
  (forall e w', Minimax time_time fuel b depth c w <> Raises e w') /\
  (forall v w',
      Minimax time_time fuel b depth c w = Returns v w' ->
      stack w' = stack w /\
      List.length (stack w') = List.length (stack w) /\
      exists d, debug w' = debug w ++ d /\ pushes d = pops d) /\
  (1 <= depth -> (Z.to_nat depth <= fuel)%nat ->
   exists v w', Minimax time_time fuel b depth c w = Returns v w').
Proof.
  pose proof (Minimax_balanced time_time fuel b depth c w) as B.
  split; [|split].
  - intros e w' E. rewrite E in B. exact B.
  - intros v w' E. rewrite E in B. destruct B as [Es Ed].
    split; [exact Es|]. split; [now rewrite Es | exact Ed].
  - apply Minimax_returns.
Qed.

(** C5, as the code has it.  [undo] on an empty stack logs the call in
    [debug], prints the message, and then raises [IndexError]: it yields no
    value and its caller does not go on. *)
Theorem undo_empty_raises (w : world) :
  stack w = [] ->
  undo w = Raises IndexError
             (set_stdout (stdout w ++ [PStr "Stack is empty!"%string])
                (set_debug (debug w ++ ["Undid board"%string]) w)).
Proof. apply undo_run_empty. Qed.

(** C7.  On a board without legal moves either node, at any depth and
    already with a budget of one call, returns
    [StatisticallyEvaluate(False)]; the OR node has printed the time limit,
    and nothing else has changed: no push, no pop, no move played. *)
Theorem no_moves_base_case fuel b depth c alpha beta (w : world) :
  generate_legal_moves_gomoku (objects w b) = [] ->
  MinimaxBooleanOR (S fuel) b depth c alpha beta w
  = Returns (StatisticallyEvaluate (objects w b) (Some false))
      (set_stdout (stdout w ++ [PInt (TIME_LIMIT w)]) w) /\
  MinimaxBooleanAND (S fuel) b depth c alpha beta w
  = Returns (StatisticallyEvaluate (objects w b) (Some false)) w.
Proof.
  intros E. split.
  - cbn [MinimaxBooleanOR].
    rewrite (bind_run _ _ _ _ _ (board_read_run b w)).
    rewrite (bind_run _ _ _ _ _ (get_TIME_LIMIT_run w)).
    rewrite (bind_run _ _ _ _ _ (print_run _ w)).
    rewrite E. unfold is_base. rewrite orb_true_r. reflexivity.
  - cbn [MinimaxBooleanAND].
    rewrite (bind_run _ _ _ _ _ (board_read_run b w)).
    rewrite E. unfold is_base. rewrite orb_true_r. reflexivity.
Qed.

(** C8.  When the game has ended and the winner is the opposite colour,
    [Minimax] returns [(0, None)] having read the clock once for
    [start_time] and done nothing else, for any depth and any budget. *)
Theorem Minimax_already_lost fuel b depth c col (w : world) :
  check_game_end_gomoku (objects w b) = (true, col) ->
  col = opposite_color c ->
  Minimax time_time fuel b depth c w
  = Returns (0, None) (set_clock_reads (S (clock_reads w)) w).
Proof.
  intros E Ec. unfold Minimax.
  rewrite (bind_run _ _ _ _ _ (time_now_run time_time w)).
  rewrite (bind_run _ _ _ _ _ (board_read_run b _)).
  cbn [objects set_clock_reads]. rewrite E.
  apply pycolor_eqb_eq in Ec. rewrite Ec. reflexivity.
Qed.

Lemma is_base_recursive depth (moves : list point) :
  depth <> 0 -> moves <> [] -> is_base depth moves = false.
Proof.
  intros Hd Hm. unfold is_base. apply orb_false_intro.
  - now apply Z.eqb_neq.
  - destruct moves; [contradiction | reflexivity].
Qed.

(** C6, as the code has it.  With a time limit of 0, on a board that is not
    already decided for the opponent and has a legal move, and with a clock
    that has not gone back between the reading at the start and the reading
    of the first check, [Minimax] returns [(4, None)]; it has read the clock
    twice and done nothing else, whatever the budget of calls. *)
Theorem Minimax_zero_budget fuel b depth c (w : world) :
  TIME_LIMIT w = 0 ->
  decided_for_opponent (objects w b) c = false ->
  generate_legal_moves_gomoku (objects w b) <> [] ->
  (time_time (clock_reads w) <= time_time (S (clock_reads w)))%Q ->
  Minimax time_time fuel b depth c w
  = Returns (4, None) (set_clock_reads (S (S (clock_reads w))) w).
Proof.
  intros Ht Hd Hm Hc. unfold Minimax.
  rewrite (bind_run _ _ _ _ _ (time_now_run time_time w)).
  rewrite (bind_run _ _ _ _ _ (board_read_run b _)).
  cbn [objects set_clock_reads].
  unfold decided_for_opponent in Hd.
  destruct (check_game_end_gomoku _) as [win col]. rewrite Hd.
  destruct (generate_legal_moves_gomoku _) as [|move rest]; [contradiction|].
  rewrite Minimax_for_stops; [reflexivity|].
  cbn [TIME_LIMIT clock_reads set_clock_reads]. rewrite Ht.
  apply Qle_bool_iff. change (inject_Z 0) with 0%Q.
  unfold Qminus. apply (proj1 (Qle_minus_iff _ _)). exact Hc.
Qed.

(** C10, as the code has it.  In its recursive case the OR node returns a
    score that is not negative, and it does return when the depth is at
    least 1; when every child, as the node reads it, has a negative score,
    the score is 0.  That 0 is the score of a candidate of [Minimax] when the
    node sits two moves below the board [Minimax] was given, none of its
    children reads as a win, so that it returns [(False, color, 0)], and the
    move that leads to it is the first move of the AND node in between, in
    its recursive case, whose child does not prove a win.  [Minimax], when
    it returns anything but the time-out code on a board not already decided
    for the opponent, then returns the draw code [1], provided no candidate
    proves a win with a score above 0. *)
Theorem OR_score_not_negative fuel b depth c alpha beta (w : world) :
  (b < fresh w)%nat ->
  depth <> 0 ->
  generate_legal_moves_gomoku (objects w b) <> [] ->
  (forall win col points w',
      MinimaxBooleanOR (S fuel) b depth c alpha beta w
      = Returns (win, col, points) w' ->
      0 <= points /\
      ((forall move win' p,
           In move (generate_legal_moves_gomoku (objects w b)) ->
           OR_child fuel (objects w b) depth c move = Some (win', p) ->
           p < 0) ->
       points = 0)) /\
  (1 <= depth -> (Z.to_nat depth <= fuel)%nat ->
   exists v w', MinimaxBooleanOR (S fuel) b depth c alpha beta w = Returns v w') /\
  (forall db ddepth dc (dw dw' : world) code best_move m pre m2 post,
      (db < fresh dw)%nat ->
      Minimax time_time (S (S fuel)) db ddepth dc dw
      = Returns (code, best_move) dw' ->
      code <> 4 ->
      decided_for_opponent (objects dw db) dc = false ->
      In m (generate_legal_moves_gomoku (objects dw db)) ->
      ddepth - 1 <> 0 ->
      generate_legal_moves_gomoku (play_move_gomoku (objects dw db) m dc)
      = pre ++ m2 :: post ->
      (forall m', In m' pre ->
         exists p',
           AND_child (S fuel) (play_move_gomoku (objects dw db) m dc)
             (ddepth - 1) (opposite_color dc) m' = Some (true, p')) ->
      play_move_gomoku (play_move_gomoku (objects dw db) m dc) m2
        (opposite_color dc) = objects w b ->
      ddepth - 1 - 1 = depth ->
      opposite_color (opposite_color dc) = c ->
      (forall move,
          In move (generate_legal_moves_gomoku (objects w b)) ->
          exists p, OR_child fuel (objects w b) depth c move = Some (false, p) /\
                    p < 0) ->
      (exists w',
          MinimaxBooleanOR (S fuel) b depth c alpha beta w
          = Returns (false, c, 0) w') /\
      candidate (S (S fuel)) (objects dw db) ddepth dc m = Some (false, c, 0) /\
      ((forall m' col p,
           In m' (generate_legal_moves_gomoku (objects dw db)) ->
           candidate (S (S fuel)) (objects dw db) ddepth dc m'
           = Some (true, col, p) ->
           p <= 0) ->
       code = 1)).
Proof.
  intros L Hd Hm. split; [|split].
  - intros win col points w' E.
    apply OR_returned in E as [E _]; [|exact L].
    cbn [OR_value] in E. rewrite (is_base_recursive _ _ Hd Hm) in E. split.
    + now apply OR_fold_score in E.
    + intros Neg. eapply OR_fold_negative; [|exact E]. exact Neg.
  - intros H1 Hf. apply nodes_return; lia.
  - intros * Ld E N Dec Hin Hd1 Em Hpre Eb Ed Ec Hneg.
    assert (V : OR_value (S fuel) (objects w b) depth c = Some (false, c, 0)).
    { cbn [OR_value]. rewrite (is_base_recursive _ _ Hd Hm).
      apply OR_fold_no_win. exact Hneg. }
    assert (C : candidate (S (S fuel)) (objects dw db) ddepth dc m
                = Some (false, c, 0)).
    { unfold candidate. cbn [AND_value]. rewrite is_base_recursive;
        [|exact Hd1 | rewrite Em; now destruct pre].
      rewrite Em, <- Ec. apply AND_fold_refuted; [exact Hpre|].
      change (option_map (seen_from (opposite_color (opposite_color dc)))
                (OR_value (S fuel)
                   (play_move_gomoku (play_move_gomoku (objects dw db) m dc)
                      m2 (opposite_color dc))
                   (ddepth - 1 - 1) (opposite_color (opposite_color dc)))
              = Some (false, 0)).
      rewrite Eb, Ed, Ec, V. cbn [option_map]. unfold seen_from.
      now destruct (pycolor_eqb _ _). }
    split.
    { pose proof (proj1 (nodes_refine (S fuel)) b depth c alpha beta w L) as R.
      rewrite V in R. destruct R as [w' [R _]]. now exists w'. }
    split; [exact C|]. intros Hw.
    apply Minimax_not_timeout in E as [E _]; try assumption.
    unfold Minimax_value in E. rewrite Dec in E.
    eapply Minimax_fold_draw_code; [exact Hw | | right | exact E].
    + discriminate.
    + exists m, false, c. split; [exact Hin | exact C].
Qed.

(** C4, as the code has it.  In the recursive case of the AND node:
    the first child that, as the node reads it, does not prove a win decides
    the call, which returns [(False, opposite_color(color), points)] with
    that child's points, whatever the moves after it would give, even if
    exploring them would not return; the loop returns right after the [undo]
    that follows that child's call; and when every child proves a win the
    node returns [True] with the least of 10000 and the children's
    points. *)
Theorem AND_node_verdict fuel b depth c alpha beta (w : world) :
  (b < fresh w)%nat ->
  depth <> 0 ->
  (forall pre move post p,
      generate_legal_moves_gomoku (objects w b) = pre ++ move :: post ->
      (forall m, In m pre ->
         exists p', AND_child fuel (objects w b) depth c m = Some (true, p')) ->
      AND_child fuel (objects w b) depth c move = Some (false, p) ->
      exists w',
        MinimaxBooleanAND (S fuel) b depth c alpha beta w
        = Returns (false, opposite_color c, p) w' /\
        stack w' = stack w) /\
  (forall (OR : node) move rest worst_points win col points w3,
      OR b (depth - 1) (opposite_color c) alpha beta
        (played b move c (saved b w)) = Returns (win, col, points) w3 ->
      stack w3 = stack w ++ [fresh w] ->
      fst (seen_from (opposite_color c) (win, col, points)) = false ->
      AND_for OR depth c (move :: rest) b worst_points alpha beta w
      = Returns (false, opposite_color c,
                 snd (seen_from (opposite_color c) (win, col, points)))
          (undone (stack w) w3)) /\
  (forall scores,
      generate_legal_moves_gomoku (objects w b) <> [] ->
      Forall2 (fun m p => AND_child fuel (objects w b) depth c m = Some (true, p))
        (generate_legal_moves_gomoku (objects w b)) scores ->
      exists w',
        MinimaxBooleanAND (S fuel) b depth c alpha beta w
        = Returns (true, opposite_color c, fold_right Z.min 10000 scores) w' /\
        stack w' = stack w).
Proof.
  intros L Hd. split; [|split].
  - intros pre move post p Em Hpre Hmove.
    assert (Hv : AND_value (S fuel) (objects w b) depth c
                 = Some (false, opposite_color c, p)).
    { cbn [AND_value]. rewrite is_base_recursive; [|exact Hd|].
      - rewrite Em. now apply AND_fold_refuted.
      - rewrite Em. now destruct pre. }
    destruct (AND_computed _ _ _ _ alpha beta _ _ L Hv) as [w' [E [Es _]]].
    now exists w'.
  - intros OR move rest wp win col points w3 E Es Hs. cbn [AND_for].
    rewrite (bind_run _ _ _ _ _ (save_board_run b w)).
    rewrite (bind_run _ _ _ _ _ (board_play_run b move c _)).
    rewrite (bind_run _ _ _ _ _ E).
    unfold seen_from in *.
    destruct (pycolor_eqb col (opposite_color c)); cbn [fst snd] in *.
    + rewrite Hs. cbn [negb].
      now rewrite (bind_run _ _ _ _ _ (undo_run _ _ _ Es)).
    + cbn [negb]. now rewrite (bind_run _ _ _ _ _ (undo_run _ _ _ Es)).
  - intros scores Hm Hall.
    assert (Hv : AND_value (S fuel) (objects w b) depth c
                 = Some (true, opposite_color c, fold_right Z.min 10000 scores)).
    { cbn [AND_value]. rewrite is_base_recursive by assumption.
      rewrite <- fold_left_min_right. now apply AND_fold_all_win. }
    destruct (AND_computed _ _ _ _ alpha beta _ _ L Hv) as [w' [E [Es _]]].
    now exists w'.
Qed.

(** C1, as the code has it.  For a call of [Minimax] that returns anything
    but the time-out code, on a board not already decided for the opponent.
    Wins: a candidate that proves a win with a score above 0, above the score
    of every winning candidate before it and not below that of any winning
    candidate after it, is the move returned, with code [2]; so among winning
    candidates of the highest score the first is kept.  Draws: when no
    candidate proves a win with a score above 0, the move returned with
    code [1] is the last candidate whose score is 0; every later candidate
    of score 0 replaces an earlier one. *)
Theorem Minimax_tie_break fuel b depth c (w w' : world) code best_move
    pre move post :
  (b < fresh w)%nat ->
  Minimax time_time fuel b depth c w = Returns (code, best_move) w' ->
  code <> 4 ->
  decided_for_opponent (objects w b) c = false ->
  generate_legal_moves_gomoku (objects w b) = pre ++ move :: post ->
  (forall col p,
      candidate fuel (objects w b) depth c move = Some (true, col, p) ->
      0 < p ->
      (forall m col' p', In m pre ->
         candidate fuel (objects w b) depth c m = Some (true, col', p') ->
         p' < p) ->
      (forall m col' p', In m post ->
         candidate fuel (objects w b) depth c m = Some (true, col', p') ->
         p' <= p) ->
      code = 2 /\ best_move = Some move) /\
  (forall win col,
      candidate fuel (objects w b) depth c move = Some (win, col, 0) ->
      (forall m col' p', In m (pre ++ move :: post) ->
         candidate fuel (objects w b) depth c m = Some (true, col', p') ->
         p' <= 0) ->
      (forall m win' col' p', In m post ->
         candidate fuel (objects w b) depth c m = Some (win', col', p') ->
         p' <> 0) ->
      code = 1 /\ best_move = Some move).
Proof.
  intros L E N Dec Em.
  apply Minimax_not_timeout in E as [E _]; try assumption.
  unfold Minimax_value in E. rewrite Dec, Em in E. split.
  - intros col p Hmove Hp Hpre Hpost.
    eapply Minimax_fold_win in E; try eassumption.
    now injection E as -> ->.
  - intros win col Hmove Hw Hz.
    eapply Minimax_fold_draw in E; try eassumption; [|discriminate].
    now injection E as -> ->.
Qed.

(** The entry point: the board given to [Minimax] is a new copy, so no
    object that existed before the call is changed by it. *)
Lemma minimax_solve_refines fuel self_board (w : world) :
  (self_board < fresh w)%nat ->
  let kept w' :=
    stack w' = stack w /\ (fresh w <= fresh w')%nat /\
    (forall r, (r < fresh w)%nat -> objects w' r = objects w r) in
  (exists w',
      minimax_solve time_time fuel self_board w = Returns (4, None) w' /\
      kept w') \/
  match Minimax_value fuel (objects w self_board) 2
          (current_player (objects w self_board)) with
  | Some v =>
      exists w',
        minimax_solve time_time fuel self_board w = Returns v w' /\ kept w'
  | None => minimax_solve time_time fuel self_board w = OutOfFuel
  end.
Proof.
  intros L kept. unfold minimax_solve.
  assert (Ec : board_copy self_board w
               = Returns (fresh w)
                   (set_fresh (S (fresh w))
                      (set_objects (update (objects w) (fresh w)
                                      (objects w self_board)) w)))
    by reflexivity.
  rewrite (bind_run _ _ _ _ _ Ec). set (w1 := set_fresh _ _).
  rewrite (bind_run _ _ _ _ _ (board_read_run self_board w1)).
  assert (Es : objects w1 self_board = objects w self_board)
    by (cbn; apply update_other; lia).
  assert (Ea : objects w1 (fresh w) = objects w self_board)
    by (cbn; apply update_same).
  assert (L1 : (fresh w < fresh w1)%nat) by (cbn; lia).
  assert (K : forall w', frame (fresh w) w1 w' -> kept w').
  { intros w' (S' & F' & O' & _). cbn in S', F'. repeat split.
    - exact S'.
    - lia.
    - intros r Lr. rewrite O' by (cbn; lia). cbn. apply update_other. lia. }
  rewrite Es.
  pose proof (Minimax_refines time_time fuel (fresh w) 2
                (current_player (objects w self_board)) w1 L1) as H.
  rewrite Ea in H. destruct H as [[w' [E F]]|H].
  - left. exists w'. split; [exact E | now apply K].
  - right. destruct (Minimax_value _ _ _ _); [|exact H].
    destruct H as [w' [E F]]. exists w'. split; [exact E | now apply K].
Qed.

(** C9, as the code has it.  Two calls of [minimax_solve] in succession
    both return; the first leaves [self.board] and the stack as they were;
    and when neither call returns the time-out code, the two return the same
    pair. *)
Theorem minimax_solve_twice fuel self_board (w : world) :
  (self_board < fresh w)%nat ->
  (2 <= fuel)%nat ->
  exists r1 w1 r2 w2,
    minimax_solve time_time fuel self_board w = Returns r1 w1 /\
    minimax_solve time_time fuel self_board w1 = Returns r2 w2 /\
    objects w1 self_board = objects w self_board /\
    stack w1 = stack w /\
    (fst r1 <> 4 -> fst r2 <> 4 -> r1 = r2).
Proof.
  intros L Hf.
  assert (T : forall (w0 : world),
             exists v w', minimax_solve time_time fuel self_board w0
                          = Returns v w').
  { intros w0. unfold minimax_solve, bind, board_copy, board_read.
    apply Minimax_returns; [lia | exact Hf]. }
  destruct (T w) as [r1 [w1 E1]]. destruct (T w1) as [r2 [w2 E2]].
  exists r1, w1, r2, w2.
  assert (K1 : stack w1 = stack w /\ (fresh w <= fresh w1)%nat /\
               (forall r, (r < fresh w)%nat -> objects w1 r = objects w r) /\
               (fst r1 <> 4 ->
                Minimax_value fuel (objects w self_board) 2
                  (current_player (objects w self_board)) = Some r1)).
  { destruct (minimax_solve_refines fuel self_board w L) as [[w' [E K]]|H].
    - rewrite E1 in E. injection E as -> ->. destruct K as (Ks & Kf & Ko).
      repeat split; try assumption. intros N. now contradiction N.
    - destruct (Minimax_value _ _ _ _).
      + destruct H as [w' [E K]]. rewrite E1 in E. injection E as -> ->.
        destruct K as (Ks & Kf & Ko). repeat split; assumption || reflexivity.
      + rewrite E1 in H. discriminate. }
  destruct K1 as (Ks & Kf & Ko & Kv).
  assert (L' : (self_board < fresh w1)%nat) by lia.
  assert (K2 : fst r2 <> 4 ->
               Minimax_value fuel (objects w1 self_board) 2
                 (current_player (objects w1 self_board)) = Some r2).
  { destruct (minimax_solve_refines fuel self_board w1 L') as [[w' [E K]]|H].
    - rewrite E2 in E. injection E as -> ->. intros N. now contradiction N.
    - destruct (Minimax_value fuel (objects w1 self_board) _ _).
      + destruct H as [w' [E K]]. rewrite E2 in E. now injection E as -> ->.
      + rewrite E2 in H. discriminate. }
  rewrite (Ko _ L) in K2.
  repeat split; try assumption; [now apply Ko|].
  intros N1 N2. specialize (Kv N1). specialize (K2 N2). congruence.
Qed.

End Claims.

(** * Examples on the scripted board *)

(** C1: a run of the draw case; 12 is the last candidate of score 0. *)
Lemma Minimax_tie_break_witness :
  (0 < fresh (started two_left 1))%nat /\
  decided_for_opponent (objects (started two_left 1) 0) (Some BLACK) = false /\
  generate_legal_moves_gomoku (objects (started two_left 1) 0)
  = [11] ++ 12 :: [] /\
  candidate 2 (objects (started two_left 1) 0) 2 (Some BLACK) 12
  = Some (false, Some BLACK, 0) /\
  exists w',
    Minimax still_clock 2 0 2 (Some BLACK) (started two_left 1)
    = Returns (1, Some 12) w'.
Proof.
  assert (L : (0 < fresh (started two_left 1))%nat) by (cbn; lia).
  assert (D : decided_for_opponent (objects (started two_left 1) 0)
                (Some BLACK) = false) by evaluate.
  assert (G : generate_legal_moves_gomoku (objects (started two_left 1) 0)
              = [11] ++ 12 :: []) by evaluate.
  assert (C : candidate 2 (objects (started two_left 1) 0) 2 (Some BLACK) 12
              = Some (false, Some BLACK, 0)) by evaluate.
  split; [exact L|]. split; [exact D|]. split; [exact G|]. split; [exact C|].
  destruct (Minimax_returns still_clock 2 0 2 (Some BLACK) (started two_left 1))
    as [[code best_move] [w' E]]; [lia | cbn; lia |].
  assert (N : code <> 4).
  { assert (R : returned (Minimax still_clock 2 0 2 (Some BLACK)
                            (started two_left 1)) = Some (1, Some 12))
      by evaluate.
    rewrite E in R. cbn in R. injection R as -> _. discriminate. }
  destruct (proj2 (Minimax_tie_break still_clock 2 0 2 (Some BLACK) _ w' code
                     best_move [11] 12 [] L E N D G)
              false (Some BLACK) C) as [-> ->].
  - intros m col' p' [<-|[<-|[]]]; vm_compute; intros H; inversion H.
  - intros m win' col' p' [].
  - exists w'. exact E.
Defined.

(** C1: both candidates have score 0 and prove no win; the call returns the
    second one, 12, not the first. *)
Lemma later_draw_replaces_earlier :
  generate_legal_moves_gomoku two_left = [11; 12] /\
  candidate 2 two_left 2 (Some BLACK) 11 = Some (false, Some BLACK, 0) /\
  candidate 2 two_left 2 (Some BLACK) 12 = Some (false, Some BLACK, 0) /\
  returned (Minimax still_clock 2 0 2 (Some BLACK) (started two_left 1))
  = Some (1, Some 12).
Proof. evaluate. Qed.


(** C3: a call at depth 2 returns with the stack empty as before. *)
Lemma Minimax_stack_balance_witness :
  1 <= 2 /\ (Z.to_nat 2 <= 2)%nat /\
  exists v w',
    Minimax still_clock 2 0 2 (Some BLACK) (started two_left 1) = Returns v w' /\
    stack w' = [].
Proof.
  assert (H1 : 1 <= 2) by lia.
  assert (H2 : (Z.to_nat 2 <= 2)%nat) by (cbn; lia).
  split; [exact H1|]. split; [exact H2|].
  destruct (Minimax_stack_balance still_clock 2 0%nat 2 (Some BLACK)
              (started two_left 1)) as (_ & B & T).
  destruct (T H1 H2) as [v [w' E]]. exists v, w'. split; [exact E|].
  exact (proj1 (B v w' E)).
Defined.

(** C4: every child proves a win, here the only one, with 20000 points. *)
Lemma AND_node_verdict_witness :
  (0 < fresh (started last_point_wins 1))%nat /\ 1 <> 0 /\
  exists w',
    MinimaxBooleanAND 2 0 1 (Some WHITE) 0 0 (started last_point_wins 1)
    = Returns (true, Some BLACK, fold_right Z.min 10000 [20000]) w' /\
    stack w' = [].
Proof.
  assert (L : (0 < fresh (started last_point_wins 1))%nat) by (cbn; lia).
  assert (D : 1 <> 0) by discriminate.
  split; [exact L|]. split; [exact D|].
  refine (proj2 (proj2 (AND_node_verdict 1 0%nat 1 (Some WHITE) 0 0
                          (started last_point_wins 1) L D)) [20000] _ _).
  - discriminate.
  - repeat constructor.
Defined.

(** C4: the only child proves a win with 20000 points, and the node returns
    10000. *)
Lemma AND_score_capped :
  generate_legal_moves_gomoku last_point_wins = [5] /\
  AND_child 1 last_point_wins 1 (Some WHITE) 5 = Some (true, 20000) /\
  returned (MinimaxBooleanAND 2 0 1 (Some WHITE) 0 0 (started last_point_wins 1))
  = Some (true, Some BLACK, 10000).
Proof. evaluate. Qed.

(** C5: [undo] with nothing pushed. *)
Lemma undo_empty_raises_witness :
  stack (started full_board 1) = [] /\
  raised (undo (started full_board 1)) = Some IndexError.
Proof.
  assert (H : stack (started full_board 1) = []) by evaluate.
  split; [exact H|]. now rewrite (undo_empty_raises (started full_board 1) H).
Defined.

(** C5: the call raises and returns nothing, and a caller that would play
    on the board it asked for does not get to. *)
Lemma undo_empty_yields_nothing :
  returned (undo (started full_board 1)) = None /\
  raised (undo (started full_board 1)) = Some IndexError /\
  raised (bind undo (fun b => board_play b 5 (Some BLACK))
            (started full_board 1)) = Some IndexError.
Proof. evaluate. Qed.

(** C6: time limit 0 on a board with two candidates. *)
Lemma Minimax_zero_budget_witness :
  TIME_LIMIT (started two_left 0) = 0 /\
  Minimax still_clock 2 0 2 (Some BLACK) (started two_left 0)
  = Returns (4, None) (set_clock_reads 2 (started two_left 0)).
Proof.
  split; [evaluate|].
  refine (Minimax_zero_budget still_clock 2 0%nat 2 (Some BLACK)
            (started two_left 0) eq_refl eq_refl _ _).
  - discriminate.
  - vm_compute. discriminate.
Defined.

(** C6: time limit 0 on a full board: the loop has no iteration and no time
    check, and the call returns [(0, None)]. *)
Lemma zero_budget_without_moves :
  TIME_LIMIT (started full_board 0) = 0 /\
  generate_legal_moves_gomoku full_board = [] /\
  returned (Minimax still_clock 2 0 2 (Some BLACK) (started full_board 0))
  = Some (0, None).
Proof. evaluate. Qed.

(** C7: both nodes on the full board. *)
Lemma no_moves_base_case_witness :
  generate_legal_moves_gomoku (objects (started full_board 1) 0%nat) = [] /\
  returned (MinimaxBooleanOR 1 0 3 (Some BLACK) 0 0 (started full_board 1))
  = Some (false, Some BLACK, 0) /\
  MinimaxBooleanAND 1 0 3 (Some BLACK) 0 0 (started full_board 1)
  = Returns (false, Some BLACK, 0) (started full_board 1).
Proof.
  assert (H : generate_legal_moves_gomoku (objects (started full_board 1) 0%nat)
              = []) by evaluate.
  split; [exact H|].
  destruct (no_moves_base_case 0 0%nat 3 (Some BLACK) 0 0
              (started full_board 1) H) as [EO EA].
  split; [now rewrite EO | exact EA].
Defined.

(** C8: BLACK to move where WHITE has won. *)
Lemma Minimax_already_lost_witness :
  check_game_end_gomoku (objects (started white_has_won 1) 0%nat)
  = (true, Some WHITE) /\
  Minimax still_clock 0 0 2 (Some BLACK) (started white_has_won 1)
  = Returns (0, None) (set_clock_reads 1 (started white_has_won 1)).
Proof.
  split; [evaluate|].
  exact (Minimax_already_lost still_clock 0 0%nat 2 (Some BLACK) (Some WHITE)
           (started white_has_won 1) eq_refl eq_refl).
Defined.

(** C9: two calls in succession. *)
Lemma minimax_solve_twice_witness :
  (0 < fresh (started two_left 1))%nat /\ (2 <= 2)%nat /\
  exists r1 w1 r2 w2,
    minimax_solve late_clock 2 0 (started two_left 1) = Returns r1 w1 /\
    minimax_solve late_clock 2 0 w1 = Returns r2 w2 /\
    objects w1 0%nat = two_left /\ stack w1 = [].
Proof.
  assert (L : (0 < fresh (started two_left 1))%nat) by (cbn; lia).
  assert (F : (2 <= 2)%nat) by lia.
  split; [exact L|]. split; [exact F|].
  destruct (minimax_solve_twice late_clock 2 0%nat (started two_left 1) L F)
    as (r1 & w1 & r2 & w2 & E1 & E2 & Eo & Es & _).
  exists r1, w1, r2, w2. repeat split; assumption.
Defined.

(** C9: the clock jumps during the second call; the first call returns a
    draw at 12, the second the time-out code, with the board and the stack
    untouched in between. *)
Lemma second_call_times_out :
  returned
    (bind (minimax_solve late_clock 2 0)
       (fun r1 => bind (minimax_solve late_clock 2 0) (fun r2 => ret (r1, r2)))
       (started two_left 1))
  = Some ((1, Some 12), (4, None)) /\
  objects (state_after (minimax_solve late_clock 2 0 (started two_left 1))
             (started two_left 1)) 0%nat = two_left /\
  stack (state_after (minimax_solve late_clock 2 0 (started two_left 1))
           (started two_left 1)) = [].
Proof. evaluate. Qed.

(** C10: an OR node whose two children are both scored 5 for WHITE, that
    is -5 as the node reads them, returns the score 0; two moves above it,
    the driver at depth 3 gets that 0 as the score of its only candidate and
    returns the draw code. *)
Lemma OR_score_not_negative_witness :
  (0 < fresh (started threatened 1))%nat /\ 1 <> 0 /\
  generate_legal_moves_gomoku (objects (started threatened 1) 0) <> [] /\
  OR_child 1 threatened 1 (Some BLACK) 3 = Some (false, -5) /\
  OR_child 1 threatened 1 (Some BLACK) 4 = Some (false, -5) /\
  (exists win col w',
      MinimaxBooleanOR 2 0 1 (Some BLACK) 0 0 (started threatened 1)
      = Returns (win, col, 0) w') /\
  candidate 3 two_moves_before 3 (Some BLACK) 1 = Some (false, Some BLACK, 0) /\
  (exists best_move w',
      Minimax still_clock 3 0 3 (Some BLACK) (started two_moves_before 1)
      = Returns (1, best_move) w').
Proof.
  assert (L : (0 < fresh (started threatened 1))%nat) by (cbn; lia).
  assert (D : 1 <> 0) by discriminate.
  assert (G : generate_legal_moves_gomoku (objects (started threatened 1) 0)
              <> []) by discriminate.
  assert (C : candidate 3 (objects (started two_moves_before 1) 0) 3
                (Some BLACK) 1 = Some (false, Some BLACK, 0)) by evaluate.
  split; [exact L|]. split; [exact D|]. split; [exact G|].
  split; [evaluate|]. split; [evaluate|].
  destruct (OR_score_not_negative still_clock 1 0 1 (Some BLACK) 0 0
              (started threatened 1) L D G) as (S & T & Dr).
  split; [|split; [exact C|]].
  - destruct T as [[[win col] points] [w' E]]; [lia | cbn; lia |].
    exists win, col, w'. rewrite E. do 2 f_equal.
    refine (proj2 (S win col points w' E) _).
    intros move win' p [<-|[<-|[]]]; vm_compute; intros H; now inversion H.
  - destruct (Minimax_returns still_clock 3 0 3 (Some BLACK)
                (started two_moves_before 1))
      as [[code best_move] [w' E]]; [lia | cbn; lia |].
    assert (N : code <> 4).
    { assert (R : returned (Minimax still_clock 3 0 3 (Some BLACK)
                              (started two_moves_before 1)) = Some (1, Some 1))
        by evaluate.
      rewrite E in R. cbn in R. injection R as -> _. discriminate. }
    exists best_move, w'. rewrite E. do 2 f_equal.
    refine (proj2 (proj2 (Dr 0%nat 3 (Some BLACK) _ w' code best_move 1 [] 2 []
                            _ E N _ _ _ _ _ _ _ _ _)) _).
    + cbn; lia.
    + evaluate.
    + now left.
    + discriminate.
    + reflexivity.
    + intros m' [].
    + reflexivity.
    + reflexivity.
    + reflexivity.
    + intros move [<-|[<-|[]]]; exists (-5); split; evaluate.
    + intros m col p [<-|[]]; vm_compute; intros H; now inversion H.
Defined.

(** C10: an OR node's score 0 that the driver does not record as a draw.
    On [win_before_threat] the candidate 1 proves a win with 7 points; the
    candidate 2 gets the 0 of the OR node on [threatened], whose children
    both read as -5, and the driver returns the win at 1, not a draw.  On
    [before_hollow_threat] the OR node on [hollow_threat], whose children
    both read as -5, reports 0; the AND node above it goes on to its next
    child and returns -7, and the driver returns [(0, None)]. *)
Lemma OR_zero_is_not_always_a_draw :
  (play_move_gomoku (play_move_gomoku win_before_threat 2 (Some BLACK)) 3
     (Some WHITE) = threatened /\
   OR_child 1 threatened 1 (Some BLACK) 3 = Some (false, -5) /\
   OR_child 1 threatened 1 (Some BLACK) 4 = Some (false, -5) /\
   returned (MinimaxBooleanOR 2 0 1 (Some BLACK) 0 0 (started threatened 1))
   = Some (false, Some BLACK, 0) /\
   candidate 3 win_before_threat 3 (Some BLACK) 1 = Some (true, Some BLACK, 7) /\
   candidate 3 win_before_threat 3 (Some BLACK) 2 = Some (false, Some BLACK, 0) /\
   returned (Minimax still_clock 3 0 3 (Some BLACK)
               (started win_before_threat 1)) = Some (2, Some 1)) /\
  (play_move_gomoku (play_move_gomoku before_hollow_threat 1 (Some BLACK)) 2
     (Some WHITE) = hollow_threat /\
   OR_child 1 hollow_threat 1 (Some BLACK) 3 = Some (true, -5) /\
   OR_child 1 hollow_threat 1 (Some BLACK) 4 = Some (true, -5) /\
   returned (MinimaxBooleanOR 2 0 1 (Some BLACK) 0 0 (started hollow_threat 1))
   = Some (true, Some BLACK, 0) /\
   candidate 3 before_hollow_threat 3 (Some BLACK) 1
   = Some (true, Some BLACK, -7) /\
   returned (Minimax still_clock 3 0 3 (Some BLACK)
               (started before_hollow_threat 1)) = Some (0, None)).
Proof. evaluate. Qed.

(** * Further properties of the search *)

Section Shape.

Context {board : Type} {GB : GoBoard board}.
Variable time_time : nat -> Q.

Local Abbreviation world := (@world board).

Lemma recorded_step all move is_win best_move win best_points points :
  In move all ->
  recorded all is_win best_move ->
  recorded all
    (if negb ((if win && (best_points <? points) then 2 else is_win) =? 2)
        && (points =? 0)
     then 1 else if win && (best_points <? points) then 2 else is_win)
    (if negb ((if win && (best_points <? points) then 2 else is_win) =? 2)
        && (points =? 0)
     then Some move
     else if win && (best_points <? points) then Some move else best_move).
Proof.
  intros Hin R.
  destruct (win && (best_points <? points)).
  - cbn. right. split; [now right|]. now exists move.
  - destruct (negb (is_win =? 2) && (points =? 0)); [|exact R].
    right. split; [now left|]. now exists move.
Qed.

(** The loop of [Minimax], with a node that does not touch the clock: what
    it returns, how often it reads the clock, and when it reports a
    time-out. *)
Lemma Minimax_for_facts (AND : node) all :
  untimed_node AND ->
  forall moves start_time depth c b best_points best_move is_win alpha beta
         (w w' : world) code move,
    (forall m, In m moves -> In m all) ->
    recorded all is_win best_move ->
    Minimax_for time_time AND start_time depth c moves b best_points best_move
      is_win alpha beta w = Returns (code, move) w' ->
    TIME_LIMIT w' = TIME_LIMIT w /\
    (clock_reads w <= clock_reads w' <= clock_reads w + List.length moves)%nat /\
    ((recorded all code move /\
      forall n, (clock_reads w <= n < clock_reads w')%nat ->
                Qle_bool (inject_Z (TIME_LIMIT w)) (time_time n - start_time)
                = false) \/
     (code = 4 /\ move = None /\ (clock_reads w < clock_reads w')%nat /\
      Qle_bool (inject_Z (TIME_LIMIT w))
        (time_time (pred (clock_reads w')) - start_time) = true)).
Proof.
  intros HA. induction moves as [|m0 rest IH]; intros * Hall R E;
    cbn [Minimax_for] in E.
  - injection E as <- <- <-. split; [reflexivity|]. split; [cbn; lia|].
    left. split; [exact R|]. intros n Hn. lia.
  - rewrite (bind_run _ _ _ _ _ (time_now_run time_time w)) in E.
    rewrite (bind_run _ _ _ _ _ (get_TIME_LIMIT_run _)) in E.
    cbn [TIME_LIMIT set_clock_reads] in E.
    destruct (Qle_bool _ _) eqn:Q.
    + injection E as <- <- <-. cbn. split; [reflexivity|]. split; [lia|].
      right. repeat split; try lia. exact Q.
    + rewrite (bind_run _ _ _ _ _ (print_run _ _)) in E.
      rewrite (bind_run _ _ _ _ _ (save_board_run b _)) in E.
      rewrite (bind_run _ _ _ _ _ (board_play_run b m0 c _)) in E.
      apply bind_returned in E as ([[win col] points] & w3 & EA & E).
      apply bind_returned in E as (r & w4 & U & E).
      apply HA in EA. pose proof (untimed_iteration _ _ _ _ _ _ _ EA U) as [Tc Tl].
      cbn in Tc, Tl.
      apply IH in E; [| intros m Hm; apply Hall; now right
                      | apply recorded_step; [apply Hall; now left | exact R]].
      destruct E as (El & Ec & Ed). rewrite Tc in Ec. rewrite Tl in El, Ed.
      split; [exact El|]. split; [cbn [List.length]; lia|].
      destruct Ed as [[Rd Hn]|(-> & -> & Hlt & Hq)].
      * left. split; [exact Rd|]. intros n Hn'.
        destruct (Nat.eq_dec n (clock_reads w)) as [->|Ne]; [exact Q|].
        apply Hn. rewrite Tc. lia.
      * right. repeat split; try lia. exact Hq.
Qed.

(** What [Minimax] returns is what its loop has recorded, or the time-out
    code. *)
Lemma Minimax_recorded fuel b depth c (w w' : world) code move :
  Minimax time_time fuel b depth c w = Returns (code, move) w' ->
  recorded (generate_legal_moves_gomoku (objects w b)) code move \/
  (code = 4 /\ move = None).
Proof.
  intros E. unfold Minimax in E.
  rewrite (bind_run _ _ _ _ _ (time_now_run time_time w)) in E.
  rewrite (bind_run _ _ _ _ _ (board_read_run b _)) in E.
  cbn [objects set_clock_reads] in E.
  destruct (check_game_end_gomoku _) as [win col].
  destruct (win && _).
  - injection E as <- <- _. left. left. now split.
  - eapply (Minimax_for_facts _ (generate_legal_moves_gomoku (objects w b))
              (proj2 (nodes_untimed fuel))) in E;
      [| intros m Hm; exact Hm | left; now split].
    destruct E as (_ & _ & [[R _]|(-> & -> & _)]).
    + now left.
    + right. now split.
Qed.

(** X1.  [Minimax] returns one of the codes 0, 1, 2 and 4; it returns a
    move exactly with the codes 1 and 2, and that move is one of the legal
    moves of the board it was given.  (So the [move == None] branch of the
    win case in [minimax_solve] is never taken.) *)
Theorem Minimax_outcome_shape fuel b depth c (w w' : world) code move :
  Minimax time_time fuel b depth c w = Returns (code, move) w' ->
  (code = 0 /\ move = None) \/
  ((code = 1 \/ code = 2) /\
   exists m, move = Some m /\
             In m (generate_legal_moves_gomoku (objects w b))) \/
  (code = 4 /\ move = None).
Proof.
  intros E. apply Minimax_recorded in E.
  destruct E as [[[E0 En]|[E12 (m & Em & Hin)]]|[E4 En]].
  - left. now split.
  - right. left. split; [exact E12|]. exists m. now split.
  - right. right. now split.
Qed.

(** X2.  The prover nodes never read the clock and never change the time
    limit.  [Minimax] does not change the time limit either, and reads the
    clock once at its start and then at most once for each legal move. *)
Theorem clock_is_read_by_the_driver_only fuel b depth c (w w' : world) :
  (forall alpha beta v,
      MinimaxBooleanOR fuel b depth c alpha beta w = Returns v w' ->
      clock_reads w' = clock_reads w /\ TIME_LIMIT w' = TIME_LIMIT w) /\
  (forall alpha beta v,
      MinimaxBooleanAND fuel b depth c alpha beta w = Returns v w' ->
      clock_reads w' = clock_reads w /\ TIME_LIMIT w' = TIME_LIMIT w) /\
  (forall r,
      Minimax time_time fuel b depth c w = Returns r w' ->
      TIME_LIMIT w' = TIME_LIMIT w /\
      (clock_reads w < clock_reads w')%nat /\
      (clock_reads w'
       <= clock_reads w + 1
          + List.length (generate_legal_moves_gomoku (objects w b)))%nat).
Proof.
  split; [|split].
  - intros alpha beta v E. exact (proj1 (nodes_untimed fuel) _ _ _ _ _ _ _ _ E).
  - intros alpha beta v E. exact (proj2 (nodes_untimed fuel) _ _ _ _ _ _ _ _ E).
  - intros [code move] E. unfold Minimax in E.
    rewrite (bind_run _ _ _ _ _ (time_now_run time_time w)) in E.
    rewrite (bind_run _ _ _ _ _ (board_read_run b _)) in E.
    cbn [objects set_clock_reads] in E.
    destruct (check_game_end_gomoku _) as [win col].
    destruct (win && _).
    + injection E as _ _ <-. cbn. repeat split; lia.
    + eapply (Minimax_for_facts _ (generate_legal_moves_gomoku (objects w b))
                (proj2 (nodes_untimed fuel))) in E;
        [| intros m Hm; exact Hm | left; now split].
      destruct E as (El & Ec & _). cbn in El, Ec. repeat split; [exact El | lia..].
Qed.


End Shape.

Section Outcome.

Variable child : point -> option verdict.

(** Once some move ahead proves a win with more points than recorded, or a
    win is recorded already, the loop ends with the win code. *)
Lemma Minimax_fold_some_win moves :
  forall best_points best_move is_win code move,
    is_win = 2 \/
    (exists m col p, In m moves /\ child m = Some (true, col, p) /\
                     best_points < p) ->
    Minimax_fold child moves best_points best_move is_win = Some (code, move) ->
    code = 2.
Proof.
  induction moves as [|m0 moves IH]; intros * H E; cbn [Minimax_fold] in E.
  - injection E as <- _. destruct H as [H|(m & _ & _ & [] & _)]. exact H.
  - destruct (child m0) as [[[win0 col0] p0]|] eqn:E0; [|discriminate].
    eapply IH; [|exact E]. cbv zeta.
    destruct (win0 && (best_points <? p0)) eqn:B.
    + left. reflexivity.
    + destruct H as [->|(m & col & p & [<-|Hin] & Hm & Hp)].
      * left. reflexivity.
      * rewrite E0 in Hm. injection Hm as -> _ ->.
        apply Z.ltb_lt in Hp. rewrite Hp in B. discriminate.
      * right. exists m, col, p. repeat split; assumption.
Qed.

(** The verdict of the OR loop: a win if one was found before or some child
    proves one; the points are an upper bound of the children's and are
    those of a child unless they are the ones the loop started with. *)
Lemma OR_fold_verdict c moves :
  forall is_win best_points win col points,
    OR_fold child c moves is_win best_points = Some (win, col, points) ->
    (win = true <->
     is_win = true \/
     exists m p, In m moves /\
                 option_map (seen_from c) (child m) = Some (true, p)) /\
    (forall m w1 p, In m moves ->
                    option_map (seen_from c) (child m) = Some (w1, p) ->
                    p <= points) /\
    (points = best_points \/
     exists m w1, In m moves /\
                  option_map (seen_from c) (child m) = Some (w1, points)).
Proof.
  induction moves as [|m0 moves IH]; intros * E; cbn [OR_fold] in E.
  - injection E as <- _ <-. split; [|split].
    + split; [now left | intros [H|(m & _ & [] & _)]; exact H].
    + intros m w1 p [].
    + now left.
  - destruct (child m0) as [v|] eqn:E0; [|discriminate].
    destruct (seen_from c v) as [win0 p0] eqn:Es.
    pose proof (OR_fold_score _ _ _ _ _ _ _ _ E) as [Hle _].
    apply IH in E as (Hw & Hub & Hat). split; [|split].
    + rewrite Hw. split.
      * intros [H|(m & p & Hin & Hm)].
        -- destruct win0; [|now left]. right. exists m0, p0.
           split; [now left|]. rewrite E0. cbn. now rewrite Es.
        -- right. exists m, p. split; [now right | exact Hm].
      * intros [->|(m & p & [<-|Hin] & Hm)].
        -- left. now destruct win0.
        -- rewrite E0 in Hm. cbn in Hm. rewrite Es in Hm.
           injection Hm as -> _. now left.
        -- right. now exists m, p.
    + intros m w1 p [<-|Hin] Hm.
      * rewrite E0 in Hm. cbn in Hm. rewrite Es in Hm. injection Hm as _ <-.
        destruct (best_points <? p0) eqn:Lt;
          [|apply Z.ltb_ge in Lt]; lia.
      * eapply Hub; eassumption.
    + destruct Hat as [->|(m & w1 & Hin & Hm)].
      * destruct (best_points <? p0); [|now left].
        right. exists m0, win0. split; [now left|].
        rewrite E0. cbn. now rewrite Es.
      * right. exists m, w1. split; [now right | exact Hm].
Qed.

End Outcome.

Section Contents.

Context {board : Type} {GB : GoBoard board}.
Variable time_time : nat -> Q.

Local Abbreviation world := (@world board).

(** X4.  For a call of [Minimax] that returns anything but the time-out
    code, on a board not already decided for the opponent: a candidate that
    proves a win with a score above 0 makes the result a win, whatever draws
    were recorded before it; and when no candidate proves such a win and
    none has the score 0, the result is [(0, None)]. *)
Theorem Minimax_outcome_code fuel b depth c (w w' : world) code move :
  (b < fresh w)%nat ->
  Minimax time_time fuel b depth c w = Returns (code, move) w' ->
  code <> 4 ->
  decided_for_opponent (objects w b) c = false ->
  ((exists m col p,
       In m (generate_legal_moves_gomoku (objects w b)) /\
       candidate fuel (objects w b) depth c m = Some (true, col, p) /\
       0 < p) ->
   code = 2) /\
  ((forall m col p,
       In m (generate_legal_moves_gomoku (objects w b)) ->
       candidate fuel (objects w b) depth c m = Some (true, col, p) ->
       p <= 0) ->
   (forall m win col p,
       In m (generate_legal_moves_gomoku (objects w b)) ->
       candidate fuel (objects w b) depth c m = Some (win, col, p) ->
       p <> 0) ->
   code = 0 /\ move = None).
Proof.
  intros L E N Dec.
  apply Minimax_not_timeout in E as [E _]; try assumption.
  unfold Minimax_value in E. rewrite Dec in E. split.
  - intros H. eapply Minimax_fold_some_win; [right; exact H | exact E].
  - intros Hw Hz. eapply Minimax_fold_undecided in E; try eassumption.
    + now injection E as -> ->.
    + discriminate.
Qed.

(** X5.  The bounds [alpha] and [beta] have no effect on what the nodes
    return. *)
Theorem bounds_are_ignored fuel b depth c alpha beta alpha' beta' (w : world) :
  (b < fresh w)%nat ->
  returned (MinimaxBooleanOR fuel b depth c alpha beta w)
  = returned (MinimaxBooleanOR fuel b depth c alpha' beta' w) /\
  returned (MinimaxBooleanAND fuel b depth c alpha beta w)
  = returned (MinimaxBooleanAND fuel b depth c alpha' beta' w).
Proof.
  intros L. split.
  - pose proof (proj1 (nodes_refine fuel) b depth c alpha beta w L) as H1.
    pose proof (proj1 (nodes_refine fuel) b depth c alpha' beta' w L) as H2.
    destruct (OR_value _ _ _ _).
    + destruct H1 as [w1 [-> _]]. now destruct H2 as [w2 [-> _]].
    + now rewrite H1, H2.
  - pose proof (proj2 (nodes_refine fuel) b depth c alpha beta w L) as H1.
    pose proof (proj2 (nodes_refine fuel) b depth c alpha' beta' w L) as H2.
    destruct (AND_value _ _ _ _).
    + destruct H1 as [w1 [-> _]]. now destruct H2 as [w2 [-> _]].
    + now rewrite H1, H2.
Qed.

(** X6.  In its recursive case the OR node looks at every child: it
    reports its own colour, a win exactly when some child, as the node reads
    it, proves a win, and points that no child exceeds and that are 0 or
    those of some child. *)
Theorem OR_node_verdict fuel b depth c alpha beta (w w' : world)
    win col points :
  (b < fresh w)%nat ->
  depth <> 0 ->
  generate_legal_moves_gomoku (objects w b) <> [] ->
  MinimaxBooleanOR (S fuel) b depth c alpha beta w
  = Returns (win, col, points) w' ->
  col = c /\
  (win = true <->
   exists m p, In m (generate_legal_moves_gomoku (objects w b)) /\
               OR_child fuel (objects w b) depth c m = Some (true, p)) /\
  (forall m w1 p, In m (generate_legal_moves_gomoku (objects w b)) ->
                  OR_child fuel (objects w b) depth c m = Some (w1, p) ->
                  p <= points) /\
  (points = 0 \/
   exists m w1, In m (generate_legal_moves_gomoku (objects w b)) /\
                OR_child fuel (objects w b) depth c m = Some (w1, points)).
Proof.
  intros L Hd Hm E.
  apply OR_returned in E as [E _]; [|exact L].
  cbn [OR_value] in E. rewrite (is_base_recursive _ _ Hd Hm) in E.
  pose proof (OR_fold_score _ _ _ _ _ _ _ _ E) as [_ Hc].
  apply OR_fold_verdict in E as (Hw & Hub & Hat).
  split; [exact Hc|]. split; [|split; [exact Hub | exact Hat]].
  rewrite Hw. split.
  - intros [H|H]; [discriminate | exact H].
  - intros H. now right.
Qed.

Lemma refines_frame (f : node) fv b depth c alpha beta (w w' : world) v :
  refines f fv -> (b < fresh w)%nat ->
  f b depth c alpha beta w = Returns v w' -> frame b w w'.
Proof.
  intros Hf L E. specialize (Hf b depth c alpha beta w L).
  destruct (fv _ _ _).
  - destruct Hf as [w1 [E1 F1]]. rewrite E in E1. now injection E1 as _ <-.
  - rewrite E in Hf. discriminate.
Qed.

Lemma OR_for_frame (AND : node) ANDv moves depth c b is_win best_points
    alpha beta (w w' : world) v :
  refines AND ANDv -> (b < fresh w)%nat ->
  OR_for AND depth c moves b is_win best_points alpha beta w = Returns v w' ->
  frame b w w'.
Proof.
  intros HA L E.
  pose proof (OR_for_refines AND ANDv HA moves depth c b is_win best_points
                alpha beta w (objects w b) L eq_refl) as H.
  destruct (OR_fold _ _ _ _ _).
  - destruct H as [w1 [E1 F1]]. rewrite E in E1. now injection E1 as _ <-.
  - rewrite E in H. discriminate.
Qed.

Lemma AND_for_frame (OR : node) ORv moves depth c b worst_points
    alpha beta (w w' : world) v :
  refines OR ORv -> (b < fresh w)%nat ->
  AND_for OR depth c moves b worst_points alpha beta w = Returns v w' ->
  frame b w w'.
Proof.
  intros HO L E.
  pose proof (AND_for_refines OR ORv HO moves depth c b worst_points
                alpha beta w (objects w b) L eq_refl) as H.
  destruct (AND_fold _ _ _ _).
  - destruct H as [w1 [E1 F1]]. rewrite E in E1. now injection E1 as _ <-.
  - rewrite E in H. discriminate.
Qed.

Lemma Minimax_for_frame (AND : node) ANDv moves start_time depth c b
    best_points best_move is_win alpha beta (w w' : world) v :
  refines AND ANDv -> (b < fresh w)%nat ->
  Minimax_for time_time AND start_time depth c moves b best_points best_move
    is_win alpha beta w = Returns v w' ->
  frame b w w'.
Proof.
  intros HA L E.
  destruct (Minimax_for_refines time_time AND ANDv HA moves start_time depth c
              b best_points best_move is_win alpha beta w (objects w b) L
              eq_refl) as [[w1 [E1 F1]]|H].
  - rewrite E in E1. now injection E1 as _ <-.
  - destruct (Minimax_fold _ _ _ _ _).
    + destruct H as [w1 [E1 F1]]. rewrite E in E1. now injection E1 as _ <-.
    + rewrite E in H. discriminate.
Qed.

(** After the first iteration of a loop the object the loop was entered
    with is not touched again: the later iterations work on copies. *)
Lemma later_iterations_elsewhere b move c (w w3 w' : world) r w4 :
  (b < fresh w)%nat ->
  frame b (played b move c (saved b w)) w3 ->
  undo w3 = Returns r w4 ->
  (r < fresh w4)%nat /\
  (frame r w4 w' -> objects w' b = objects w3 b).
Proof.
  intros L F3 U.
  rewrite (undo_after_frame _ _ _ _ _ F3) in U. injection U as <- <-.
  destruct (next_board _ _ _ _ _ L F3) as [L4 _]. split; [exact L4|].
  intros (_ & _ & O' & _). rewrite O'; [reflexivity | | lia].
  destruct F3 as (_ & F3 & _). cbn in F3 |- *. lia.
Qed.

Lemma nodes_line fuel :
  (forall b depth c alpha beta (w w' : world) v,
      (b < fresh w)%nat ->
      MinimaxBooleanOR fuel b depth c alpha beta w = Returns v w' ->
      objects w' b = OR_line fuel (objects w b) depth c) /\
  (forall b depth c alpha beta (w w' : world) v,
      (b < fresh w)%nat ->
      MinimaxBooleanAND fuel b depth c alpha beta w = Returns v w' ->
      objects w' b = AND_line fuel (objects w b) depth c).
Proof.
  induction fuel as [|fuel [IHO IHA]].
  - split; intros * L E; discriminate.
  - destruct (nodes_refine fuel) as [RO RA].
    split; intros * L E.
    + cbn [MinimaxBooleanOR] in E. cbn [OR_line].
      rewrite (bind_run _ _ _ _ _ (board_read_run b w)) in E.
      rewrite (bind_run _ _ _ _ _ (get_TIME_LIMIT_run w)) in E.
      rewrite (bind_run _ _ _ _ _ (print_run _ w)) in E.
      destruct (is_base depth _) eqn:Eb.
      * assert (w' = set_stdout (stdout w ++ [PInt (TIME_LIMIT w)]) w) as ->
            by (destruct (generate_legal_moves_gomoku _); now injection E as _ <-).
        reflexivity.
      * destruct (generate_legal_moves_gomoku (objects w b)) as [|move rest];
          [apply is_base_false in Eb as [_ Eb]; now contradiction Eb|].
        set (w1 := set_stdout _ w) in E.
        assert (L1 : (b < fresh w1)%nat) by exact L.
        cbn [OR_for] in E.
        rewrite (bind_run _ _ _ _ _ (save_board_run b w1)) in E.
        rewrite (bind_run _ _ _ _ _ (board_play_run b move c _)) in E.
        apply bind_returned in E as ([[win col] points] & w3 & EA & E).
        apply bind_returned in E as (r & w4 & U & E).
        assert (L2 : (b < fresh (played b move c (saved b w1)))%nat)
          by (cbn; lia).
        pose proof (refines_frame _ _ _ _ _ _ _ _ _ _ RA L2 EA) as F3.
        apply IHA in EA; [|exact L2].
        rewrite played_saved_board in EA by exact L1.
        destruct (later_iterations_elsewhere _ _ _ _ _ w' _ _ L1 F3 U) as [L4 K].
        rewrite K; [exact EA|]. eapply OR_for_frame; eassumption.
    + cbn [MinimaxBooleanAND] in E. cbn [AND_line].
      rewrite (bind_run _ _ _ _ _ (board_read_run b w)) in E.
      destruct (is_base depth _) eqn:Eb.
      * assert (w' = w) as ->
            by (destruct (generate_legal_moves_gomoku _); now injection E as _ <-).
        reflexivity.
      * destruct (generate_legal_moves_gomoku (objects w b)) as [|move rest];
          [apply is_base_false in Eb as [_ Eb]; now contradiction Eb|].
        cbn [AND_for] in E.
        rewrite (bind_run _ _ _ _ _ (save_board_run b w)) in E.
        rewrite (bind_run _ _ _ _ _ (board_play_run b move c _)) in E.
        apply bind_returned in E as ([[win col] points] & w3 & EO & E).
        assert (L2 : (b < fresh (played b move c (saved b w)))%nat)
          by (cbn; lia).
        pose proof (refines_frame _ _ _ _ _ _ _ _ _ _ RO L2 EO) as F3.
        apply IHO in EO; [|exact L2].
        rewrite played_saved_board in EO by exact L.
        cbv zeta in E.
        match type of E with context [if ?t then _ else _] => destruct t end;
          apply bind_returned in E as (r & w4 & U & E).
        -- injection E as _ <-.
           rewrite (undo_after_frame _ _ _ _ _ F3) in U. now injection U as _ <-.
        -- destruct (later_iterations_elsewhere _ _ _ _ _ w' _ _ L F3 U)
             as [L4 K].
           rewrite K; [exact EO|].
           eapply AND_for_frame; [exact RO | eassumption..].
Qed.

Lemma Minimax_frame fuel b depth c (w w' : world) r :
  (b < fresh w)%nat ->
  Minimax time_time fuel b depth c w = Returns r w' ->
  frame b w w'.
Proof.
  intros L E.
  destruct (Minimax_refines time_time fuel b depth c w L) as [[w1 [E1 F1]]|H].
  - rewrite E in E1. now injection E1 as _ <-.
  - destruct (Minimax_value _ _ _ _).
    + destruct H as [w1 [E1 F1]]. rewrite E in E1. now injection E1 as _ <-.
    + rewrite E in H. discriminate.
Qed.

(** With a time limit of 0 or less, the first time check stops the call. *)
Lemma Minimax_without_budget fuel b depth c (w : world) :
  TIME_LIMIT w <= 0 ->
  decided_for_opponent (objects w b) c = false ->
  generate_legal_moves_gomoku (objects w b) <> [] ->
  (time_time (clock_reads w) <= time_time (S (clock_reads w)))%Q ->
  Minimax time_time fuel b depth c w
  = Returns (4, None) (set_clock_reads (S (S (clock_reads w))) w).
Proof.
  intros Ht Hd Hm Hc. unfold Minimax.
  rewrite (bind_run _ _ _ _ _ (time_now_run time_time w)).
  rewrite (bind_run _ _ _ _ _ (board_read_run b _)).
  cbn [objects set_clock_reads].
  unfold decided_for_opponent in Hd.
  destruct (check_game_end_gomoku _) as [win col]. rewrite Hd.
  destruct (generate_legal_moves_gomoku _) as [|move rest]; [contradiction|].
  rewrite Minimax_for_stops; [reflexivity|].
  cbn [TIME_LIMIT clock_reads set_clock_reads].
  apply Qle_bool_iff. apply Qle_trans with 0%Q.
  - change 0%Q with (inject_Z 0). rewrite <- Zle_Qle. exact Ht.
  - unfold Qminus. apply (proj1 (Qle_minus_iff _ _)). exact Hc.
Qed.

(** X7.  A call of [Minimax] changes no board object that existed before
    the call other than the one it was given, allocates objects only above
    the existing ones, and leaves the stack and the time limit as they
    were. *)
Theorem Minimax_keeps_other_boards fuel b depth c (w w' : world) r :
  (b < fresh w)%nat ->
  Minimax time_time fuel b depth c w = Returns r w' ->
  (forall b', (b' < fresh w)%nat -> b' <> b -> objects w' b' = objects w b') /\
  (fresh w <= fresh w')%nat /\
  stack w' = stack w /\
  TIME_LIMIT w' = TIME_LIMIT w.
Proof.
  intros L E.
  assert (F : frame b w w').
  { destruct (Minimax_refines time_time fuel b depth c w L) as [[w1 [E1 F1]]|H].
    - rewrite E in E1. now injection E1 as _ <-.
    - destruct (Minimax_value _ _ _ _).
      + destruct H as [w1 [E1 F1]]. rewrite E in E1. now injection E1 as _ <-.
      + rewrite E in H. discriminate. }
  destruct F as (Fs & Ff & Fo & Ft). repeat split; assumption.
Qed.

(** X8.  [Minimax] does not restore the board it was given.  When the
    board is not already decided for the opponent and has a legal move, a
    call that went past its first time check, as one that returns a code
    other than 4 or has read the clock more than twice has, leaves the
    object with the first legal move played on it and then the first line of
    play below it; at depth 1, with just the first legal move. *)
Theorem Minimax_plays_on_its_argument fuel b depth c (w w' : world) code
    best_move move rest :
  (b < fresh w)%nat ->
  decided_for_opponent (objects w b) c = false ->
  generate_legal_moves_gomoku (objects w b) = move :: rest ->
  Minimax time_time fuel b depth c w = Returns (code, best_move) w' ->
  code <> 4 \/ (clock_reads w + 2 < clock_reads w')%nat ->
  objects w' b
  = AND_line fuel (play_move_gomoku (objects w b) move c) (depth - 1)
      (opposite_color c) /\
  (depth = 1 -> objects w' b = play_move_gomoku (objects w b) move c).
Proof.
  intros L Dec Em E Past.
  assert (K : objects w' b
              = AND_line fuel (play_move_gomoku (objects w b) move c)
                  (depth - 1) (opposite_color c)).
  { unfold Minimax in E.
    rewrite (bind_run _ _ _ _ _ (time_now_run time_time w)) in E.
    rewrite (bind_run _ _ _ _ _ (board_read_run b _)) in E.
    cbn [objects set_clock_reads] in E.
    unfold decided_for_opponent in Dec.
    destruct (check_game_end_gomoku _) as [win col]. rewrite Dec, Em in E.
    cbn [Minimax_for] in E.
    rewrite (bind_run _ _ _ _ _ (time_now_run time_time _)) in E.
    rewrite (bind_run _ _ _ _ _ (get_TIME_LIMIT_run _)) in E.
    cbn [TIME_LIMIT clock_reads set_clock_reads] in E.
    destruct (Qle_bool _ _) eqn:Q.
    { injection E as <- _ <-. cbn in Past.
      destruct Past as [N|N]; [now contradiction N | lia]. }
    rewrite (bind_run _ _ _ _ _ (print_run _ _)) in E.
    set (w1 := set_stdout _ _) in E.
    assert (L1 : (b < fresh w1)%nat) by exact L.
    rewrite (bind_run _ _ _ _ _ (save_board_run b w1)) in E.
    rewrite (bind_run _ _ _ _ _ (board_play_run b move c _)) in E.
    apply bind_returned in E as ([[win1 col1] points] & w3 & EA & E).
    apply bind_returned in E as (u & w4 & U & E).
    assert (L2 : (b < fresh (played b move c (saved b w1)))%nat) by (cbn; lia).
    pose proof (refines_frame _ _ _ _ _ _ _ _ _ _
                  (proj2 (nodes_refine fuel)) L2 EA) as F3.
    apply (proj2 (nodes_line fuel)) in EA; [|exact L2].
    rewrite played_saved_board in EA by exact L1.
    destruct (later_iterations_elsewhere _ _ _ _ _ w' _ _ L1 F3 U) as [L4 K].
    rewrite K; [exact EA|].
    eapply Minimax_for_frame; [exact (proj2 (nodes_refine fuel)) | |];
      eassumption. }
  split; [exact K|]. intros ->. rewrite K.
  destruct fuel; [reflexivity|]. reflexivity.
Qed.

End Contents.

Section Snapshots.

Context {board : Type} {GB : GoBoard board}.
Variable time_time : nat -> Q.

Local Abbreviation world := (@world board).

(** X9.  A snapshot is independent of the board it was taken of:
    [save_board(board)], then a move played on [board], then [undo()] gives
    an object other than [board] that holds the contents [board] had before
    the move, while [board] holds the contents after the move; the stack is
    as it was before. *)
Theorem snapshot_survives_the_move b move c (w : world) :
  (b < fresh w)%nat ->
  exists w',
    bind (save_board b) (fun _ => bind (board_play b move c) (fun _ => undo)) w
    = Returns (fresh w) w' /\
    fresh w <> b /\
    objects w' (fresh w) = objects w b /\
    objects w' b = play_move_gomoku (objects w b) move c /\
    stack w' = stack w.
Proof.
  intros L.
  rewrite (bind_run _ _ _ _ _ (save_board_run b w)).
  rewrite (bind_run _ _ _ _ _ (board_play_run b move c _)).
  assert (Es : stack (played b move c (saved b w)) = stack w ++ [fresh w])
    by reflexivity.
  rewrite (undo_run _ _ _ Es). eexists. split; [reflexivity|].
  split; [lia|]. split; [|split].
  - now apply played_saved_copy.
  - now apply played_saved_board.
  - reflexivity.
Qed.

(** X10.  The stack is last in, first out: after [save_board(a)] and
    [save_board(b)], the first [undo()] gives the contents of [b] and the
    second those of [a], and the stack is as it was before. *)
Theorem snapshots_are_last_in_first_out a b (w : world) :
  (a < fresh w)%nat -> (b < fresh w)%nat ->
  exists x y w',
    bind (save_board a)
      (fun _ => bind (save_board b)
         (fun _ => bind undo (fun x => bind undo (fun y => ret (x, y))))) w
    = Returns (x, y) w' /\
    objects w' x = objects w b /\
    objects w' y = objects w a /\
    stack w' = stack w.
Proof.
  intros La Lb.
  rewrite (bind_run _ _ _ _ _ (save_board_run a w)).
  rewrite (bind_run _ _ _ _ _ (save_board_run b _)).
  assert (E1 : stack (saved b (saved a w)) = (stack w ++ [fresh w])
                                             ++ [S (fresh w)]) by reflexivity.
  rewrite (bind_run _ _ _ _ _ (undo_run _ _ _ E1)).
  assert (E2 : stack (undone (stack w ++ [fresh w]) (saved b (saved a w)))
               = stack w ++ [fresh w]) by reflexivity.
  rewrite (bind_run _ _ _ _ _ (undo_run _ _ _ E2)).
  eexists _, _, _. split; [reflexivity|]. cbn. split; [|split].
  - rewrite update_same. rewrite update_other by lia. reflexivity.
  - rewrite update_other by lia. now rewrite update_same.
  - reflexivity.
Qed.

Lemma minimax_solve_kept fuel self_board (w w' : world) r :
  (self_board < fresh w)%nat ->
  minimax_solve time_time fuel self_board w = Returns r w' ->
  stack w' = stack w /\ (fresh w <= fresh w')%nat /\
  (forall b, (b < fresh w)%nat -> objects w' b = objects w b).
Proof.
  intros L E.
  destruct (minimax_solve_refines time_time fuel self_board w L)
    as [[w1 [E1 K]]|H].
  - rewrite E in E1. now injection E1 as _ <-.
  - destruct (Minimax_value _ _ _ _).
    + destruct H as [w1 [E1 K]]. rewrite E in E1. now injection E1 as _ <-.
    + rewrite E in H. discriminate.
Qed.

(** X11.  The search does not disturb a snapshot taken before it:
    [save_board(self.board)], then [minimax_solve], then [undo()] gives an
    object with the contents of [self.board], which is itself unchanged,
    and the stack is as it was before. *)
Theorem push_solve_undo fuel self_board (w : world) :
  (self_board < fresh w)%nat ->
  (2 <= fuel)%nat ->
  exists r u w',
    bind (save_board self_board)
      (fun _ => bind (minimax_solve time_time fuel self_board)
         (fun r => bind undo (fun u => ret (r, u)))) w
    = Returns (r, u) w' /\
    objects w' u = objects w self_board /\
    objects w' self_board = objects w self_board /\
    stack w' = stack w.
Proof.
  intros L Hf.
  rewrite (bind_run _ _ _ _ _ (save_board_run self_board w)).
  set (w1 := saved self_board w).
  assert (L1 : (self_board < fresh w1)%nat) by (cbn; lia).
  assert (T : exists r w2, minimax_solve time_time fuel self_board w1
                           = Returns r w2).
  { unfold minimax_solve, bind, board_copy, board_read.
    apply Minimax_returns; [lia | exact Hf]. }
  destruct T as [r [w2 E]].
  rewrite (bind_run _ _ _ _ _ E).
  destruct (minimax_solve_kept _ _ _ _ _ L1 E) as (Ks & Kf & Ko).
  assert (Es : stack w2 = stack w ++ [fresh w]) by (rewrite Ks; reflexivity).
  rewrite (bind_run _ _ _ _ _ (undo_run _ _ _ Es)).
  exists r, (fresh w), (undone (stack w) w2). split; [reflexivity|].
  cbn [objects undone stack]. split; [|split; [|reflexivity]].
  - rewrite Ko by (cbn; lia). cbn. apply update_same.
  - rewrite Ko by exact L1. cbn. apply update_other. lia.
Qed.

End Snapshots.

(** * Properties of the text protocol functions *)

Section Numbers.

Lemma digit_facts c :
  is_digit c = true ->
  is_space c = false /\ (c =? "_")%char = false /\ (c =? "+")%char = false /\
  (c =? "-")%char = false /\ lower_char c = c.
Proof.
  destruct c as [[] [] [] [] [] [] [] []]; vm_compute; intros H;
    first [discriminate H | repeat split].
Qed.

Lemma digits_of_uint d : digits_only (NilEmpty.string_of_uint d) = true.
Proof. induction d; cbn [NilEmpty.string_of_uint digits_only]; auto. Qed.

Lemma lstrip_digits s : digits_only s = true -> lstrip s = s.
Proof.
  destruct s as [|c s]; [reflexivity|]. cbn. intros H.
  apply andb_prop in H as [Hc _]. now rewrite (proj1 (digit_facts c Hc)).
Qed.

Lemma rstrip_digits s : digits_only s = true -> rstrip s = s.
Proof.
  induction s as [|c s IH]; [reflexivity|]. cbn. intros H.
  apply andb_prop in H as [Hc Hs]. rewrite (IH Hs).
  destruct s; [|reflexivity]. now rewrite (proj1 (digit_facts c Hc)).
Qed.

Lemma grouped_digits_only s after :
  digits_only s = true ->
  grouped_digits s after = match s with EmptyString => after | _ => true end.
Proof.
  revert after. induction s as [|c s IH]; intros after H; [reflexivity|].
  cbn in H |- *. apply andb_prop in H as [Hc Hs]. rewrite Hc, (IH true Hs).
  now destruct s.
Qed.

Lemma without_underscores_digits s :
  digits_only s = true -> without_underscores s = s.
Proof.
  induction s as [|c s IH]; [reflexivity|]. cbn. intros H.
  apply andb_prop in H as [Hc Hs].
  destruct (digit_facts c Hc) as (_ & -> & _). now rewrite (IH Hs).
Qed.

Lemma lower_digits s : digits_only s = true -> lower s = s.
Proof.
  induction s as [|c s IH]; [reflexivity|]. cbn. intros H.
  apply andb_prop in H as [Hc Hs].
  destruct (digit_facts c Hc) as (_ & _ & _ & _ & ->). now rewrite (IH Hs).
Qed.

(** The digits of a positive number. *)
Lemma str_pos p :
  str (Z.pos p) = NilEmpty.string_of_uint (Pos.to_uint p) /\
  str (Z.pos p) <> EmptyString /\
  Z.of_uint (Pos.to_uint p) = Z.pos p.
Proof.
  pose proof (DecimalZ.of_to (Z.pos p)) as H. cbn in H.
  unfold str. cbn [Z.to_int NilZero.string_of_int].
  destruct (Pos.to_uint p) eqn:E; try discriminate H;
    (split; [reflexivity | split; [discriminate | exact H]]).
Qed.

Lemma int_of_digits_pos p : int_of_digits (str (Z.pos p)) = Some (Z.pos p).
Proof.
  destruct (str_pos p) as (E & N & V). unfold int_of_digits.
  rewrite E in *. pose proof (digits_of_uint (Pos.to_uint p)) as D.
  rewrite (grouped_digits_only _ false D), (without_underscores_digits _ D).
  destruct (NilEmpty.string_of_uint (Pos.to_uint p)) eqn:Es;
    [now contradiction N|].
  rewrite <- Es, NilEmpty.usu. cbn. now rewrite V.
Qed.

(** [int(str(n)) == n] for every integer [n]. *)
Lemma int_str n : int (str n) = Some n.
Proof.
  destruct n as [|p|p].
  - reflexivity.
  - destruct (str_pos p) as (E & N & V).
    pose proof (digits_of_uint (Pos.to_uint p)) as D. rewrite <- E in D.
    unfold int. rewrite (lstrip_digits _ D), (rstrip_digits _ D).
    pose proof (int_of_digits_pos p) as I.
    destruct (str (Z.pos p)) as [|c s] eqn:Es; [now contradiction N|].
    cbn in D. apply andb_prop in D as [Hc _].
    destruct (digit_facts c Hc) as (_ & _ & -> & -> & _). exact I.
  - assert (E : str (Z.neg p) = String "-" (str (Z.pos p))).
    { unfold str. cbn [Z.to_int NilZero.string_of_int]. reflexivity. }
    destruct (str_pos p) as (Ep & N & V).
    pose proof (digits_of_uint (Pos.to_uint p)) as D. rewrite <- Ep in D.
    rewrite E. unfold int. cbn [lstrip]. change (is_space "-") with false.
    cbn iota. cbn [rstrip]. rewrite (rstrip_digits _ D).
    destruct (str (Z.pos p)) as [|c s] eqn:Es; [now contradiction N|].
    change ("-" =? "+")%char with false. change ("-" =? "-")%char with true.
    cbn iota. rewrite <- Es, int_of_digits_pos. reflexivity.
Qed.

End Numbers.

Section Colours.

(** X12.  [opposite_color] swaps black and white, so applying it twice to
    either gives the colour back; for any other value it gives [None]. *)
Theorem opposite_color_swaps :
  opposite_color (Some BLACK) = Some WHITE /\
  opposite_color (Some WHITE) = Some BLACK /\
  (forall c, c = Some BLACK \/ c = Some WHITE ->
             opposite_color (opposite_color c) = c /\ opposite_color c <> c) /\
  (forall c, opposite_color c = None <->
             c <> Some BLACK /\ c <> Some WHITE).
Proof.
  split; [reflexivity|]. split; [reflexivity|]. split.
  - intros c [-> | ->]; split; (reflexivity || discriminate).
  - intros [[| | |]|]; cbn; split;
      try discriminate; try (intros [A B]; congruence);
      try (intros _; split; discriminate).
Qed.

(** X13.  The two colour dictionaries are inverse to each other: the letter
    of a colour code is read back as that code, a letter that
    [color_to_int] accepts is the letter [int_to_color] gives for its code,
    and [None], which is what [opposite_color] gives for anything but black
    and white, is a [KeyError] for [int_to_color]. *)
Theorem colour_letters_round_trip :
  (forall c : color,
      Py.and_then (int_to_color (Some c)) color_to_int = Py.Ok c) /\
  (forall (s : string) (c : color),
      color_to_int s = Py.Ok c -> int_to_color (Some c) = Py.Ok s) /\
  (forall c, int_to_color (opposite_color c) = Py.Raise Py.KeyError <->
             c <> Some BLACK /\ c <> Some WHITE).
Proof.
  split; [|split].
  - intros []; reflexivity.
  - intros s c. unfold color_to_int.
    destruct (s =? "b")%string eqn:Eb;
      [apply String.eqb_eq in Eb; subst; now intros [= <-]|].
    destruct (s =? "w")%string eqn:Ew;
      [apply String.eqb_eq in Ew; subst; now intros [= <-]|].
    destruct (s =? "e")%string eqn:Ee;
      [apply String.eqb_eq in Ee; subst; now intros [= <-]|].
    destruct (s =? "BORDER")%string eqn:Eo;
      [apply String.eqb_eq in Eo; subst; now intros [= <-]|].
    discriminate.
  - intros [[| | |]|]; cbn; split;
      try discriminate; try (intros [A B]; congruence);
      try (intros _; split; discriminate); try reflexivity.
Qed.

End Colours.

Section Coordinates.

Variable MAXSIZE : Z.
Variable PASS : pyvalue.

(** X14.  [point_to_coord] passes [PASS] through and takes any other
    integer point apart by the row length [boardsize + 1]: the point
    [row * (boardsize + 1) + col] with [0 <= col <= boardsize] gives
    [(row, col)], and these are the only pairs it gives; with a board size
    of -1 the division fails. *)
Theorem point_to_coord_decodes :
  (forall boardsize, point_to_coord PASS PASS boardsize = Py.Ok Pass) /\
  (forall boardsize row col,
      PyInt (row * (boardsize + 1) + col) <> PASS ->
      0 <= col <= boardsize ->
      point_to_coord PASS (PyInt (row * (boardsize + 1) + col)) boardsize
      = Py.Ok (RowCol row col)) /\
  (forall p boardsize row col,
      0 <= boardsize ->
      point_to_coord PASS (PyInt p) boardsize = Py.Ok (RowCol row col) ->
      p = row * (boardsize + 1) + col /\ 0 <= col <= boardsize) /\
  (forall p, PyInt p <> PASS ->
             point_to_coord PASS (PyInt p) (-1) = Py.Raise Py.ZeroDivisionError).
Proof.
  assert (Refl : forall v, pyvalue_eqb v v = true).
  { intros [|z]; cbn; [reflexivity | apply Z.eqb_refl]. }
  assert (Neq : forall v, v <> PASS -> pyvalue_eqb v PASS = false).
  { intros v N. destruct (pyvalue_eqb v PASS) eqn:E; [|reflexivity].
    exfalso. apply N. destruct v, PASS; cbn in E; try discriminate;
      [reflexivity | apply Z.eqb_eq in E; now subst]. }
  split; [|split; [|split]].
  - intros. unfold point_to_coord. now rewrite Refl.
  - intros size row col N Hc. unfold point_to_coord. rewrite (Neq _ N).
    replace (size + 1 =? 0) with false by (symmetry; apply Z.eqb_neq; lia).
    f_equal. f_equal.
    + rewrite Z.div_add_l by lia. rewrite Z.div_small by lia. lia.
    + rewrite Z.add_comm, Z.mod_add by lia. apply Z.mod_small. lia.
  - intros p size row col Hs. unfold point_to_coord.
    destruct (pyvalue_eqb _ _); [discriminate|].
    replace (size + 1 =? 0) with false by (symmetry; apply Z.eqb_neq; lia).
    intros [= <- <-]. split.
    + rewrite Z.mul_comm. apply Z.div_mod. lia.
    + pose proof (Z.mod_pos_bound p (size + 1)). lia.
  - intros p N. unfold point_to_coord. now rewrite (Neq _ N).
Qed.

Lemma column_letter_facts col :
  0 <= col <= 25 ->
  index column_letters (col - 1) = Some (column_letter col) /\
  column_letter col <> "I"%char.
Proof.
  intros H. assert (E : col = Z.of_nat (Z.to_nat col)) by lia.
  assert (L : (Z.to_nat col < 26)%nat) by lia.
  rewrite E. clear E H. generalize dependent (Z.to_nat col). intros n L.
  do 26 (destruct n as [|n];
         [vm_compute; split; [reflexivity | discriminate]|]).
  lia.
Qed.

(** How [move_to_coord] reads the letter of a column back. *)
Lemma column_letter_read_back col :
  1 <= col <= 25 ->
  (negb (("a" <=? lower_char (column_letter col))
         && (lower_char (column_letter col) <=? "z"))
   || (lower_char (column_letter col) =? "i"))%char = false /\
  (if (lower_char (column_letter col) <? "i")%char
   then ord (lower_char (column_letter col)) - ord "a" + 1
   else ord (lower_char (column_letter col)) - ord "a") = col.
Proof.
  intros H. assert (E : col = Z.of_nat (Z.to_nat col)) by lia.
  assert (L : (0 < Z.to_nat col < 26)%nat) by lia.
  rewrite E. clear E H. generalize dependent (Z.to_nat col). intros n L.
  destruct n as [|n]; [lia|].
  do 25 (destruct n as [|n]; [vm_compute; split; reflexivity|]).
  lia.
Qed.

(** X15.  [format_point] raises [ValueError] exactly when the row or the
    column is outside [0 .. MAXSIZE - 1].  Otherwise, with a [MAXSIZE] of at
    most 26, it gives the letter of the column followed by the row in
    decimal; the letter is never I, and column 0 is given the letter Z, the
    last of the letters. *)
Theorem format_point_answer :
  MAXSIZE <= 26 ->
  (forall row col,
      format_point MAXSIZE (RowCol row col) = Py.Raise (Py.ValueError "") <->
      ~ (0 <= row < MAXSIZE /\ 0 <= col < MAXSIZE)) /\
  (forall row col,
      0 <= row < MAXSIZE -> 0 <= col < MAXSIZE ->
      format_point MAXSIZE (RowCol row col)
      = Py.Ok (String (column_letter col) (str row)) /\
      column_letter col <> "I"%char /\
      (col = 0 -> column_letter col = "Z"%char)) /\
  format_point MAXSIZE Pass = Py.Ok "pass"%string.
Proof.
  intros HM.
  assert (In_range : forall row col,
             0 <= row < MAXSIZE -> 0 <= col < MAXSIZE ->
             format_point MAXSIZE (RowCol row col)
             = Py.Ok (String (column_letter col) (str row))).
  { intros row col Hr Hc. unfold format_point.
    replace ((0 <=? row) && (row <? MAXSIZE)) with true
      by (symmetry; apply andb_true_intro; split;
          [apply Z.leb_le | apply Z.ltb_lt]; lia).
    replace ((0 <=? col) && (col <? MAXSIZE)) with true
      by (symmetry; apply andb_true_intro; split;
          [apply Z.leb_le | apply Z.ltb_lt]; lia).
    cbn [negb orb].
    destruct (column_letter_facts col) as [-> _]; [lia | reflexivity]. }
  split; [|split; [|reflexivity]].
  - intros row col. split.
    + intros E [Hr Hc]. rewrite (In_range row col Hr Hc) in E. discriminate.
    + intros N. unfold format_point.
      destruct ((0 <=? row) && (row <? MAXSIZE)) eqn:Er; [|reflexivity].
      destruct ((0 <=? col) && (col <? MAXSIZE)) eqn:Ec; [|reflexivity].
      exfalso. apply N.
      apply andb_prop in Er as [A B]. apply andb_prop in Ec as [C D].
      apply Z.leb_le in A, C. apply Z.ltb_lt in B, D. lia.
  - intros row col Hr Hc. split; [now apply In_range|].
    split; [apply column_letter_facts; lia | now intros ->].
Qed.

End Coordinates.

Section Moves.

Variable MAXSIZE : Z.
Variable PASS : pyvalue.

Lemma format_point_in_range row col :
  MAXSIZE <= 26 -> 0 <= row < MAXSIZE -> 0 <= col < MAXSIZE ->
  format_point MAXSIZE (RowCol row col)
  = Py.Ok (String (column_letter col) (str row)).
Proof.
  intros HM Hr Hc. unfold format_point.
  replace ((0 <=? row) && (row <? MAXSIZE)) with true
    by (symmetry; apply andb_true_intro; split;
        [apply Z.leb_le | apply Z.ltb_lt]; lia).
  replace ((0 <=? col) && (col <? MAXSIZE)) with true
    by (symmetry; apply andb_true_intro; split;
        [apply Z.leb_le | apply Z.ltb_lt]; lia).
  cbn [negb orb].
  destruct (column_letter_facts col) as [-> _]; [lia | reflexivity].
Qed.

(** [move_to_coord] on a column letter followed by a row in decimal. *)
Lemma move_to_coord_reads row col board_size :
  2 <= board_size <= MAXSIZE ->
  1 <= row <= board_size -> 1 <= col <= board_size -> col <= 25 ->
  move_to_coord MAXSIZE (String (column_letter col) (str row)) board_size
  = Py.Ok (RowCol row col).
Proof.
  intros Hs Hr Hc H25. unfold move_to_coord.
  replace ((2 <=? board_size) && (board_size <=? MAXSIZE)) with true
    by (symmetry; apply andb_true_intro; split; apply Z.leb_le; lia).
  cbn [negb lower].
  assert (D : digits_only (str row) = true).
  { destruct row as [|p|p]; try lia.
    destruct (str_pos p) as (-> & _). apply digits_of_uint. }
  rewrite (lower_digits _ D).
  assert (Np : (String (lower_char (column_letter col)) (str row)
                =? "pass")%string = false).
  { apply String.eqb_neq. intros [= _ E]. rewrite E in D. discriminate. }
  rewrite Np.
  destruct (column_letter_read_back col) as [-> ->]; [lia|].
  rewrite int_str.
  replace (row <? 1) with false by (symmetry; apply Z.ltb_ge; lia).
  replace ((col <=? board_size) && (row <=? board_size)) with true
    by (symmetry; apply andb_true_intro; split; apply Z.leb_le; lia).
  reflexivity.
Qed.

(** X16.  What [format_point] writes for a point of the board,
    [move_to_coord] reads back: for rows and columns from 1 to the board
    size, below [MAXSIZE], formatting and then parsing gives the same
    [(row, col)]. *)
Theorem format_then_parse row col board_size :
  MAXSIZE <= 26 ->
  2 <= board_size <= MAXSIZE ->
  1 <= row <= board_size -> 1 <= col <= board_size ->
  row < MAXSIZE -> col < MAXSIZE ->
  Py.and_then (format_point MAXSIZE (RowCol row col))
    (fun text => move_to_coord MAXSIZE text board_size)
  = Py.Ok (RowCol row col).
Proof.
  intros HM Hs Hr Hc Lr Lc.
  rewrite format_point_in_range by lia. cbn [Py.and_then].
  apply move_to_coord_reads; lia.
Qed.

Lemma letter_value c :
  (negb (("a" <=? c) && (c <=? "z")) || (c =? "i"))%char = false ->
  1 <= (if (c <? "i")%char then ord c - ord "a" + 1 else ord c - ord "a")
    <= 25.
Proof.
  destruct c as [[] [] [] [] [] [] [] []]; vm_compute; intros H;
    first [discriminate H | split; intros K; discriminate K].
Qed.

(** X17.  Whatever text it is given, [move_to_coord] returns a pair only
    for a board size from 2 to [MAXSIZE], and then the row and the column
    are between 1 and the board size; it returns [PASS] exactly for the
    word pass in any mix of cases; and every other outcome is a
    [ValueError]. *)
Theorem move_to_coord_sound text board_size :
  (forall row col,
      move_to_coord MAXSIZE text board_size = Py.Ok (RowCol row col) ->
      2 <= board_size <= MAXSIZE /\
      1 <= row <= board_size /\ 1 <= col <= board_size /\ col <= 25) /\
  (move_to_coord MAXSIZE text board_size = Py.Ok Pass <->
   2 <= board_size <= MAXSIZE /\ lower text = "pass"%string) /\
  (forall e, move_to_coord MAXSIZE text board_size = Py.Raise e ->
             exists message, e = Py.ValueError message).
Proof.
  unfold move_to_coord.
  destruct ((2 <=? board_size) && (board_size <=? MAXSIZE)) eqn:Es; cbn [negb].
  2:{ split; [discriminate|]. split.
      - split; [discriminate|]. intros [[A B] _].
        apply andb_false_iff in Es as [Es|Es]; apply Z.leb_gt in Es; lia.
      - intros e [= <-]. now eexists. }
  apply andb_prop in Es as [A B]. apply Z.leb_le in A, B.
  destruct (lower text =? "pass")%string eqn:Ep.
  { apply String.eqb_eq in Ep. split; [discriminate|]. split.
    - split; [now intros _ | reflexivity].
    - discriminate. }
  apply String.eqb_neq in Ep.
  assert (NP : forall r : Py.result coord,
             (forall row col, r = Py.Ok (RowCol row col) ->
                2 <= board_size <= MAXSIZE /\
                1 <= row <= board_size /\ 1 <= col <= board_size /\ col <= 25) ->
             r <> Py.Ok Pass ->
             (forall e, r = Py.Raise e -> exists message, e = Py.ValueError message) ->
             (forall row col, r = Py.Ok (RowCol row col) ->
                2 <= board_size <= MAXSIZE /\
                1 <= row <= board_size /\ 1 <= col <= board_size /\ col <= 25) /\
             (r = Py.Ok Pass <->
              2 <= board_size <= MAXSIZE /\ lower text = "pass"%string) /\
             (forall e, r = Py.Raise e ->
                        exists message, e = Py.ValueError message)).
  { intros r H1 H2 H3. split; [exact H1|]. split; [|exact H3].
    split; [intros E; now contradiction H2 | intros [_ E]; now contradiction Ep]. }
  apply NP; clear NP.
  - destruct (lower text) as [|c digits]; [discriminate|].
    destruct (negb _ || _)%char eqn:Ec; [discriminate|].
    destruct (int digits) as [row'|]; [|discriminate].
    destruct (row' <? 1) eqn:Er; [discriminate|].
    destruct ((_ <=? board_size) && (row' <=? board_size)) eqn:Eb;
      cbn [negb]; [|discriminate].
    intros row col [= <- <-].
    apply Z.ltb_ge in Er. apply andb_prop in Eb as [C D].
    apply Z.leb_le in C, D. pose proof (letter_value c Ec). lia.
  - destruct (lower text) as [|c digits]; [discriminate|].
    destruct (negb _ || _)%char; [discriminate|].
    destruct (int digits) as [row'|]; [|discriminate].
    destruct (row' <? 1); [discriminate|].
    destruct (negb _); discriminate.
  - intros e.
    destruct (lower text) as [|c digits]; [intros [= <-]; now eexists|].
    destruct (negb _ || _)%char; [intros [= <-]; now eexists|].
    destruct (int digits) as [row'|]; [|intros [= <-]; now eexists].
    destruct (row' <? 1); [intros [= <-]; now eexists|].
    destruct (negb _); [intros [= <-]; now eexists | discriminate].
Qed.

End Moves.

Section Answers.

Context {board : Type} {GB : GoBoard board}.
Variable time_time : nat -> Q.
Variable MAXSIZE : Z.
Variable PASS : pyvalue.
Variable board_size : board -> Z.

Local Abbreviation world := (@world board).

Lemma pyvalue_eqb_neq v : v <> PASS -> pyvalue_eqb v PASS = false.
Proof.
  intros N. destruct (pyvalue_eqb v PASS) eqn:E; [|reflexivity].
  exfalso. apply N. destruct v, PASS; cbn in E; try discriminate;
    [reflexivity | apply Z.eqb_eq in E; now subst].
Qed.

Lemma solve_answer_given cp size code move moves :
  MAXSIZE <= 26 -> 2 <= size < MAXSIZE ->
  cp = Some BLACK \/ cp = Some WHITE ->
  (forall m, In m moves -> on_board PASS size m) ->
  (code = 0 /\ move = None) \/
  ((code = 1 \/ code = 2) /\ exists m, move = Some m /\ In m moves) \/
  (code = 4 /\ move = None) ->
  exists answer,
    solve_answer MAXSIZE PASS cp size (code, move) = Py.Ok answer /\
    answers MAXSIZE PASS cp size moves answer.
Proof.
  intros HM Hs Hcp Hb Shape.
  assert (Letter : exists letter other,
             int_to_color cp = Py.Ok letter /\
             int_to_color (opposite_color cp) = Py.Ok other).
  { destruct Hcp as [-> | ->]; eexists _, _; split; reflexivity. }
  destruct Letter as (letter & other & El & Eo).
  destruct Shape as [[-> ->]|[[Hc (m & -> & Hin)]|[-> ->]]].
  - exists other. split; [exact Eo|]. right. now left.
  - destruct (Hb m Hin) as (Np & Hr & Hc').
    assert (Ept : point_to_coord PASS (PyInt m) size
                  = Py.Ok (RowCol (m / (size + 1)) (m mod (size + 1)))).
    { unfold point_to_coord. rewrite (pyvalue_eqb_neq _ Np).
      replace (size + 1 =? 0) with false by (symmetry; apply Z.eqb_neq; lia).
      reflexivity. }
    assert (Ef : format_point MAXSIZE
                   (RowCol (m / (size + 1)) (m mod (size + 1)))
                 = Py.Ok (String (column_letter (m mod (size + 1)))
                            (str (m / (size + 1)))))
      by (apply format_point_in_range; lia).
    assert (Em : move_to_coord MAXSIZE
                   (String (column_letter (m mod (size + 1)))
                      (str (m / (size + 1)))) size
                 = point_to_coord PASS (PyInt m) size)
      by (rewrite Ept; apply move_to_coord_reads; lia).
    destruct Hc as [-> | ->]; unfold solve_answer;
      cbn [Z.eqb Pos.eqb]; rewrite Ept; cbn [Py.and_then]; rewrite Ef;
      cbn [Py.and_then]; rewrite ?El; cbn [Py.and_then];
      eexists; (split; [reflexivity|]); right; right;
      exists m, (String (column_letter (m mod (size + 1)))
                   (str (m / (size + 1)))), letter;
      (split; [exact Hin|]); (split; [exact El|]); (split; [|exact Em]).
    + now right.
    + now left.
  - exists "unknown"%string. split; [reflexivity | now left].
Qed.

(** X18.  For a board whose side to move is black or white, whose size is
    at least 2 and below [MAXSIZE], itself at most 26, and whose legal moves
    are all points of the board, [minimax_solve] always comes to an answer
    and never to an exception; the answer is the word unknown, or the letter
    of the other colour, or the letter of the colour or the word draw
    followed by a move, and the move it names is read back by
    [move_to_coord] as the coordinate of one of the legal moves. *)
Theorem solve_always_answers fuel self_board (w : world) :
  (self_board < fresh w)%nat ->
  (2 <= fuel)%nat ->
  MAXSIZE <= 26 ->
  2 <= board_size (objects w self_board) < MAXSIZE ->
  current_player (objects w self_board) = Some BLACK \/
  current_player (objects w self_board) = Some WHITE ->
  (forall m,
      In m (generate_legal_moves_gomoku (objects w self_board)) ->
      on_board PASS (board_size (objects w self_board)) m) ->
  exists answer w',
    minimax_solve_answer time_time MAXSIZE PASS board_size fuel self_board w
    = Returns (Py.Ok answer) w' /\
    answers MAXSIZE PASS (current_player (objects w self_board))
      (board_size (objects w self_board))
      (generate_legal_moves_gomoku (objects w self_board)) answer.
Proof.
  intros L Hf HM Hs Hcp Hb.
  assert (T : exists r w1, minimax_solve time_time fuel self_board w
                           = Returns r w1).
  { unfold minimax_solve, bind, board_copy, board_read.
    apply Minimax_returns; [lia | exact Hf]. }
  destruct T as [[code move] [w1 E]].
  destruct (minimax_solve_kept _ _ _ _ _ _ L E) as (_ & _ & Ko).
  assert (Shape : (code = 0 /\ move = None) \/
                  ((code = 1 \/ code = 2) /\
                   exists m, move = Some m /\
                     In m (generate_legal_moves_gomoku (objects w self_board)))
                  \/ (code = 4 /\ move = None)).
  { unfold minimax_solve, bind, board_copy, board_read in E.
    apply Minimax_recorded in E. cbn [objects set_fresh set_objects] in E.
    rewrite update_same in E. destruct E as [[R|R]|R]; auto. }
  destruct (solve_answer_given _ _ _ _ _ HM Hs Hcp Hb Shape) as [answer [Ea Ha]].
  exists answer, w1. split; [|exact Ha].
  unfold minimax_solve_answer.
  rewrite (bind_run _ _ _ _ _ E).
  rewrite (bind_run _ _ _ _ _ (board_read_run self_board w1)).
  unfold ret. rewrite (Ko _ L). now rewrite Ea.
Qed.

End Answers.

(** * Examples for the further properties *)

(** X1: the draw at 12 on the board with two points left. *)
Lemma Minimax_outcome_shape_witness :
  exists code move w',
    Minimax still_clock 2 0 2 (Some BLACK) (started two_left 1)
    = Returns (code, move) w' /\
    ((code = 0 /\ move = None) \/
     ((code = 1 \/ code = 2) /\
      exists m, move = Some m /\ In m [11; 12]) \/
     (code = 4 /\ move = None)).
Proof.
  destruct (Minimax_returns still_clock 2 0 2 (Some BLACK) (started two_left 1))
    as [[code move] [w' E]]; [lia | cbn; lia |].
  exists code, move, w'. split; [exact E|].
  exact (Minimax_outcome_shape still_clock 2 0 2 (Some BLACK) _ w' code move E).
Defined.

(** X2: the same call reads the clock at most three times. *)
Lemma clock_is_read_by_the_driver_only_witness :
  exists r w',
    Minimax still_clock 2 0 2 (Some BLACK) (started two_left 1) = Returns r w' /\
    TIME_LIMIT w' = 1 /\ (0 < clock_reads w')%nat /\ (clock_reads w' <= 3)%nat.
Proof.
  destruct (Minimax_returns still_clock 2 0 2 (Some BLACK) (started two_left 1))
    as [r [w' E]]; [lia | cbn; lia |].
  exists r, w'. split; [exact E|].
  exact (proj2 (proj2 (clock_is_read_by_the_driver_only still_clock 2 0 2
                         (Some BLACK) (started two_left 1) w')) r E).
Defined.


(** X4: the move 5 proves a win with 20000 points. *)
Lemma Minimax_outcome_code_witness :
  candidate 2 last_point_wins 2 (Some WHITE) 5 = Some (true, Some BLACK, 20000) /\
  exists move w',
    Minimax still_clock 2 0 2 (Some WHITE) (started last_point_wins 1)
    = Returns (2, move) w'.
Proof.
  assert (C : candidate 2 (objects (started last_point_wins 1) 0) 2
                (Some WHITE) 5 = Some (true, Some BLACK, 20000)) by evaluate.
  split; [exact C|].
  destruct (Minimax_returns still_clock 2 0 2 (Some WHITE)
              (started last_point_wins 1))
    as [[code move] [w' E]]; [lia | cbn; lia |].
  assert (N : code <> 4).
  { assert (R : returned (Minimax still_clock 2 0 2 (Some WHITE)
                            (started last_point_wins 1)) = Some (2, Some 5))
      by evaluate.
    rewrite E in R. cbn in R. injection R as -> _. discriminate. }
  exists move, w'. rewrite E. do 2 f_equal.
  refine (proj1 (Minimax_outcome_code still_clock 2 0 2 (Some WHITE) _ w' code
                   move _ E N _) _).
  - cbn; lia.
  - evaluate.
  - exists 5, (Some BLACK), 20000. split; [now left|]. split; [exact C | lia].
Defined.

(** X5: two pairs of bounds on the same node. *)
Lemma bounds_are_ignored_witness :
  (0 < fresh (started threatened 1))%nat /\
  returned (MinimaxBooleanOR 2 0 1 (Some BLACK) 0 0 (started threatened 1))
  = returned (MinimaxBooleanOR 2 0 1 (Some BLACK) 5 (-7) (started threatened 1)).
Proof.
  assert (L : (0 < fresh (started threatened 1))%nat) by (cbn; lia).
  split; [exact L|].
  exact (proj1 (bounds_are_ignored 2 0 1 (Some BLACK) 0 0 5 (-7)
                  (started threatened 1) L)).
Defined.

(** X6: the OR node over two children that read as -5. *)
Lemma OR_node_verdict_witness :
  exists win col points w',
    MinimaxBooleanOR 2 0 1 (Some BLACK) 0 0 (started threatened 1)
    = Returns (win, col, points) w' /\
    col = Some BLACK /\
    (points = 0 \/
     exists m w1, In m [3; 4] /\
                  OR_child 1 threatened 1 (Some BLACK) m = Some (w1, points)).
Proof.
  destruct (proj1 (nodes_return 2 1 ltac:(lia) ltac:(cbn; lia)) 0%nat
              (Some BLACK) 0 0 (started threatened 1))
    as [[[win col] points] [w' E]].
  exists win, col, points, w'. split; [exact E|].
  destruct (OR_node_verdict 1 0 1 (Some BLACK) 0 0 (started threatened 1) w'
              win col points) as (Hc & _ & _ & Hp).
  - cbn; lia.
  - discriminate.
  - discriminate.
  - exact E.
  - split; [exact Hc | exact Hp].
Defined.

(** X7 and X8: a call at depth 1 on object 0 leaves object 0 with the first
    move, 11, played, and a second object, 1, as it was. *)
Lemma Minimax_keeps_other_boards_witness :
  exists r w',
    Minimax still_clock 1 0 1 (Some BLACK)
      (set_fresh 2 (started two_left 1)) = Returns r w' /\
    objects w' 1%nat = two_left.
Proof.
  destruct (Minimax_returns still_clock 1 0 1 (Some BLACK)
              (set_fresh 2 (started two_left 1)))
    as [r [w' E]]; [lia | cbn; lia |].
  exists r, w'. split; [exact E|].
  refine (proj1 (Minimax_keeps_other_boards still_clock 1 0 1 (Some BLACK)
                   _ w' r _ E) 1%nat _ _).
  - cbn; lia.
  - cbn; lia.
  - discriminate.
Defined.

Lemma Minimax_plays_on_its_argument_witness :
  exists r w',
    Minimax still_clock 1 0 1 (Some BLACK) (started two_left 1) = Returns r w' /\
    objects w' 0%nat = play_move_gomoku two_left 11 (Some BLACK) /\
    objects w' 0%nat <> two_left.
Proof.
  destruct (Minimax_returns still_clock 1 0 1 (Some BLACK) (started two_left 1))
    as [[code best_move] [w' E]]; [lia | cbn; lia |].
  exists (code, best_move), w'. split; [exact E|].
  assert (N : code <> 4).
  { assert (R : option_map fst
                  (returned (Minimax still_clock 1 0 1 (Some BLACK)
                               (started two_left 1))) = Some 0) by evaluate.
    rewrite E in R. cbn in R. injection R as ->. discriminate. }
  assert (K : objects w' 0%nat = play_move_gomoku two_left 11 (Some BLACK)).
  { refine (proj2 (Minimax_plays_on_its_argument still_clock 1 0 1 (Some BLACK)
                     _ w' code best_move 11 [12] _ _ _ E (or_introl N)) eq_refl).
    - cbn; lia.
    - evaluate.
    - evaluate. }
  split; [exact K|]. rewrite K. discriminate.
Defined.

(** X9 to X11: snapshots of the board with two points left. *)
Lemma snapshot_survives_the_move_witness :
  exists w',
    bind (save_board 0)
      (fun _ => bind (board_play 0 11 (Some BLACK)) (fun _ => undo))
      (started two_left 1) = Returns 1%nat w' /\
    objects w' 1%nat = two_left /\
    objects w' 0%nat = play_move_gomoku two_left 11 (Some BLACK).
Proof.
  destruct (snapshot_survives_the_move 0 11 (Some BLACK) (started two_left 1))
    as (w' & E & _ & Ec & Eb & _); [cbn; lia|].
  exists w'. repeat split; assumption.
Defined.

Lemma snapshots_are_last_in_first_out_witness :
  exists x y w',
    bind (save_board 0)
      (fun _ => bind (save_board 1)
         (fun _ => bind undo (fun x => bind undo (fun y => ret (x, y)))))
      (set_objects (fun r => if Nat.eqb r 0 then two_left else full_board)
         (set_fresh 2 (started two_left 1)))
    = Returns (x, y) w' /\
    objects w' x = full_board /\ objects w' y = two_left.
Proof.
  destruct (snapshots_are_last_in_first_out 0 1
              (set_objects (fun r => if Nat.eqb r 0 then two_left else full_board)
                 (set_fresh 2 (started two_left 1))))
    as (x & y & w' & E & Ex & Ey & _); [cbn; lia | cbn; lia |].
  exists x, y, w'. repeat split; assumption.
Defined.

Lemma push_solve_undo_witness :
  exists r u w',
    bind (save_board 0)
      (fun _ => bind (minimax_solve still_clock 2 0)
         (fun r => bind undo (fun u => ret (r, u))))
      (started two_left 1) = Returns (r, u) w' /\
    objects w' u = two_left /\ objects w' 0%nat = two_left /\ stack w' = [].
Proof.
  destruct (push_solve_undo still_clock 2 0 (started two_left 1))
    as (r & u & w' & E & Eu & Es & Et); [cbn; lia | lia |].
  exists r, u, w'. repeat split; assumption.
Defined.

(** X12 and X13: black and white. *)
Lemma opposite_color_swaps_witness :
  opposite_color (opposite_color (Some BLACK)) = Some BLACK /\
  opposite_color (Some BLACK) <> Some BLACK /\
  opposite_color (Some EMPTY) = None.
Proof.
  destruct opposite_color_swaps as (_ & _ & Inv & Non).
  destruct (Inv (Some BLACK) (or_introl eq_refl)) as [A B].
  split; [exact A|]. split; [exact B|].
  apply (proj2 (Non (Some EMPTY))). split; discriminate.
Defined.

Lemma colour_letters_round_trip_witness :
  color_to_int "w" = Py.Ok WHITE /\
  int_to_color (Some WHITE) = Py.Ok "w"%string /\
  int_to_color (opposite_color None) = Py.Raise Py.KeyError.
Proof.
  assert (E : color_to_int "w" = Py.Ok WHITE) by reflexivity.
  destruct colour_letters_round_trip as (_ & Back & Key).
  split; [exact E|]. split; [exact (Back _ _ E)|].
  apply (proj2 (Key None)). split; discriminate.
Defined.

(** X14 to X17: the point 11 of a board of size 7 is row 1, column 3,
    written C1; [MAXSIZE] is 25 and [PASS] is [None]. *)
Lemma point_to_coord_decodes_witness :
  PyInt (1 * (7 + 1) + 3) <> PyNone /\ 0 <= 3 <= 7 /\
  point_to_coord PyNone (PyInt 11) 7 = Py.Ok (RowCol 1 3).
Proof.
  assert (N : PyInt (1 * (7 + 1) + 3) <> PyNone) by discriminate.
  assert (H : 0 <= 3 <= 7) by lia.
  split; [exact N|]. split; [exact H|].
  exact (proj1 (proj2 (point_to_coord_decodes PyNone)) 7 1 3 N H).
Defined.

Lemma format_point_answer_witness :
  25 <= 26 /\ 0 <= 1 < 25 /\ 0 <= 3 < 25 /\
  format_point 25 (RowCol 1 3) = Py.Ok "C1"%string.
Proof.
  assert (M : 25 <= 26) by lia.
  assert (R : 0 <= 1 < 25) by lia.
  assert (C : 0 <= 3 < 25) by lia.
  split; [exact M|]. split; [exact R|]. split; [exact C|].
  exact (proj1 (proj1 (proj2 (format_point_answer 25 M)) 1 3 R C)).
Defined.

Lemma format_then_parse_witness :
  25 <= 26 /\ 2 <= 7 <= 25 /\ 1 <= 1 <= 7 /\ 1 <= 3 <= 7 /\
  Py.and_then (format_point 25 (RowCol 1 3))
    (fun text => move_to_coord 25 text 7) = Py.Ok (RowCol 1 3).
Proof.
  assert (M : 25 <= 26) by lia.
  assert (S : 2 <= 7 <= 25) by lia.
  assert (R : 1 <= 1 <= 7) by lia.
  assert (C : 1 <= 3 <= 7) by lia.
  split; [exact M|]. split; [exact S|]. split; [exact R|]. split; [exact C|].
  apply (format_then_parse 25 1 3 7 M S R C); lia.
Defined.

Lemma move_to_coord_sound_witness :
  move_to_coord 25 "c1" 7 = Py.Ok (RowCol 1 3) /\
  2 <= 7 <= 25 /\ 1 <= 1 <= 7 /\ 1 <= 3 <= 7 /\ 3 <= 25.
Proof.
  assert (E : move_to_coord 25 "c1" 7 = Py.Ok (RowCol 1 3)) by evaluate.
  split; [exact E|].
  exact (proj1 (move_to_coord_sound 25 "c1" 7) 1 3 E).
Defined.

(** X18: the answer for the board with two points left, taken to be of
    size 7. *)
Lemma solve_always_answers_witness :
  exists answer w',
    minimax_solve_answer still_clock 25 PyNone (fun _ => 7) 2 0
      (started two_left 1) = Returns (Py.Ok answer) w' /\
    answers 25 PyNone (Some BLACK) 7 [11; 12] answer.
Proof.
  refine (solve_always_answers still_clock 25 PyNone (fun _ => 7) 2 0
            (started two_left 1) _ _ _ _ _ _).
  - cbn; lia.
  - lia.
  - lia.
  - lia.
  - now left.
  - intros m [<-|[<-|[]]]; (split; [discriminate|]); vm_compute;
      repeat split; discriminate.
Defined.

(** * The time limit and the move generation command *)

Section Generation.

Context {board : Type} {GB : GoBoard board}.
Variable time_time : nat -> Q.
Variable MAXSIZE : Z.
Variable PASS : pyvalue.
Variable board_size : board -> Z.
Variable is_legal_gomoku : board -> point -> color -> bool.

Local Abbreviation world := (@world board).

(** X19.  The limit given to [setGlobalTime] is the one the next call of
    [Minimax] works with and is still in force after it; a limit of 0 or
    less makes that call return the time-out code at its first time check,
    on a board with a legal move that is not already decided for the
    opponent and with a clock that has not gone back. *)
Theorem setGlobalTime_then_Minimax limit fuel b depth c (w : world) :
  (forall r w',
      bind (setGlobalTime limit) (fun _ => Minimax time_time fuel b depth c) w
      = Returns r w' ->
      TIME_LIMIT w' = limit) /\
  (limit <= 0 ->
   decided_for_opponent (objects w b) c = false ->
   generate_legal_moves_gomoku (objects w b) <> [] ->
   (time_time (clock_reads w) <= time_time (S (clock_reads w)))%Q ->
   bind (setGlobalTime limit) (fun _ => Minimax time_time fuel b depth c) w
   = Returns (4, None)
       (set_clock_reads (S (S (clock_reads w))) (set_TIME_LIMIT limit w))).
Proof.
  assert (E0 : setGlobalTime limit w = Returns tt (set_TIME_LIMIT limit w))
    by reflexivity.
  split.
  - intros [code move] w' E. rewrite (bind_run _ _ _ _ _ E0) in E.
    unfold Minimax in E.
    rewrite (bind_run _ _ _ _ _ (time_now_run time_time _)) in E.
    rewrite (bind_run _ _ _ _ _ (board_read_run b _)) in E.
    cbn [objects set_clock_reads set_TIME_LIMIT] in E.
    destruct (check_game_end_gomoku _) as [win col].
    destruct (win && _).
    + now injection E as _ _ <-.
    + eapply (Minimax_for_facts _ _ (generate_legal_moves_gomoku (objects w b))
                (proj2 (nodes_untimed fuel))) in E;
        [| intros m Hm; exact Hm | left; now split].
      now destruct E as (-> & _).
  - intros Hl Hd Hm Hc. rewrite (bind_run _ _ _ _ _ E0).
    now rewrite Minimax_without_budget.
Qed.

(** X20.  [genmove_cmd] on a time-out: with a time limit of 0 or less, a
    game that has not ended, a legal move and a clock that has not gone
    back, the command neither asks the engine for a move nor plays one; it
    answers pass when [PASS] is [None], and ends with a [TypeError]
    otherwise.  The board and the stack are as they were. *)
Theorem genmove_on_timeout letter color engine_move fuel self_board winner
    (w : world) :
  (self_board < fresh w)%nat ->
  color_to_int (lower letter) = Py.Ok color ->
  check_game_end_gomoku (objects w self_board) = (false, winner) ->
  generate_legal_moves_gomoku (objects w self_board) <> [] ->
  TIME_LIMIT w <= 0 ->
  (time_time (clock_reads w) <= time_time (S (clock_reads w)))%Q ->
  exists w',
    genmove_cmd time_time MAXSIZE PASS board_size is_legal_gomoku letter
      engine_move fuel self_board w
    = Returns (if pyvalue_eqb PyNone PASS then Py.Ok "pass"%string
               else Py.Raise Py.TypeError) w' /\
    objects w' self_board = objects w self_board /\
    stack w' = stack w.
Proof.
  intros L Hcol Hend Hm Ht Hc. unfold genmove_cmd. rewrite Hcol.
  rewrite (bind_run _ _ _ _ _ (board_read_run self_board w)). rewrite Hend.
  assert (Ec : board_copy self_board w
               = Returns (fresh w)
                   (set_fresh (S (fresh w))
                      (set_objects (update (objects w) (fresh w)
                                      (objects w self_board)) w)))
    by reflexivity.
  rewrite (bind_run _ _ _ _ _ Ec). set (w0 := set_fresh _ _).
  assert (E : Minimax time_time fuel (fresh w) 2 (Some color) w0
              = Returns (4, None) (set_clock_reads (S (S (clock_reads w0))) w0)).
  { apply Minimax_without_budget.
    - exact Ht.
    - unfold decided_for_opponent. cbn [objects w0 set_fresh set_objects].
      rewrite update_same, Hend. reflexivity.
    - cbn [objects w0 set_fresh set_objects]. now rewrite update_same.
    - exact Hc. }
  rewrite (bind_run _ _ _ _ _ E). cbn [Z.eqb].
  assert (Es : objects w0 self_board = objects w self_board)
    by (cbn; apply update_other; lia).
  destruct (pyvalue_eqb PyNone PASS) eqn:Ep.
  - eexists. split; [reflexivity|]. split; [exact Es | reflexivity].
  - rewrite (bind_run _ _ _ _ _ (board_read_run self_board _)).
    unfold point_to_coord. rewrite Ep.
    eexists. split; [reflexivity|]. split; [exact Es | reflexivity].
Qed.

(** X21.  [genmove_cmd], for a colour letter that [color_to_int] knows,
    always comes to an end, with the stack as it was and every other board
    object unchanged.  It changes [self.board] in one way only: by playing
    on it a single move that [is_legal_gomoku] accepts, and then its answer
    is that move as [format_point] writes it; when the game has already
    ended it changes nothing at all and answers pass or resign. *)
Theorem genmove_is_safe letter color engine_move fuel self_board (w : world) :
  (self_board < fresh w)%nat ->
  (2 <= fuel)%nat ->
  color_to_int (lower letter) = Py.Ok color ->
  exists answer w',
    genmove_cmd time_time MAXSIZE PASS board_size is_legal_gomoku letter
      engine_move fuel self_board w = Returns answer w' /\
    stack w' = stack w /\
    (forall b, (b < fresh w)%nat -> b <> self_board ->
               objects w' b = objects w b) /\
    (objects w' self_board = objects w self_board \/
     exists m text,
       is_legal_gomoku (objects w self_board) m color = true /\
       Py.and_then
         (point_to_coord PASS (PyInt m) (board_size (objects w self_board)))
         (format_point MAXSIZE) = Py.Ok text /\
       answer = Py.Ok text /\
       objects w' self_board
       = play_move_gomoku (objects w self_board) m (Some color)) /\
    (fst (check_game_end_gomoku (objects w self_board)) = true ->
     w' = w /\
     (answer = Py.Ok "pass"%string \/ answer = Py.Ok "resign"%string)).
Proof.
  intros L Hf Hcol. unfold genmove_cmd. rewrite Hcol.
  rewrite (bind_run _ _ _ _ _ (board_read_run self_board w)).
  destruct (check_game_end_gomoku (objects w self_board))
    as [game_end winner] eqn:Hend.
  destruct game_end.
  { destruct (pycolor_eqb winner (Some color)); eexists _, w;
      (split; [reflexivity|]); (split; [reflexivity|]);
      (split; [reflexivity|]); (split; [now left|]); intros _;
      (split; [reflexivity|]); [now left | now right]. }
  assert (Ec : board_copy self_board w
               = Returns (fresh w)
                   (set_fresh (S (fresh w))
                      (set_objects (update (objects w) (fresh w)
                                      (objects w self_board)) w)))
    by reflexivity.
  rewrite (bind_run _ _ _ _ _ Ec). set (w0 := set_fresh _ _).
  assert (L0 : (fresh w < fresh w0)%nat) by (cbn; lia).
  destruct (Minimax_returns time_time fuel (fresh w) 2 (Some color) w0)
    as [[is_win found] [w1 E]]; [lia | exact Hf |].
  rewrite (bind_run _ _ _ _ _ E). cbv zeta.
  destruct (Minimax_frame _ _ _ _ _ _ _ _ L0 E) as (Fs & Ff & Fo & _).
  assert (Keep : forall b, (b < fresh w)%nat -> objects w1 b = objects w b).
  { intros b Lb. rewrite Fo by (cbn; lia). cbn. apply update_other. lia. }
  assert (Done : forall answer,
             stack w1 = stack w /\
             (forall b, (b < fresh w)%nat -> b <> self_board ->
                        objects w1 b = objects w b) /\
             (objects w1 self_board = objects w self_board \/
              exists m text,
                is_legal_gomoku (objects w self_board) m color = true /\
                Py.and_then
                  (point_to_coord PASS (PyInt m)
                     (board_size (objects w self_board)))
                  (format_point MAXSIZE) = Py.Ok text /\
                answer = Py.Ok text /\
                objects w1 self_board
                = play_move_gomoku (objects w self_board) m (Some color)) /\
             (fst (false, winner) = true ->
              w1 = w /\
              (answer = Py.Ok "pass"%string \/ answer = Py.Ok "resign"%string))).
  { intros answer. split; [exact Fs|]. split; [intros b Lb _; now apply Keep|].
    split; [left; now apply Keep | discriminate]. }
  set (move := if is_win =? 0 then engine_move
               else match found with Some m => PyInt m | None => PyNone end).
  destruct (pyvalue_eqb move PASS);
    [eexists _, w1; split; [reflexivity | apply Done]|].
  rewrite (bind_run _ _ _ _ _ (board_read_run self_board w1)).
  rewrite (Keep _ L).
  destruct (point_to_coord PASS move (board_size (objects w self_board)))
    as [move_coord|e] eqn:Ep;
    [|eexists _, w1; split; [reflexivity | apply Done]].
  destruct (format_point MAXSIZE move_coord) as [text|e] eqn:Et;
    [|eexists _, w1; split; [reflexivity | apply Done]].
  destruct move as [|m];
    [eexists _, w1; split; [reflexivity | apply Done]|].
  destruct (is_legal_gomoku (objects w self_board) m color) eqn:El;
    [|eexists _, w1; split; [reflexivity | apply Done]].
  rewrite (bind_run _ _ _ _ _ (board_play_run self_board m (Some color) w1)).
  eexists _, _. split; [reflexivity|]. cbn [stack played set_objects objects].
  split; [exact Fs|]. split; [|split; [|discriminate]].
  - intros b Lb Nb. rewrite update_other by exact Nb. now apply Keep.
  - right. exists m, text. split; [exact El|]. split; [|split; [reflexivity|]].
    + rewrite Ep. cbn [Py.and_then]. exact Et.
    + rewrite update_same. now rewrite (Keep _ L).
Qed.

End Generation.

(** X19: a limit of 0 on the board with two points left. *)
Lemma setGlobalTime_then_Minimax_witness :
  0 <= 0 /\
  bind (setGlobalTime 0)
    (fun _ => Minimax still_clock 2 0 2 (Some BLACK)) (started two_left 1)
  = Returns (4, None)
      (set_clock_reads 2 (set_TIME_LIMIT 0 (started two_left 1))).
Proof.
  assert (H : 0 <= 0) by lia. split; [exact H|].
  refine (proj2 (setGlobalTime_then_Minimax still_clock 0 2 0 2 (Some BLACK)
                   (started two_left 1)) H _ _ _).
  - evaluate.
  - discriminate.
  - vm_compute. discriminate.
Defined.

(** X20: black to generate a move with a time limit of 0; [PASS] is
    [None]. *)
Lemma genmove_on_timeout_witness :
  color_to_int (lower "B") = Py.Ok BLACK /\
  exists w',
    genmove_cmd still_clock 25 PyNone (fun _ => 7) (fun _ _ _ => true) "B"
      (PyInt 12) 2 0 (started two_left 0) = Returns (Py.Ok "pass"%string) w' /\
    objects w' 0%nat = two_left.
Proof.
  assert (C : color_to_int (lower "B") = Py.Ok BLACK) by reflexivity.
  split; [exact C|].
  destruct (genmove_on_timeout still_clock 25 PyNone (fun _ => 7)
              (fun _ _ _ => true) "B" BLACK (PyInt 12) 2 0 None
              (started two_left 0)) as (w' & E & Eo & _).
  - cbn; lia.
  - exact C.
  - reflexivity.
  - discriminate.
  - cbn; lia.
  - vm_compute. discriminate.
  - exists w'. split; [exact E | exact Eo].
Defined.

(** X21: black to generate a move on the board with two points left. *)
Lemma genmove_is_safe_witness :
  color_to_int (lower "b") = Py.Ok BLACK /\
  exists answer w',
    genmove_cmd still_clock 25 PyNone (fun _ => 7) (fun _ _ _ => true) "b"
      (PyInt 11) 2 0 (started two_left 1) = Returns answer w' /\
    stack w' = [].
Proof.
  assert (C : color_to_int (lower "b") = Py.Ok BLACK) by reflexivity.
  split; [exact C|].
  destruct (genmove_is_safe still_clock 25 PyNone (fun _ => 7)
              (fun _ _ _ => true) "b" BLACK (PyInt 11) 2 0
              (started two_left 1)) as (answer & w' & E & Es & _).
  - cbn; lia.
  - lia.
  - exact C.
  - exists answer, w'. split; [exact E | exact Es].
Defined.
